(** * ISO8601 durations: a shallow embedding of [duration.go]

    The development follows the source file top to bottom: the unit
    constants, the two regular expressions with the matcher they are run
    by, the accessors over the [int64] magnitude, [ParseString], the
    template behind [String], and the two JSON methods.  The pieces of the
    Go standard library the source calls ([regexp], [strconv.ParseFloat],
    [math], the [float64] arithmetic, [fmt]'s printing of a [float64],
    [encoding/json]) are modelled as executable functions, the [float64]
    operations through the IEEE 754 specification [SpecFloat] of the
    standard library at precision 53 and maximal exponent 1024.

    Where Go leaves a result to the platform the model is that of amd64:
    [int] has 64 bits, every [float64] operation is rounded on its own
    (no fused multiply-add), and a [float64] that does not fit converts
    to the smallest [int64].  Strings are sequences of bytes; the
    patterns hold ASCII only, so matching bytes is matching runes. *)

From Stdlib Require Import ZArith List Bool Ascii String Lia.
From Stdlib Require Import SpecFloat DecimalString.
From Stdlib Require Import QArith Qround.

Import ListNotations.
Open Scope string_scope.
Open Scope Z_scope.

Set Implicit Arguments.

(** ** The [regexp] package, as far as the two patterns need it *)

Module Regexp.

(** The character classes occurring in the patterns: [\d] and [[\d\.]]. *)
Inductive cclass : Type :=
| Digit
| DigitOrDot.

(** The syntax the two patterns are written in.  A group carries its
    name, the empty string for an unnamed one, as [SubexpNames]
    reports it. *)
Inductive regex : Type :=
| Lit (c : ascii)
| Plus (cl : cclass)
| Seq (r1 r2 : regex)
| Opt (r : regex)
| Group (name : string) (r : regex).

Definition is_digit (c : ascii) : bool :=
  let n := nat_of_ascii c in (48 <=? n)%nat && (n <=? 57)%nat.

Definition in_class (cl : cclass) (c : ascii) : bool :=
  match cl with
  | Digit => is_digit c
  | DigitOrDot => is_digit c || Ascii.eqb c "."
  end.

(** Number of capture groups of an expression; the groups are numbered
    from 1 in the order of their opening parentheses. *)
Fixpoint ngroups (r : regex) : nat :=
  match r with
  | Lit _ | Plus _ => 0
  | Seq r1 r2 => ngroups r1 + ngroups r2
  | Opt r => ngroups r
  | Group _ r => S (ngroups r)
  end.

Fixpoint group_names (r : regex) : list string :=
  match r with
  | Lit _ | Plus _ => []
  | Seq r1 r2 => group_names r1 ++ group_names r2
  | Opt r => group_names r
  | Group n r => n :: group_names r
  end.

(** [SubexpNames]: index 0 is the whole match and has the empty name. *)
Definition SubexpNames (r : regex) : list string := "" :: group_names r.

(** The first [length s - length rest] characters of [s]: the text
    consumed between two positions of a match. *)
Fixpoint take (n : nat) (s : string) : string :=
  match n, s with
  | S n', String c s' => String c (take n' s')
  | _, _ => EmptyString
  end.

Definition consumed (s rest : string) : string :=
  take (String.length s - String.length rest) s.

Fixpoint set_nth (i : nat) (v : string) (l : list string) : list string :=
  match i, l with
  | O, _ :: t => v :: t
  | S i', h :: t => h :: set_nth i' v t
  | _, [] => []
  end.

Section Matcher.
Variable R : Type.

(** Greedy [cl+] followed by the continuation [k]: the longest run is
    tried first, then shorter ones. *)
Fixpoint plus_greedy (cl : cclass) (s : string)
         (k : string -> option R) : option R :=
  match s with
  | EmptyString => None
  | String c s' =>
      if in_class cl c then
        match plus_greedy cl s' k with
        | Some r => Some r
        | None => k s'
        end
      else None
  end.

(** Backtracking matcher with leftmost-first preference, the
    semantics of Go's [regexp] (non-POSIX).  [idx] is the number of
    the first group of [r]; [caps] holds the captured text, the empty
    string for a group that did not take part, as
    [FindStringSubmatch] returns it. *)
Fixpoint rmatch (r : regex) (idx : nat) (s : string) (caps : list string)
         (k : string -> list string -> option R) : option R :=
  match r with
  | Lit c =>
      match s with
      | String c' s' => if Ascii.eqb c c' then k s' caps else None
      | EmptyString => None
      end
  | Plus cl => plus_greedy cl s (fun s' => k s' caps)
  | Seq r1 r2 =>
      rmatch r1 idx s caps
             (fun s' caps' => rmatch r2 (idx + ngroups r1) s' caps' k)
  | Opt r1 =>
      match rmatch r1 idx s caps k with
      | Some x => Some x
      | None => k s caps
      end
  | Group _ r1 =>
      rmatch r1 (S idx) s caps
             (fun s' caps' => k s' (set_nth idx (consumed s s') caps'))
  end.
End Matcher.

(** A match anchored at the start of [s]: the submatch list, group 0
    first. *)
Definition match_here (r : regex) (s : string) : option (list string) :=
  rmatch r 1 s (repeat "" (S (ngroups r)))
         (fun s' caps => Some (set_nth 0 (consumed s s') caps)).

(** [FindStringSubmatch]: the leftmost match, [None] for Go's [nil]. *)
Fixpoint FindStringSubmatch (r : regex) (s : string) : option (list string) :=
  match match_here r s with
  | Some m => Some m
  | None =>
      match s with
      | EmptyString => None
      | String _ s' => FindStringSubmatch r s'
      end
  end.

Definition MatchString (r : regex) (s : string) : bool :=
  match FindStringSubmatch r s with Some _ => true | None => false end.

(** A match of the whole input, from its first to its last character:
    what the pattern would accept between [^] and [$]. *)
Definition match_whole (r : regex) (s : string) : option (list string) :=
  rmatch r 1 s (repeat "" (S (ngroups r)))
         (fun s' caps =>
            match s' with
            | EmptyString => Some (set_nth 0 s caps)
            | _ => None
            end).

End Regexp.

Import Regexp.

(** ** Constants and package variables *)

Definition Nanosecond : Z := 1.
Definition Microsecond : Z := 1000 * Nanosecond.
Definition Millisecond : Z := 1000 * Microsecond.
Definition Second : Z := 1000 * Millisecond.
Definition Minute : Z := 60 * Second.
Definition Hour : Z := 60 * Minute.

Definition Zero : string := "P0D".
Definition Day : Z := Hour * 24.
Definition Week : Z := Day * 7.
Definition Month : Z := Day * 30.
Definition Year : Z := Day * 365.

(** [P((?P<year>\d+)Y)?((?P<month>\d+)M)?((?P<day>\d+)D)?(T((?P<hour>\d+)H)?((?P<minute>\d+)M)?((?P<second>[\d\.]+)S)?)?] *)
Definition designator (name : string) (cl : cclass) (c : ascii) : regex :=
  Opt (Group "" (Seq (Group name (Plus cl)) (Lit c))).

Definition full : regex :=
  Seq (Lit "P")
   (Seq (designator "year" Digit "Y")
   (Seq (designator "month" Digit "M")
   (Seq (designator "day" Digit "D")
        (Opt (Group ""
           (Seq (Lit "T")
           (Seq (designator "hour" Digit "H")
           (Seq (designator "minute" Digit "M")
                (designator "second" DigitOrDot "S"))))))))).

(** [P((?P<week>\d+)W)] *)
Definition week : regex :=
  Seq (Lit "P") (Group "" (Seq (Group "week" (Plus Digit)) (Lit "W"))).

(** ** [float64] and the [math] package *)

Module F64.

Definition float64 : Type := spec_float.

Definition prec : Z := 53.
Definition emax : Z := 1024.

Definition add : float64 -> float64 -> float64 := SFadd prec emax.
Definition sub : float64 -> float64 -> float64 := SFsub prec emax.
Definition mul : float64 -> float64 -> float64 := SFmul prec emax.
Definition div : float64 -> float64 -> float64 := SFdiv prec emax.
Definition neg : float64 -> float64 := SFopp.
Definition ltb : float64 -> float64 -> bool := SFltb.
Definition eqb : float64 -> float64 -> bool := SFeqb.

(** The conversion [float64(n)] of an integer, rounded to nearest
    even. *)
Definition of_int (n : Z) : float64 := binary_normalize prec emax n 0 false.

(** The nearest [float64] to the ratio [n / d] of two non-negative
    integers, [d] positive. *)
Definition of_ratio (n d : Z) : float64 :=
  match n with
  | Z0 => S754_zero false
  | _ =>
      let '(q, e, l) := SFdiv_core_binary prec emax n 0 d 0 in
      binary_round_aux prec emax false q e l
  end.

Definition min_int64 : Z := - 2 ^ 63.
Definition max_int64 : Z := 2 ^ 63 - 1.

(** Two's complement wrap-around of [int64] arithmetic. *)
Definition wrap64 (z : Z) : Z := (z + 2 ^ 63) mod 2 ^ 64 - 2 ^ 63.

(** The integer part of a finite value, towards zero. *)
Definition int_part (s : bool) (m : positive) (e : Z) : Z :=
  let a := match e with
           | Zneg p => Z.shiftr (Zpos m) (Zpos p)
           | _ => Z.shiftl (Zpos m) e
           end in
  if s then - a else a.

(** The conversions [int64(x)], [int(x)] and [time.Duration(x)] of a
    [float64]: the fraction is discarded.  Where the value does not fit
    the Go specification leaves the result to the implementation; the
    model takes what the amd64 conversion instruction yields, the
    smallest [int64]. *)
Definition to_int64 (x : float64) : Z :=
  match x with
  | S754_zero _ => 0
  | S754_finite s m e =>
      let v := int_part s m e in
      if (min_int64 <=? v) && (v <=? max_int64) then v else min_int64
  | _ => min_int64
  end.

(** The exact value of a finite [float64]; 0 for the others. *)
Definition to_Q (x : float64) : Q :=
  match x with
  | S754_finite s m e =>
      let a := match e with
               | Zneg p => Qmake (Zpos m) (Pos.shiftl 1 (Npos p))
               | _ => inject_Z (Z.shiftl (Zpos m) e)
               end in
      if s then Qopp a else a
  | _ => 0%Q
  end.

Definition sign_bit (x : float64) : bool :=
  match x with
  | S754_zero s | S754_infinity s | S754_finite s _ _ => s
  | S754_nan => false
  end.

(** [x >= 0] as Go evaluates it: false on NaN, true on both zeros. *)
Definition nonneg (x : float64) : bool :=
  match x with
  | S754_nan => false
  | S754_zero _ => true
  | S754_infinity s | S754_finite s _ _ => negb s
  end.

(** [x != 0] as Go evaluates it, which is also the truth of a
    [float64] in a template's [if]: both zeros are false, NaN is
    true. *)
Definition nonzero (x : float64) : bool :=
  match x with
  | S754_zero _ => false
  | _ => true
  end.

End F64.

Import F64.

Module Math.

(** [math.Trunc] *)
Definition Trunc (x : float64) : float64 :=
  match x with
  | S754_finite s m e => binary_normalize prec emax (int_part s m e) 0 s
  | _ => x
  end.

(** [math.Modf]: integer and fractional part, both with the sign of
    [x]. *)
Definition Modf (x : float64) : float64 * float64 :=
  (Trunc x, sub x (Trunc x)).

(** [math.Floor], as the package computes it from [Modf]. *)
Definition Floor (x : float64) : float64 :=
  match x with
  | S754_finite true _ _ =>
      let '(d, fract) := Modf (neg x) in
      let d := if nonzero fract then add d (of_int 1) else d in
      neg d
  | S754_finite false _ _ => fst (Modf x)
  | _ => x
  end.

(** [math.Mod]: the remainder of [x / y], exact, with the sign of
    [x]. *)
Definition Mod (x y : float64) : float64 :=
  match y with
  | S754_nan | S754_zero _ => S754_nan
  | S754_infinity _ =>
      match x with
      | S754_nan | S754_infinity _ => S754_nan
      | _ => x
      end
  | S754_finite _ my ey =>
      match x with
      | S754_nan | S754_infinity _ => S754_nan
      | S754_zero _ => x
      | S754_finite sx mx ex =>
          let e := Z.min ex ey in
          let r := Z.rem (Zpos mx * 2 ^ (ex - e)) (Zpos my * 2 ^ (ey - e)) in
          binary_normalize prec emax (if sx then - r else r) e sx
      end
  end.

End Math.

(** ** [strconv.ParseFloat] and the printing of a [float64] *)

Module Strconv.

Inductive NumError : Type :=
| ErrSyntax
| ErrRange.

Definition digit_val (c : ascii) : Z := Z.of_nat (nat_of_ascii c) - 48.

(** Reads decimal digits with at most one point: the digits read so far
    as an integer, the number of them after the point, and whether a
    point and a digit were seen.  [None] on any other character and on
    a second point. *)
Fixpoint read_decimal (s : string) (mant frac : Z) (sawdot sawdigits : bool)
  : option (Z * Z) :=
  match s with
  | EmptyString => if sawdigits then Some (mant, frac) else None
  | String c s' =>
      if is_digit c then
        read_decimal s' (10 * mant + digit_val c)
                     (if sawdot then frac + 1 else frac) sawdot true
      else if Ascii.eqb c "." then
        if sawdot then None else read_decimal s' mant frac true sawdigits
      else None
  end.

(** [strconv.ParseFloat(s, 64)] on the texts the two patterns capture,
    digits and points: the nearest [float64] to the decimal number, a
    syntax error when [s] is no decimal number, a range error when the
    nearest value is infinite. *)
Definition ParseFloat (s : string) : float64 + NumError :=
  match read_decimal s 0 0 false false with
  | None => inr ErrSyntax
  | Some (mant, frac) =>
      match of_ratio mant (10 ^ frac) with
      | S754_infinity _ => inr ErrRange
      | v => inl v
      end
  end.

(** *** Shortest decimal digits of a positive finite value *)

(** The interval of the reals that round to [m * 2^e]: its two ends are
    the midpoints to the neighbouring values; they belong to it when
    [m] is even. *)
Definition pow2Q (e : Z) : Q :=
  match e with
  | Zneg p => Qmake 1 (Pos.shiftl 1 (Npos p))
  | _ => inject_Z (Z.shiftl 1 e)
  end.

Definition emin : Z := 3 - emax - prec.

Definition lower_mid (m : positive) (e : Z) : Q :=
  if (Zpos m =? 2 ^ (prec - 1)) && (emin <? e)
  then (inject_Z (4 * Zpos m - 1) * pow2Q (e - 2))%Q
  else (inject_Z (2 * Zpos m - 1) * pow2Q (e - 1))%Q.

Definition upper_mid (m : positive) (e : Z) : Q :=
  (inject_Z (2 * Zpos m + 1) * pow2Q (e - 1))%Q.

Definition pow10Q (k : Z) : Q :=
  match k with
  | Zneg p => Qmake 1 (Z.to_pos (10 ^ Zpos p))
  | _ => inject_Z (10 ^ k)
  end.

(** The decimal exponent of [v > 0]: the [k] with
    [10^(k-1) <= v < 10^k], searched upwards or downwards from [k]. *)
Fixpoint dec_exp_up (fuel : nat) (v : Q) (k : Z) : Z :=
  match fuel with
  | O => k
  | S f => if Qle_bool (pow10Q k) v then dec_exp_up f v (k + 1) else k
  end.

Fixpoint dec_exp_down (fuel : nat) (v : Q) (k : Z) : Z :=
  match fuel with
  | O => k
  | S f => if Qle_bool (pow10Q (k - 1)) v then k else dec_exp_down f v (k - 1)
  end.

Definition dec_exp (v : Q) : Z :=
  if Qle_bool 1 v then dec_exp_up 400 v 1 else dec_exp_down 400 v 0.

Definition Qlt_bool (a b : Q) : bool := negb (Qle_bool b a).

Definition within (incl : bool) (lo hi x : Q) : bool :=
  if incl then Qle_bool lo x && Qle_bool x hi
  else Qlt_bool lo x && Qlt_bool x hi.

(** With [n] digits: the decimal below [v] and the one above, each kept
    when it rounds back to the value; of two that do, the nearer one,
    the even one on a tie. *)
Definition candidate (incl : bool) (lo hi v : Q) (k : Z) (n : Z) : option Z :=
  let scale := pow10Q (k - n) in
  let t := (v / scale)%Q in
  let down := Qfloor t in
  let up := down + 1 in
  let okdown := within incl lo hi (inject_Z down * scale)%Q in
  let okup := within incl lo hi (inject_Z up * scale)%Q in
  match okdown, okup with
  | true, true =>
      match Qcompare (t - inject_Z down)%Q (inject_Z up - t)%Q with
      | Lt => Some down
      | Gt => Some up
      | Eq => Some (if Z.even down then down else up)
      end
  | true, false => Some down
  | false, true => Some up
  | false, false => None
  end.

Fixpoint shortest_from (fuel : nat) (incl : bool) (lo hi v : Q) (k : Z) (n : Z)
  : Z * Z :=
  match candidate incl lo hi v k n with
  | Some c => (c, k - n)
  | None =>
      match fuel with
      | O => (Qfloor (v / pow10Q (k - n))%Q, k - n)
      | S f => shortest_from f incl lo hi v k (n + 1)
      end
  end.

Definition string_of_nat_Z (z : Z) : string :=
  NilZero.string_of_uint (N.to_uint (Z.to_N z)).

Fixpoint zeros (n : nat) : string :=
  match n with
  | O => EmptyString
  | S n' => String "0" (zeros n')
  end.

Fixpoint strip_zeros_rev (s : list ascii) : list ascii :=
  match s with
  | c :: t => if Ascii.eqb c "0" then strip_zeros_rev t else s
  | [] => []
  end.

Definition strip_trailing_zeros (s : string) : string :=
  string_of_list_ascii
    (rev (strip_zeros_rev (rev (list_ascii_of_string s)))).

(** The digits of the shortest decimal that rounds to [m * 2^e], and
    the position [dp] of the decimal point: the value is
    [0.digits * 10^dp]. *)
Definition shortest (m : positive) (e : Z) : string * Z :=
  let v := to_Q (S754_finite false m e) in
  let k := dec_exp v in
  let '(c, x) :=
    shortest_from 20 (Z.even (Zpos m)) (lower_mid m e) (upper_mid m e) v k 1 in
  let all := string_of_nat_Z c in
  (strip_trailing_zeros all, x + Z.of_nat (String.length all)).

(** [%e]: [d.ddde+XX], the exponent with two digits at least. *)
Definition fmtE (digs : string) (dp : Z) : string :=
  let ex := dp - 1 in
  let mant := match digs with
              | String c EmptyString => String c EmptyString
              | String c rest => String c (String "." rest)
              | EmptyString => "0"
              end in
  let a := string_of_nat_Z (Z.abs ex) in
  mant ++ "e" ++ (if ex <? 0 then "-" else "+")
       ++ (if Z.abs ex <? 10 then "0" else "") ++ a.

(** [%f] with as many decimals as the digits need. *)
Definition fmtF (digs : string) (dp : Z) : string :=
  let nd := Z.of_nat (String.length digs) in
  if dp <=? 0 then "0." ++ zeros (Z.to_nat (- dp)) ++ digs
  else if nd <=? dp then digs ++ zeros (Z.to_nat (dp - nd))
  else substring 0 (Z.to_nat dp) digs ++ "."
       ++ substring (Z.to_nat dp) (Z.to_nat (nd - dp)) digs.

(** How [fmt] prints a [float64] under [%v], which is what a template
    action does with it: [strconv]'s format ['g'] with the shortest
    digits, the exponent form below [1e-4] and from [1e6] on. *)
Definition FormatFloat (x : float64) : string :=
  match x with
  | S754_nan => "NaN"
  | S754_infinity s => if s then "-Inf" else "+Inf"
  | S754_zero s => if s then "-0" else "0"
  | S754_finite s m e =>
      let '(digs, dp) := shortest m e in
      let ex := dp - 1 in
      (if s then "-" else "")
        ++ (if (ex <? -4) || (6 <=? ex) then fmtE digs dp else fmtF digs dp)
  end.

End Strconv.

Import Math Strconv.

(** ** The [Duration] type and its accessors *)

(** [type Duration struct { time.Duration }]: an [int64] count of
    nanoseconds. *)
Record Duration : Type := mkDuration { nsec : Z }.

(** The values an [int64] holds. *)
Definition int64_range (z : Z) : Prop := min_int64 <= z <= max_int64.

(** [time.Duration.Minutes] *)
Definition time_Minutes (d : Z) : float64 :=
  let min := Z.quot d Minute in
  let ns := Z.rem d Minute in
  add (of_int min) (div (of_int ns) (of_int (60 * 1000000000))).

Definition Years (d : Duration) : float64 :=
  let x := of_int (Z.quot (nsec d) Year) in
  Floor x.

Definition Days (d : Duration) : float64 :=
  let x := of_int (Z.quot (nsec d) Day) in
  let y := of_int (Z.quot Year Day) in
  Mod x y.

Definition Weeks (d : Duration) : float64 :=
  let x := Days d in
  let y := of_int (Z.quot Week Day) in
  if ltb (S754_zero false) (Mod x y) then S754_zero false
  else div x y.

Definition Hours (d : Duration) : float64 :=
  let x := of_int (Z.quot (nsec d) Hour) in
  let y := of_int (Z.quot Day Hour) in
  Mod x y.

Definition Minutes (d : Duration) : float64 :=
  let x := of_int (Z.quot (nsec d) Minute) in
  let y := of_int (Z.quot Hour Minute) in
  Mod x y.

Definition Seconds (d : Duration) : float64 :=
  div (sub (of_int (nsec d))
           (mul (Trunc (time_Minutes (nsec d))) (of_int Minute)))
      (of_int Second).

Definition IsZero (d : Duration) : bool := nsec d =? 0.

Definition IsWeeksOnly (d : Duration) : bool :=
  wrap64 (to_int64 (Weeks d) * Week) =? nsec d.

Definition HasTimePart (d : Duration) : bool :=
  nonzero (Hours d) || nonzero (Minutes d) || nonzero (Seconds d).

Definition ToDuration (d : Duration) : Z := nsec d.

(** ** [ParseString] *)

Inductive JsonError : Type :=
| JsonSyntax
| JsonType
| JsonEOF.

Inductive Error : Type :=
| ErrBadFormat
| ErrParseFloat (e : NumError) (part : string)
| ErrUnknownField (name : string)
| ErrDecode (e : JsonError).

(** [d += time.Duration(x) * unit] on [int64]. *)
Definition add_units (d x unit : Z) : Z := wrap64 (d + wrap64 (x * unit)).

Definition thousand : float64 := of_int 1000.

(** The body of the [switch name] for a parsed value. *)
Definition accumulate (name : string) (val : float64) (d : Z) : Z + Error :=
  if String.eqb name "year" then inl (add_units d (to_int64 val) Year)
  else if String.eqb name "month" then inl (add_units d (to_int64 val) Month)
  else if String.eqb name "week" then inl (add_units d (to_int64 val) Week)
  else if String.eqb name "day" then inl (add_units d (to_int64 val) Day)
  else if String.eqb name "hour" then inl (add_units d (to_int64 val) Hour)
  else if String.eqb name "minute" then inl (add_units d (to_int64 val) Minute)
  else if String.eqb name "second" then
    let d := add_units d (to_int64 val) Second in
    let val := mul (sub val (Trunc val)) thousand in
    let d := add_units d (to_int64 val) Millisecond in
    let val := mul (sub val (Trunc val)) thousand in
    let d := add_units d (to_int64 val) Microsecond in
    let val := mul (sub val (Trunc val)) thousand in
    let d := add_units d (to_int64 val) Nanosecond in
    inl d
  else inr (ErrUnknownField name).

(** The loop [for i, name := range re.SubexpNames()] from index [i] on,
    [names] and [parts] being what is left of the names and of the
    submatches. *)
Fixpoint parse_loop (i : nat) (names parts : list string) (d : Z) : Z + Error :=
  match names, parts with
  | name :: names', part :: parts' =>
      if Nat.eqb i 0 || String.eqb name "" || String.eqb part ""
      then parse_loop (S i) names' parts' d
      else
        match ParseFloat part with
        | inr e => inr (ErrParseFloat e part)
        | inl val =>
            match accumulate name val d with
            | inr e => inr e
            | inl d' => parse_loop (S i) names' parts' d'
            end
        end
  | _, _ => inl d
  end.

Definition ParseString (dur : string) : Duration + Error :=
  let chosen :=
    if MatchString week dur then
      Some (FindStringSubmatch week dur, week)
    else if MatchString full dur then
      Some (FindStringSubmatch full dur, full)
    else None in
  match chosen with
  | None => inr ErrBadFormat
  | Some (m, re) =>
      match parse_loop 0 (SubexpNames re) (match m with Some l => l | None => [] end) 0 with
      | inl d => inl (mkDuration d)
      | inr e => inr e
      end
  end.

(** ** [String]: the template, action by action *)

Definition DurationString (d : Duration) : string :=
  "P" ++
  (if IsZero d then "0D"
   else if nonzero (Weeks d) && IsWeeksOnly d then
     FormatFloat (Weeks d) ++ "W"
   else
     (if nonzero (Years d) then FormatFloat (Years d) ++ "Y" else "")
     ++ (if nonzero (Days d) then FormatFloat (Days d) ++ "D" else "")
     ++ (if HasTimePart d then
           "T"
           ++ (if nonzero (Hours d) then FormatFloat (Hours d) ++ "H" else "")
           ++ (if nonzero (Minutes d) then FormatFloat (Minutes d) ++ "M" else "")
           ++ (if nonzero (Seconds d) then FormatFloat (Seconds d) ++ "S" else "")
         else "")).

(** ** [encoding/json] on a single string value *)

Module Json.

Definition quote : ascii := ascii_of_nat 34.
Definition backslash : ascii := ascii_of_nat 92.
Definition newline : ascii := ascii_of_nat 10.

Definition hex_digit (n : nat) : ascii :=
  ascii_of_nat (if (n <? 10)%nat then 48 + n else 87 + n).

(** What the encoder writes for one character below [0x80], with the
    escaping of [<], [>] and [&] that an [Encoder] applies. *)
Definition escape (c : ascii) : string :=
  let n := nat_of_ascii c in
  if Ascii.eqb c quote then String backslash (String quote "")
  else if Ascii.eqb c backslash then String backslash (String backslash "")
  else if (n =? 10)%nat then String backslash "n"
  else if (n =? 13)%nat then String backslash "r"
  else if (n =? 9)%nat then String backslash "t"
  else if (n <? 32)%nat || (n =? 60)%nat || (n =? 62)%nat || (n =? 38)%nat then
    String backslash
      ("u00" ++ String (hex_digit (n / 16)) (String (hex_digit (n mod 16)) ""))
  else String c "".

Fixpoint escape_all (s : string) : string :=
  match s with
  | EmptyString => EmptyString
  | String c s' => escape c ++ escape_all s'
  end.

(** [Encoder.Encode] of a string: the quoted text and a newline.  Bytes
    from [0x80] on are taken to be well-formed UTF-8 and copied. *)
Definition Encode (s : string) : string :=
  String quote (escape_all s) ++ String quote (String newline "").

Definition is_space (c : ascii) : bool :=
  let n := nat_of_ascii c in
  (n =? 32)%nat || (n =? 9)%nat || (n =? 10)%nat || (n =? 13)%nat.

Fixpoint skip_space (s : string) : string :=
  match s with
  | String c s' => if is_space c then skip_space s' else s
  | EmptyString => s
  end.

Definition hex_val (c : ascii) : option nat :=
  let n := nat_of_ascii c in
  if (48 <=? n)%nat && (n <=? 57)%nat then Some (n - 48)%nat
  else if (97 <=? n)%nat && (n <=? 102)%nat then Some (n - 87)%nat
  else if (65 <=? n)%nat && (n <=? 70)%nat then Some (n - 55)%nat
  else None.

(** The UTF-8 bytes of the code point [256 * hi + lo] of the basic
    plane, U+FFFD for a surrogate. *)
Definition utf8 (hi lo : nat) : string :=
  if (216 <=? hi)%nat && (hi <=? 223)%nat then
    String (ascii_of_nat 239)
      (String (ascii_of_nat 191) (String (ascii_of_nat 189) ""))
  else if (hi =? 0)%nat && (lo <? 128)%nat then String (ascii_of_nat lo) ""
  else if (hi <? 8)%nat then
    String (ascii_of_nat (192 + hi * 4 + lo / 64))
      (String (ascii_of_nat (128 + lo mod 64)) "")
  else
    String (ascii_of_nat (224 + hi / 16))
      (String (ascii_of_nat (128 + (hi mod 16) * 4 + lo / 64))
         (String (ascii_of_nat (128 + lo mod 64)) "")).

(** The text of a string literal after its opening quote, up to the
    closing one; [None] on a control character, an unknown escape and
    a missing closing quote.  A [\u] escape of a surrogate becomes
    U+FFFD; pairs of them are not combined here. *)
Fixpoint read_literal (s : string) : option string :=
  match s with
  | EmptyString => None
  | String c s' =>
      if Ascii.eqb c quote then Some EmptyString
      else if Ascii.eqb c backslash then
        match s' with
        | String e s'' =>
            let simple (x : ascii) :=
              option_map (String x) (read_literal s'') in
            if Ascii.eqb e quote then simple quote
            else if Ascii.eqb e backslash then simple backslash
            else if Ascii.eqb e "/" then simple "/"%char
            else if Ascii.eqb e "b" then simple (ascii_of_nat 8)
            else if Ascii.eqb e "f" then simple (ascii_of_nat 12)
            else if Ascii.eqb e "n" then simple (ascii_of_nat 10)
            else if Ascii.eqb e "r" then simple (ascii_of_nat 13)
            else if Ascii.eqb e "t" then simple (ascii_of_nat 9)
            else if Ascii.eqb e "u" then
              match s'' with
              | String h1 (String h2 (String h3 (String h4 t))) =>
                  match hex_val h1, hex_val h2, hex_val h3, hex_val h4 with
                  | Some a, Some b, Some c, Some d =>
                      option_map (append (utf8 (a * 16 + b) (c * 16 + d)))
                                 (read_literal t)
                  | _, _, _, _ => None
                  end
              | _ => None
              end
            else None
        | EmptyString => None
        end
      else if (nat_of_ascii c <? 32)%nat then None
      else option_map (String c) (read_literal s')
  end.

(** [Decoder.Decode(&s)] for a [string] variable [s], on the first
    value of the input: the text of a string literal; the empty text,
    which [s] starts with, for [null]; an error for every other value
    and for input that is no JSON.  Which error it is is not modelled. *)
Definition Decode (data : string) : string + JsonError :=
  match skip_space data with
  | EmptyString => inr JsonEOF
  | String c rest =>
      if Ascii.eqb c quote then
        match read_literal rest with
        | Some s => inl s
        | None => inr JsonSyntax
        end
      else if prefix "null" (String c rest) then inl EmptyString
      else inr JsonType
  end.

End Json.

(** ** The JSON methods *)

Section JSONMethods.

(** The decoder and the encoder of [encoding/json], as used on the one
    string value. *)
Variable Decode : string -> string + JsonError.
Variable Encode : string -> string.

(** [UnmarshalJSON]: the receiver after the call and the error
    returned, [None] for [nil]. *)
Definition UnmarshalJSON (d : Duration) (data : string)
  : Duration * option Error :=
  match Decode data with
  | inr err => (d, Some (ErrDecode err))
  | inl s =>
      match ParseString s with
      | inr err => (d, Some err)
      | inl t => (t, None)
      end
  end.

Definition MarshalJSON (d : Duration) : string :=
  let s := DurationString d in
  Encode s.

End JSONMethods.

(** ** The grammar as the specification words it

    These definitions follow the specification, not the source: its
    grammar is matched against the entire input, and an input counts only
    when a designator is captured.  They serve to compare [ParseString]
    with what the specification says of it. *)

Fixpoint has_char (c : ascii) (s : string) : bool :=
  match s with
  | EmptyString => false
  | String c' s' => Ascii.eqb c c' || has_char c s'
  end.

Fixpoint all_in (cl : cclass) (s : string) : bool :=
  match s with
  | EmptyString => true
  | String c s' => in_class cl c && all_in cl s'
  end.

Definition all_digits (s : string) : bool := all_in Digit s.

(** Some named group took part in the match. *)
Fixpoint named_capture (names parts : list string) : bool :=
  match names, parts with
  | n :: names', p :: parts' =>
      (negb (String.eqb n "") && negb (String.eqb p ""))
      || named_capture names' parts'
  | _, _ => false
  end.

(** The week form [P<n>W] or the full form, over the entire input, with
    one designator at least. *)
Definition in_grammar (s : string) : bool :=
  match match_whole week s with
  | Some m => named_capture (SubexpNames week) m
  | None =>
      match match_whole full s with
      | Some m => named_capture (SubexpNames full) m
      | None => false
      end
  end.

(** What [ParseString] yields on the week path for the captured count
    [n]. *)
Definition week_only (n : string) : Duration + Error :=
  match ParseFloat n with
  | inl v => inl (mkDuration (add_units 0 (to_int64 v) Week))
  | inr e => inr (ErrParseFloat e n)
  end.

(** The submatches of the week pattern around the count [n]. *)
Definition week_match (n : string) : list string :=
  ["P" ++ n ++ "W"; n ++ "W"; n].

(** [ParseString(s).String()] *)
Definition reformat (s : string) : string + Error :=
  match ParseString s with
  | inl d => inl (DurationString d)
  | inr e => inr e
  end.

(** Finite and not below zero. *)
Definition finite_nonneg (x : float64) : bool :=
  match x with
  | S754_zero _ => true
  | S754_finite s _ _ => negb s
  | _ => false
  end.

(** The 53-digit mantissa of an integer below [2^53]. *)
Definition exact_mant (p : positive) : positive :=
  fst (shl_align p 0 (Zpos (digits2_pos p) - prec)).

(** ** Definitions for the further properties *)

(** The designators the [switch] of [ParseString] has a case for. *)
Definition handled (name : string) : bool :=
  existsb (String.eqb name)
          ["year"; "month"; "week"; "day"; "hour"; "minute"; "second"].

(** The number a string of decimal digits denotes, [acc] being the value
    of the digits before it. *)
Fixpoint decimal_from (acc : Z) (s : string) : Z :=
  match s with
  | EmptyString => acc
  | String c s' => decimal_from (10 * acc + digit_val c) s'
  end.

Definition decimal (s : string) : Z := decimal_from 0 s.

(** A designator as it is written: nothing for an absent one, the digits
    and the letter otherwise. *)
Definition opt_desig (n : string) (c : ascii) : string :=
  match n with
  | EmptyString => EmptyString
  | _ => n ++ String c EmptyString
  end.

Definition time_part (h mi s : string) : string :=
  match opt_desig h "H" ++ opt_desig mi "M" ++ opt_desig s "S" with
  | EmptyString => EmptyString
  | t => String "T" t
  end.

(** The full form [P<y>Y<mo>M<d>DT<h>H<mi>M<s>S], each field being a
    string of digits, the empty one for a designator left out. *)
Definition full_form (y mo d h mi s : string) : string :=
  String "P" (opt_desig y "Y" ++ opt_desig mo "M" ++ opt_desig d "D"
                        ++ time_part h mi s).

(** The captures a designator leaves in the submatch list. *)
Definition desig_caps (idx : nat) (n : string) (c : ascii) (caps : list string)
  : list string :=
  match n with
  | EmptyString => caps
  | _ => set_nth idx (n ++ String c EmptyString) (set_nth (S idx) n caps)
  end.

(** The text starts with one character of the class or more, followed by
    [c]. *)
Fixpoint run_then (cl : cclass) (c : ascii) (seen : bool) (s : string) : bool :=
  match s with
  | EmptyString => false
  | String x s' =>
      if in_class cl x then run_then cl c true s'
      else seen && Ascii.eqb c x
  end.

Definition time_caps (h mi s : string) (caps : list string) : list string :=
  match time_part h mi s with
  | EmptyString => caps
  | t => set_nth 7 t (desig_caps 12 s "S"
                        (desig_caps 10 mi "M" (desig_caps 8 h "H" caps)))
  end.

(** The submatches of the full pattern on such a text. *)
Definition full_match (y mo d h mi s : string) : list string :=
  [full_form y mo d h mi s;
   opt_desig y "Y"; y; opt_desig mo "M"; mo; opt_desig d "D"; d;
   time_part h mi s;
   opt_desig h "H"; h; opt_desig mi "M"; mi; opt_desig s "S"; s].

Definition float_eqb (x y : float64) : bool :=
  match x, y with
  | S754_zero s, S754_zero s' => Bool.eqb s s'
  | S754_infinity s, S754_infinity s' => Bool.eqb s s'
  | S754_nan, S754_nan => true
  | S754_finite s m e, S754_finite s' m' e' =>
      Bool.eqb s s' && Pos.eqb m m' && Z.eqb e e'
  | _, _ => false
  end.

(** The weeks of a number of days below a year. *)
Definition weeks_of (r : Z) : Z := if r mod 7 =? 0 then r / 7 else 0.

(** An integer field as the formatter writes it: nothing for zero. *)
Definition fld (k : Z) : string :=
  if k =? 0 then EmptyString else string_of_nat_Z k.

(** What the formatter and the parser need of a small integer: it is
    printed in plain decimal digits, which denote it. *)
Definition small_ok (k : Z) : bool :=
  (k =? 0)
  || (String.eqb (FormatFloat (of_int k)) (string_of_nat_Z k)
      && all_digits (string_of_nat_Z k)
      && (decimal (string_of_nat_Z k) =? k)
      && negb (String.eqb (string_of_nat_Z k) "")
      && nonzero (of_int k)).

(** A positive fraction of at most [1 - 2^-g], as a [float64]. *)
Definition fraction_below (g : Z) (y : float64) : bool :=
  match y with
  | S754_finite false my ey =>
      (Zpos (digits2_pos my) =? prec) && (ey <=? - prec) && (- 100 <=? ey)
      && (Zpos my * 2 ^ g <=? (2 ^ g - 1) * 2 ^ (- ey))
  | _ => false
  end.

(** What [Seconds] needs of a number of seconds below a minute: as a
    fraction of a minute it is at most 63/64, and its nanoseconds
    divide back to it. *)
Definition second_ok (s : Z) : bool :=
  (s =? 0)
  || (fraction_below 6 (div (of_int (s * Second)) (of_int (60 * 1000000000)))
      && float_eqb (div (of_int (s * Second)) (of_int Second)) (of_int s)).

(** Zero, or below zero. *)
Definition minus_or_zero (x : float64) : bool :=
  match x with
  | S754_zero _ => true
  | S754_finite s _ _ | S754_infinity s => s
  | S754_nan => false
  end.

(** What an accessor gives on a negative magnitude whose quotient by the
    unit is [- a]: zero when [a] is zero, minus the part [k] otherwise. *)
Definition mirrored (a k : Z) : float64 :=
  if a =? 0 then S754_zero false else neg (of_int k).

(** A positive value below one. *)
Definition below_one (y : float64) : bool :=
  match y with
  | S754_finite false m e => (e <? 0) && (Zpos m <? 2 ^ (- e))
  | _ => false
  end.

(** Every character of [s] is one of [set]. *)
Fixpoint chars_in (set s : string) : bool :=
  match s with
  | EmptyString => true
  | String c s' => has_char c set && chars_in set s'
  end.

(** The characters of a printed [float64]. *)
Definition float_chars : string := "0123456789.-+eNaInf".

(** The characters of a formatted duration. *)
Definition duration_chars : string := "PWYDTHMS" ++ float_chars.

(** A text the patterns read nothing of after the letter P: it is
    empty or starts with a minus sign, possibly after the letter T. *)
Definition unread (body : string) : bool :=
  match body with
  | EmptyString => true
  | String c r =>
      Ascii.eqb c "-"
      || (Ascii.eqb c "T"
          && match r with
             | EmptyString => true
             | String c' _ => Ascii.eqb c' "-"
             end)
  end.

Definition starts_digit (s : string) : bool :=
  match s with
  | EmptyString => false
  | String c _ => is_digit c
  end.

(** A small integer is written with a first digit that is not 0. *)
Definition lead_ok (k : Z) : bool :=
  (k =? 0)
  || match FormatFloat (of_int k) with
     | String c _ => negb (Ascii.eqb c "0")
     | EmptyString => false
     end.

(** The text [P<y>Y<d>DT<h>H<mi>M<s>S] followed by [rest], each field
    being left out with its letter when it is empty; the letter T is
    always there. *)
Definition timed_form (y d h mi s rest : string) : string :=
  String "P" (opt_desig y "Y" ++ opt_desig d "D"
              ++ String "T" (opt_desig h "H" ++ opt_desig mi "M"
                             ++ opt_desig s "S" ++ rest)).

(** The submatches of the full pattern on it. *)
Definition timed_match (y d h mi s : string) : list string :=
  [String "P" (opt_desig y "Y" ++ opt_desig d "D"
               ++ String "T" (opt_desig h "H" ++ opt_desig mi "M"
                              ++ opt_desig s "S"));
   opt_desig y "Y"; y; ""; ""; opt_desig d "D"; d;
   String "T" (opt_desig h "H" ++ opt_desig mi "M" ++ opt_desig s "S");
   opt_desig h "H"; h; opt_desig mi "M"; mi; opt_desig s "S"; s].

(** A rest that starts no hours, minutes or seconds. *)
Definition stops (rest : string) : bool :=
  negb (run_then Digit "H" false rest)
  && negb (run_then Digit "M" false rest)
  && negb (run_then DigitOrDot "S" false rest).

(** * Properties *)

(** ** The model at work *)

Example full_submatches :
  FindStringSubmatch full "P1Y2M3DT4H5M6.5S"
  = Some ["P1Y2M3DT4H5M6.5S"; "1Y"; "1"; "2M"; "2"; "3D"; "3";
          "T4H5M6.5S"; "4H"; "4"; "5M"; "5"; "6.5S"; "6.5"].
Proof. reflexivity. Qed.

Example full_names :
  SubexpNames full
  = [""; ""; "year"; ""; "month"; ""; "day"; ""; ""; "hour"; ""; "minute";
     ""; "second"].
Proof. reflexivity. Qed.

Example month_or_minute :
  ParseString "P5M" = inl (mkDuration (5 * Month)) /\
  ParseString "PT5M" = inl (mkDuration (5 * Minute)).
Proof. split; vm_compute; reflexivity. Qed.

Example time_part_emission :
  reformat "P1DT2H3M4S" = inl "P1DT2H3M4S" /\
  reformat "P1DT3M" = inl "P1DT3M".
Proof. split; vm_compute; reflexivity. Qed.

Example ParseFloat_errors :
  ParseString "PT1.2.3S" = inr (ErrParseFloat ErrSyntax "1.2.3") /\
  ParseString "PT.S" = inr (ErrParseFloat ErrSyntax ".").
Proof. split; vm_compute; reflexivity. Qed.

Example int64_wrap_around :
  ParseString "P300Y" = inl (mkDuration (300 * Year - 2 ^ 64)).
Proof. vm_compute. reflexivity. Qed.

(** ** Facts about the matcher *)

Section MatcherFacts.
Variable R : Type.
Implicit Types (k : string -> list string -> option R).

Lemma plus_greedy_inv (cl : cclass) (s : string) (k : string -> option R) (r : R) :
  plus_greedy cl s k = Some r ->
  exists n rest, s = n ++ rest /\ n <> "" /\ all_in cl n = true /\
                 k rest = Some r.
Proof.
  revert r. induction s as [|c s IH]; intros r; simpl; [discriminate|].
  destruct (in_class cl c) eqn:Hc; [|discriminate].
  destruct (plus_greedy cl s k) as [x|] eqn:E.
  - intros H. injection H as ->.
    destruct (IH r eq_refl) as (n & rest & -> & Hn & Hall & Hk).
    exists (String c n), rest. simpl. rewrite Hc, Hall.
    repeat split; [discriminate|exact Hk].
  - intros H. exists (String c ""), s. simpl. rewrite Hc.
    repeat split; [discriminate|exact H].
Qed.

Lemma plus_greedy_run (cl : cclass) (n rest : string)
      (k : string -> option R) (r : R) :
  n <> "" -> all_in cl n = true ->
  plus_greedy cl rest k = None -> k rest = Some r ->
  plus_greedy cl (n ++ rest) k = Some r.
Proof.
  intros Hn Hall Hrest Hk. induction n as [|c n IH]; [contradiction|].
  simpl in Hall. apply andb_true_iff in Hall as [Hc Hall].
  cbn [append plus_greedy]. rewrite Hc.
  destruct n as [|c' n'].
  - cbn [append]. rewrite Hrest. exact Hk.
  - rewrite IH; [reflexivity|discriminate|exact Hall].
Qed.

Lemma rmatch_group_eq (name : string) (r : regex) idx s caps k :
  rmatch (Group name r) idx s caps k
  = rmatch r (S idx) s caps
           (fun s' caps' => k s' (set_nth idx (consumed s s') caps')).
Proof. reflexivity. Qed.

Lemma rmatch_plus_eq (cl : cclass) idx s caps k :
  rmatch (Plus cl) idx s caps k = plus_greedy cl s (fun s' => k s' caps).
Proof. reflexivity. Qed.

Lemma rmatch_opt_some (r : regex) idx s caps k :
  k s caps <> None -> rmatch (Opt r) idx s caps k <> None.
Proof.
  intros Hk. simpl. destruct (rmatch r idx s caps k); [discriminate|exact Hk].
Qed.

Lemma rmatch_lit_seq (c : ascii) (r : regex) idx s caps k x :
  rmatch (Seq (Lit c) r) idx s caps k = Some x ->
  exists s', s = String c s'.
Proof.
  simpl. destruct s as [|c' s']; [discriminate|].
  destruct (Ascii.eqb c c') eqn:E; [|discriminate].
  apply Ascii.eqb_eq in E. subst. eauto.
Qed.
Lemma rmatch_seq_eq (r1 r2 : regex) idx s caps k :
  rmatch (Seq r1 r2) idx s caps k
  = rmatch r1 idx s caps
           (fun s' caps' => rmatch r2 (idx + ngroups r1) s' caps' k).
Proof. reflexivity. Qed.

Lemma rmatch_lit_eq (c : ascii) idx s caps k :
  rmatch (Lit c) idx (String c s) caps k = k s caps.
Proof. simpl. now rewrite Ascii.eqb_refl. Qed.
End MatcherFacts.

Lemma match_here_full_P (s : string) : match_here full (String "P" s) <> None.
Proof.
  unfold match_here, full, designator.
  rewrite rmatch_seq_eq, rmatch_lit_eq.
  do 3 (rewrite rmatch_seq_eq; apply rmatch_opt_some; cbv beta).
  apply rmatch_opt_some. discriminate.
Qed.

Lemma match_here_starts_P (r : regex) (s : string) (m : list string) :
  match_here (Seq (Lit "P") r) s = Some m -> exists s', s = String "P" s'.
Proof. unfold match_here. apply rmatch_lit_seq. Qed.

Lemma MatchString_full (s : string) : MatchString full s = has_char "P" s.
Proof.
  unfold MatchString. induction s as [|c s IH].
  - reflexivity.
  - cbn [FindStringSubmatch has_char].
    destruct (match_here full (String c s)) as [m|] eqn:E.
    + apply match_here_starts_P in E as (s' & E). injection E as -> _.
      reflexivity.
    + destruct (Ascii.eqb "P" c) eqn:Ec.
      * apply Ascii.eqb_eq in Ec. subst c.
        exfalso. exact (@match_here_full_P s E).
      * exact IH.
Qed.

Lemma FindStringSubmatch_inv (r : regex) (s : string) (m : list string) :
  FindStringSubmatch r s = Some m ->
  exists pre s', s = pre ++ s' /\ match_here r s' = Some m.
Proof.
  induction s as [|c s IH]; cbn [FindStringSubmatch].
  - destruct (match_here r "") eqn:E; [|discriminate].
    intros H. injection H as ->. exists "", "". auto.
  - destruct (match_here r (String c s)) eqn:E.
    + intros H. injection H as ->. exists "", (String c s). auto.
    + intros H. destruct (IH H) as (pre & s' & -> & Hm).
      exists (String c pre), s'. auto.
Qed.

Lemma has_char_app (c : ascii) (a b : string) :
  has_char c (a ++ b) = has_char c a || has_char c b.
Proof.
  induction a as [|x a IH]; simpl; [reflexivity|].
  rewrite IH. apply orb_assoc.
Qed.

Lemma MatchString_week_P (s : string) :
  MatchString week s = true -> has_char "P" s = true.
Proof.
  unfold MatchString. destruct (FindStringSubmatch week s) as [m|] eqn:E; [|discriminate].
  intros _. apply FindStringSubmatch_inv in E as (pre & s' & -> & Hm).
  apply match_here_starts_P in Hm as (s'' & ->).
  rewrite has_char_app. simpl. apply orb_true_r.
Qed.

(** A prefix without the letter P is skipped by the search. *)
Lemma FindStringSubmatch_skip (r : regex) (pre s : string) :
  has_char "P" pre = false ->
  FindStringSubmatch (Seq (Lit "P") r) (pre ++ s)
  = FindStringSubmatch (Seq (Lit "P") r) s.
Proof.
  induction pre as [|c pre IH]; intros H; [reflexivity|].
  simpl in H. apply orb_false_iff in H as [Hc Hpre].
  change (String c pre ++ s) with (String c (pre ++ s)).
  cbn [FindStringSubmatch].
  destruct (match_here (Seq (Lit "P") r) (String c (pre ++ s))) eqn:E.
  - apply match_here_starts_P in E as (s' & E). injection E as -> _.
    discriminate.
  - auto.
Qed.

Lemma take_app (a b : string) : take (String.length a) (a ++ b) = a.
Proof. induction a as [|c a IH]; simpl; [now destruct b|now rewrite IH]. Qed.

Lemma length_app (a b : string) :
  String.length (a ++ b) = (String.length a + String.length b)%nat.
Proof. induction a as [|c a IH]; simpl; [reflexivity|now rewrite IH]. Qed.

Lemma append_assoc_str (a b c : string) : (a ++ b) ++ c = a ++ b ++ c.
Proof. induction a as [|x a IH]; simpl; [reflexivity|now rewrite IH]. Qed.

Lemma consumed_app (a b : string) : consumed (a ++ b) b = a.
Proof.
  unfold consumed. rewrite length_app.
  replace (String.length a + String.length b - String.length b)%nat
    with (String.length a) by lia.
  apply take_app.
Qed.

Lemma match_here_week_inv (s : string) (m : list string) :
  match_here week s = Some m ->
  exists n post, s = "P" ++ n ++ "W" ++ post /\ n <> "" /\
                 all_digits n = true /\ m = week_match n.
Proof.
  intros H. pose proof H as H0.
  apply match_here_starts_P in H0 as (s1 & ->).
  unfold match_here, week in H.
  rewrite rmatch_seq_eq, rmatch_lit_eq in H.
  rewrite rmatch_group_eq, rmatch_seq_eq, rmatch_group_eq, rmatch_plus_eq in H.
  apply plus_greedy_inv in H as (n & rest & -> & Hn & Hall & Hk).
  destruct rest as [|c post]; [discriminate|].
  cbn [rmatch] in Hk.
  destruct (Ascii.eqb "W" c) eqn:Ec; [|discriminate].
  apply Ascii.eqb_eq in Ec. subst c.
  exists n, post. repeat split; auto.
  injection Hk as <-. cbn [set_nth repeat ngroups Nat.add].
  change (String "W" post) with ("W" ++ post).
  unfold week_match.
  rewrite consumed_app.
  rewrite <- (append_assoc_str n "W" post), consumed_app.
  change (String "P" ((n ++ "W") ++ post)) with (("P" ++ n ++ "W") ++ post).
  rewrite consumed_app. reflexivity.
Qed.

Lemma match_here_week (n post : string) :
  n <> "" -> all_digits n = true ->
  match_here week ("P" ++ n ++ "W" ++ post) = Some (week_match n).
Proof.
  intros Hn Hall. unfold match_here, week.
  change ("P" ++ n ++ "W" ++ post) with (String "P" (n ++ "W" ++ post)).
  rewrite rmatch_seq_eq, rmatch_lit_eq.
  rewrite rmatch_group_eq, rmatch_seq_eq, rmatch_group_eq, rmatch_plus_eq.
  apply plus_greedy_run; auto.
  cbn [rmatch append Ascii.eqb Bool.eqb set_nth repeat ngroups Nat.add].
  unfold week_match.
  change (String "W" post) with ("W" ++ post).
  rewrite consumed_app.
  rewrite <- (append_assoc_str n "W" post), consumed_app.
  change (String "P" ((n ++ "W") ++ post)) with (("P" ++ n ++ "W") ++ post).
  rewrite consumed_app. reflexivity.
Qed.

Lemma FindStringSubmatch_app (r : regex) (pre s : string) :
  match_here r s <> None -> FindStringSubmatch r (pre ++ s) <> None.
Proof.
  intros H. induction pre as [|c pre IH].
  - destruct s; cbn [append FindStringSubmatch];
      destruct (match_here r _); congruence.
  - change (String c pre ++ s) with (String c (pre ++ s)).
    cbn [FindStringSubmatch].
    destruct (match_here r (String c (pre ++ s))); [discriminate|exact IH].
Qed.

Lemma parse_loop_week (n : string) :
  n <> "" ->
  match parse_loop 0 (SubexpNames week) (week_match n) 0 with
  | inl d => inl (mkDuration d)
  | inr e => inr e
  end = week_only n.
Proof.
  intros Hn. apply String.eqb_neq in Hn.
  unfold week_only, week_match. cbn [SubexpNames group_names week app parse_loop].
  cbn [Nat.eqb orb String.eqb]. rewrite Hn.
  destruct (ParseFloat n) as [v|e]; reflexivity.
Qed.

Lemma ParseString_week_path (s : string) (m : list string) :
  FindStringSubmatch week s = Some m ->
  ParseString s = match parse_loop 0 (SubexpNames week) m 0 with
                  | inl d => inl (mkDuration d)
                  | inr e => inr e
                  end.
Proof. intros H. unfold ParseString, MatchString. now rewrite H. Qed.

Lemma accumulate_not_bad_format (name : string) (v : float64) (d : Z) :
  accumulate name v d <> inr ErrBadFormat.
Proof.
  unfold accumulate.
  repeat (match goal with |- context [if ?b then _ else _] => destruct b end;
          try discriminate).
Qed.

Lemma parse_loop_not_bad_format (names parts : list string) (i : nat) (d : Z) :
  parse_loop i names parts d <> inr ErrBadFormat.
Proof.
  revert parts i d. induction names as [|name names IH]; intros parts i d.
  - discriminate.
  - destruct parts as [|part parts]; [discriminate|].
    cbn [parse_loop].
    destruct (Nat.eqb i 0 || String.eqb name "" || String.eqb part ""); [apply IH|].
    destruct (ParseFloat part) as [v|e]; [|discriminate].
    destruct (accumulate name v d) as [d'|e] eqn:E; [apply IH|].
    intros H. injection H as ->. exact (accumulate_not_bad_format _ _ _ E).
Qed.

Lemma ParseString_bad_format_iff (s : string) :
  ParseString s = inr ErrBadFormat <->
  MatchString week s = false /\ MatchString full s = false.
Proof.
  unfold ParseString. split.
  - destruct (MatchString week s).
    + destruct (parse_loop _ _ _ _) as [d|e] eqn:E; [discriminate|].
      intros H. injection H as ->. now apply parse_loop_not_bad_format in E.
    + destruct (MatchString full s); [|auto].
      destruct (parse_loop _ _ _ _) as [d|e] eqn:E; [discriminate|].
      intros H. injection H as ->. now apply parse_loop_not_bad_format in E.
  - intros [-> ->]. reflexivity.
Qed.

(** ** Signs of the [float64] operations *)

Lemma shr_1_nonneg (mrs : shr_record) : 0 <= shr_m mrs -> 0 <= shr_m (shr_1 mrs).
Proof.
  destruct mrs as [m r s]. simpl.
  destruct m as [|p|p]; [simpl; lia| |lia].
  destruct p; simpl; lia.
Qed.

Lemma iter_shr_1_nonneg (p : positive) (mrs : shr_record) :
  0 <= shr_m mrs -> 0 <= shr_m (SpecFloat.iter_pos shr_1 p mrs).
Proof.
  revert mrs. induction p as [p IH|p IH|]; intros mrs H; simpl.
  - apply IH, IH, shr_1_nonneg, H.
  - apply IH, IH, H.
  - apply shr_1_nonneg, H.
Qed.

Lemma shr_fexp_nonneg (m e : Z) (l : location) :
  0 <= m -> 0 <= shr_m (fst (shr_fexp prec emax m e l)).
Proof.
  intros H. unfold shr_fexp, shr.
  assert (H0 : 0 <= shr_m (shr_record_of_loc m l)).
  { destruct l as [|[]]; exact H. }
  destruct (fexp prec emax (Zdigits2 m + e) - e); simpl; auto.
  now apply iter_shr_1_nonneg.
Qed.

Lemma round_nearest_even_nonneg (m : Z) (l : location) :
  0 <= m -> 0 <= round_nearest_even m l.
Proof.
  intros H. destruct l as [|[]]; simpl; try lia.
  destruct (Z.even m); lia.
Qed.

(** Rounding a non-negative mantissa gives the sign asked for, never a
    NaN. *)
Lemma binary_round_aux_sign (sx : bool) (mx ex : Z) (lx : location) :
  0 <= mx ->
  nonneg (binary_round_aux prec emax sx mx ex lx) = negb sx
  \/ exists s, binary_round_aux prec emax sx mx ex lx = S754_zero s.
Proof.
  intros H. unfold binary_round_aux.
  pose proof (shr_fexp_nonneg ex lx H) as H1.
  destruct (shr_fexp prec emax mx ex lx) as [mrs' e'].
  cbn [fst] in H1.
  pose proof (shr_fexp_nonneg e' loc_Exact
                (round_nearest_even_nonneg (loc_of_shr_record mrs') H1)) as H2.
  destruct (shr_fexp prec emax _ e' loc_Exact) as [mrs'' e''].
  cbn [fst] in H2.
  destruct (shr_m mrs'') as [|p|p]; [right; eauto| |lia].
  left. destruct (e'' <=? emax - prec); reflexivity.
Qed.

Lemma binary_round_aux_nonneg (mx ex : Z) (lx : location) :
  0 <= mx -> nonneg (binary_round_aux prec emax false mx ex lx) = true.
Proof.
  intros H. destruct (binary_round_aux_sign false ex lx H) as [E|[s E]].
  - exact E.
  - rewrite E. reflexivity.
Qed.

Lemma binary_normalize_nonneg (m e : Z) :
  0 <= m -> nonneg (binary_normalize prec emax m e false) = true.
Proof.
  intros H. destruct m as [|p|p]; [reflexivity| |lia].
  unfold binary_normalize, binary_round.
  destruct (shl_align _ _ _) as [mz ez].
  apply binary_round_aux_nonneg. lia.
Qed.

Lemma of_int_nonneg (z : Z) : 0 <= z -> nonneg (of_int z) = true.
Proof. apply binary_normalize_nonneg. Qed.

Lemma int_part_nonneg (m : positive) (e : Z) : 0 <= int_part false m e.
Proof.
  unfold int_part. destruct e as [|p|p].
  - simpl. lia.
  - apply Z.shiftl_nonneg. lia.
  - apply Z.shiftr_nonneg. lia.
Qed.

Lemma Floor_nonneg (x : float64) : nonneg x = true -> nonneg (Floor x) = true.
Proof.
  destruct x as [s|s| |s m e]; simpl; auto.
  destruct s; [discriminate|]. intros _.
  apply binary_normalize_nonneg, int_part_nonneg.
Qed.

Lemma Mod_nonneg (x : float64) (sy : bool) (my : positive) (ey : Z) :
  finite_nonneg x = true -> nonneg (Mod x (S754_finite sy my ey)) = true.
Proof.
  destruct x as [s|s| |s m e]; cbn [finite_nonneg Mod nonneg];
    auto; try discriminate.
  destruct s; [discriminate|]. intros _.
  apply binary_normalize_nonneg.
  assert (Ha : 0 <= Z.pos m * 2 ^ (e - Z.min e ey)).
  { apply Z.mul_nonneg_nonneg; [lia|apply Z.pow_nonneg; lia]. }
  assert (Hb : 0 < Z.pos my * 2 ^ (ey - Z.min e ey)).
  { apply Z.mul_pos_pos; [lia|apply Z.pow_pos_nonneg; lia]. }
  apply Z.rem_nonneg; lia.
Qed.

Lemma div_nonneg (x : float64) (my : positive) (ey : Z) :
  nonneg x = true -> nonneg (div x (S754_finite false my ey)) = true.
Proof.
  destruct x as [s|s| |s m e]; simpl; auto.
  - destruct s; auto.
  - destruct s; [discriminate|]. intros _.
    unfold div, SFdiv, SFdiv_core_binary.
    set (m' := match _ - _ - _ with Z0 => _ | Zpos _ => _ | Zneg _ => _ end).
    assert (Hm : 0 <= m').
    { subst m'. destruct (_ - _ - _); try lia. apply Z.shiftl_nonneg. lia. }
    pose proof (Z.div_pos m' (Zpos my) Hm eq_refl) as Hq.
    unfold Z.div in Hq.
    destruct (Z.div_eucl m' (Z.pos my)) as [q r]. cbn [fst] in Hq.
    cbn [xorb]. apply binary_round_aux_nonneg. exact Hq.
Qed.

(** ** Integers below [2^53] convert exactly *)

Lemma digits2_pos_bounds (p : positive) :
  2 ^ (Zpos (digits2_pos p) - 1) <= Zpos p < 2 ^ Zpos (digits2_pos p).
Proof.
  induction p as [p IH|p IH|]; cbn [digits2_pos].
  - rewrite Pos2Z.inj_succ.
    replace (Z.succ (Zpos (digits2_pos p)) - 1) with (Zpos (digits2_pos p)) by lia.
    rewrite Z.pow_succ_r by lia.
    replace (Zpos (digits2_pos p)) with (Z.succ (Zpos (digits2_pos p) - 1)) at 1 by lia.
    rewrite Z.pow_succ_r by lia. lia.
  - rewrite Pos2Z.inj_succ.
    replace (Z.succ (Zpos (digits2_pos p)) - 1) with (Zpos (digits2_pos p)) by lia.
    rewrite Z.pow_succ_r by lia.
    replace (Zpos (digits2_pos p)) with (Z.succ (Zpos (digits2_pos p) - 1)) at 1 by lia.
    rewrite Z.pow_succ_r by lia. lia.
  - simpl. lia.
Qed.

Lemma digits2_pos_le (p : positive) (k : Z) :
  0 <= k -> Zpos p < 2 ^ k -> Zpos (digits2_pos p) <= k.
Proof.
  intros Hk Hp. destruct (digits2_pos_bounds p) as [Hlo _].
  destruct (Z_le_gt_dec (Zpos (digits2_pos p)) k) as [|Hgt]; [assumption|].
  exfalso.
  assert (2 ^ k <= 2 ^ (Zpos (digits2_pos p) - 1)) by (apply Z.pow_le_mono_r; lia).
  lia.
Qed.

Lemma digits2_iter_xO (d p : positive) :
  digits2_pos (Pos.iter xO p d) = (digits2_pos p + d)%positive.
Proof.
  revert p. induction d as [|d IH] using Pos.peano_ind; intros p.
  - simpl. lia.
  - rewrite Pos.iter_succ. cbn [digits2_pos]. rewrite IH. lia.
Qed.

(** A mantissa of exactly 53 digits with an exponent in range is left as
    it is by the rounding. *)
Lemma binary_round_aux_canonical (s : bool) (m : positive) (e : Z) :
  Zpos (digits2_pos m) = prec -> 3 - emax - prec <= e <= emax - prec ->
  binary_round_aux prec emax s (Zpos m) e loc_Exact = S754_finite s m e.
Proof.
  intros Hd He. unfold binary_round_aux, shr_fexp.
  cbn [Zdigits2 shr_record_of_loc]. rewrite Hd.
  assert (Hf : SpecFloat.fexp prec emax (prec + e) - e = 0).
  { unfold SpecFloat.fexp, SpecFloat.emin. lia. }
  rewrite Hf. cbn [shr shr_m loc_of_shr_record round_nearest_even Zdigits2].
  rewrite Hd, Hf. cbn [shr shr_m].
  destruct He as [_ He]. apply Z.leb_le in He. now rewrite He.
Qed.

Lemma of_int_exact (p : positive) :
  Zpos p < 2 ^ prec ->
  of_int (Zpos p) = S754_finite false (exact_mant p) (Zpos (digits2_pos p) - prec).
Proof.
  intros Hp.
  assert (Hd : Zpos (digits2_pos p) <= prec).
  { apply digits2_pos_le; [unfold prec; lia|exact Hp]. }
  unfold of_int, binary_normalize, binary_round, exact_mant.
  assert (Hf : SpecFloat.fexp prec emax (Zpos (digits2_pos p) + 0)
               = Zpos (digits2_pos p) - prec).
  { unfold SpecFloat.fexp, SpecFloat.emin, prec, emax in *. lia. }
  rewrite Hf. unfold shl_align.
  replace (Zpos (digits2_pos p) - prec - 0) with (Zpos (digits2_pos p) - prec) by lia.
  destruct (Zpos (digits2_pos p) - prec) as [|d|d] eqn:E.
  - cbn [fst]. apply binary_round_aux_canonical; unfold prec, emax in *; lia.
  - unfold prec in *. lia.
  - cbn [fst]. rewrite <- E. apply binary_round_aux_canonical.
    + rewrite digits2_iter_xO. unfold prec in *. lia.
    + unfold prec, emax in *. lia.
Qed.

Lemma of_int_finite_nonneg (z : Z) :
  0 <= z < 2 ^ prec -> finite_nonneg (of_int z) = true.
Proof.
  intros [H0 H1]. destruct z as [|p|p]; [reflexivity| |lia].
  now rewrite of_int_exact.
Qed.

Lemma quot_unit_bounds (d u : Z) :
  0 <= d <= max_int64 -> 60000000000 <= u ->
  0 <= Z.quot d u < 2 ^ prec.
Proof.
  intros Hd Hu. rewrite Z.quot_div_nonneg by lia.
  unfold max_int64, prec in *. split.
  - apply Z.div_pos; lia.
  - apply Z.div_lt_upper_bound; [lia|].
    change (2 ^ 53) with 9007199254740992. change (2 ^ 63 - 1) with 9223372036854775807 in Hd.
    nia.
Qed.

Ltac finite_const y :=
  let E := fresh "E" in
  destruct y eqn:E; try (vm_compute in E; discriminate E).


(** A prefix without the letter P changes nothing. *)
Lemma ParseString_skips_prefix (pre s : string) :
  has_char "P" pre = false -> ParseString (pre ++ s) = ParseString s.
Proof.
  intros H. unfold ParseString, MatchString, week, full.
  now rewrite !FindStringSubmatch_skip by exact H.
Qed.

(** ** The properties of the specification *)

(** C1, as the code has it.  The specification asks that every string
    the formatter produces parses back to a value that formats to the
    same string.  Ten microseconds are what [ParseString] makes of
    [PT0.00001S]; the formatter prints their seconds with an exponent,
    [PT1e-05S]; the pattern reads that text up to [PT] only, so it parses
    to the zero duration, which formats as [P0D].  And 1001 milliseconds
    format as [PT1.001S], which parses to a nanosecond less, the
    fraction of the seconds being cut, not rounded, at each step; that
    value formats as [PT1.000999999S]. *)
Theorem String_round_trip_breaks :
  (ParseString "PT0.00001S" = inl (mkDuration (10 * Microsecond)) /\
   DurationString (mkDuration (10 * Microsecond)) = "PT1e-05S" /\
   ParseString "PT1e-05S" = inl (mkDuration 0) /\
   reformat "PT1e-05S" = inl "P0D") /\
  (DurationString (mkDuration (1001 * Millisecond)) = "PT1.001S" /\
   ParseString "PT1.001S" = inl (mkDuration (1001 * Millisecond - 1)) /\
   reformat "PT1.001S" = inl "PT1.000999999S").
Proof. repeat split; vm_compute; reflexivity. Qed.

(** C2, counterexample.  The bare [P] matches the full pattern with no
    designator captured, so it is outside the grammar of the
    specification; [ParseString] accepts it as the zero duration. *)
Lemma bare_P_is_accepted :
  in_grammar "P" = false /\
  FindStringSubmatch full "P" = Some ("P" :: repeat "" 13) /\
  ParseString "P" = inl (mkDuration 0).
Proof. repeat split; vm_compute; reflexivity. Qed.

(** C2, amended.  [ParseString] fails with [ErrBadFormat] exactly when
    neither pattern matches anywhere in the input, which is exactly when
    the input holds no letter P; [garbage] and the empty string are such
    inputs.  A match without any captured designator is no failure. *)
Theorem ParseString_bad_format :
  (forall s, ParseString s = inr ErrBadFormat <->
             MatchString week s = false /\ MatchString full s = false) /\
  (forall s, ParseString s = inr ErrBadFormat <-> has_char "P" s = false) /\
  ParseString "garbage" = inr ErrBadFormat /\
  ParseString "" = inr ErrBadFormat.
Proof.
  split; [exact ParseString_bad_format_iff|].
  split; [|split; reflexivity].
  intros s. rewrite ParseString_bad_format_iff, MatchString_full. split.
  - intros [_ H]. exact H.
  - intros H. split; [|exact H].
    destruct (MatchString week s) eqn:E; [|reflexivity].
    apply MatchString_week_P in E. congruence.
Qed.

(** C3.  Weeks and days are preferred to months, and a whole number of
    weeks is printed in weeks: [P7D] comes back as [P1W], [P1M5D] as
    [P5W], [P1M] as [P30D], [P1Y1M5D] as [P1Y35D]. *)
Theorem formatter_weeks_and_days :
  reformat "P7D" = inl "P1W" /\
  reformat "P1M5D" = inl "P5W" /\
  reformat "P1M" = inl "P30D" /\
  reformat "P1Y1M5D" = inl "P1Y35D".
Proof. repeat split; vm_compute; reflexivity. Qed.

(** C4.  [P0D] parses to a duration for which [IsZero] holds, and the
    duration of magnitude zero formats as the constant [Zero], the text
    [P0D]. *)
Theorem zero_identity :
  (exists d, ParseString "P0D" = inl d /\ IsZero d = true) /\
  DurationString (mkDuration 0) = Zero /\
  Zero = "P0D".
Proof.
  split; [exists (mkDuration 0); split; vm_compute; reflexivity|].
  split; vm_compute; reflexivity.
Qed.

(** C5, counterexample.  [P1W2D] is not of the isolated shape [P<n>W],
    yet the week pattern matches it, on [P1W], and the input is parsed on
    the week path as one week. *)
Lemma week_path_on_mixed_input :
  match_whole week "P1W2D" = None /\
  MatchString week "P1W2D" = true /\
  FindStringSubmatch week "P1W2D" = Some (week_match "1") /\
  ParseString "P1W2D" = inl (mkDuration Week).
Proof. repeat split; vm_compute; reflexivity. Qed.

(** C5, amended.  The week pattern is tried first and is searched
    anywhere in the input.  When it matches, the input holds a text
    [P<n>W] with [n] one digit or more, and the result is that of the
    count [n] in weeks and of nothing else; and every input that holds
    such a text, whatever stands before and after it, is matched by the
    week pattern. *)
Theorem week_form_first (s : string) :
  (MatchString week s = true ->
   exists pre n post,
     s = pre ++ "P" ++ n ++ "W" ++ post /\ n <> "" /\ all_digits n = true /\
     FindStringSubmatch week s = Some (week_match n) /\
     ParseString s = week_only n) /\
  (forall pre n post,
     s = pre ++ "P" ++ n ++ "W" ++ post -> n <> "" -> all_digits n = true ->
     MatchString week s = true).
Proof.
  split.
  - unfold MatchString.
    destruct (FindStringSubmatch week s) as [m|] eqn:E; [|discriminate].
    intros _. pose proof E as E0.
    apply FindStringSubmatch_inv in E0 as (pre & s' & -> & Hm).
    apply match_here_week_inv in Hm as (n & post & -> & Hn & Hall & ->).
    exists pre, n, post. repeat split; auto.
    rewrite (ParseString_week_path _ E). now apply parse_loop_week.
  - intros pre n post -> Hn Hall. unfold MatchString.
    pose proof (@FindStringSubmatch_app week pre ("P" ++ n ++ "W" ++ post)) as H.
    rewrite (match_here_week post Hn Hall) in H.
    destruct (FindStringSubmatch week _); [reflexivity|].
    exfalso. apply H; [discriminate|reflexivity].
Qed.

Lemma week_form_first_witness :
  (MatchString week "P1W2D" = true /\
   exists pre n post,
     "P1W2D" = pre ++ "P" ++ n ++ "W" ++ post /\ n <> "" /\
     all_digits n = true /\
     FindStringSubmatch week "P1W2D" = Some (week_match n) /\
     ParseString "P1W2D" = week_only n) /\
  (("xxP12W3D" = "xx" ++ "P" ++ "12" ++ "W" ++ "3D" /\ "12" <> "" /\
    all_digits "12" = true) /\
   MatchString week "xxP12W3D" = true).
Proof.
  split.
  - split; [reflexivity|].
    apply (proj1 (week_form_first "P1W2D")). reflexivity.
  - split; [repeat split; discriminate|].
    apply (proj2 (week_form_first "xxP12W3D") "xx" "12" "3D").
    + reflexivity.
    + discriminate.
    + reflexivity.
Defined.

(** C6, as the code has it.  The specification asks that marshalling a
    parsed duration and unmarshalling the result gives the magnitude
    back.  [PT0.00001S] parses to ten microseconds; [MarshalJSON] writes
    them as the JSON string [PT1e-05S]; [UnmarshalJSON] decodes that
    string and parses it to the zero duration, without an error.  And
    [PT10.1S] parses to 10099999999 nanoseconds, which are written as
    [PT10.099999999S] and read back as 10099999998. *)
Theorem JSON_round_trip_breaks :
  (ParseString "PT0.00001S" = inl (mkDuration (10 * Microsecond)) /\
   MarshalJSON Json.Encode (mkDuration (10 * Microsecond))
   = String Json.quote
       ("PT1e-05S" ++ String Json.quote (String Json.newline "")) /\
   forall d,
     UnmarshalJSON Json.Decode d
       (MarshalJSON Json.Encode (mkDuration (10 * Microsecond)))
     = (mkDuration 0, None)) /\
  (ParseString "PT10.1S" = inl (mkDuration 10099999999) /\
   MarshalJSON Json.Encode (mkDuration 10099999999)
   = String Json.quote
       ("PT10.099999999S" ++ String Json.quote (String Json.newline "")) /\
   forall d,
     UnmarshalJSON Json.Decode d
       (MarshalJSON Json.Encode (mkDuration 10099999999))
     = (mkDuration 10099999998, None)).
Proof.
  split; (split; [vm_compute; reflexivity|]);
    (split; [vm_compute; reflexivity|]);
    intros d; vm_compute; reflexivity.
Qed.

(** C7.  Whatever the decoder is: when decoding fails, [UnmarshalJSON]
    returns the decoder's error and the receiver is as before; when the
    decoded text does not parse, it returns the parser's error and the
    receiver is as before; when both succeed, it returns no error and the
    receiver is the parsed duration. *)
Theorem UnmarshalJSON_atomic
        (Decode : string -> string + JsonError) (d : Duration) (data : string) :
  (forall e, Decode data = inr e ->
             UnmarshalJSON Decode d data = (d, Some (ErrDecode e))) /\
  (forall s e, Decode data = inl s -> ParseString s = inr e ->
               UnmarshalJSON Decode d data = (d, Some e)) /\
  (forall s t, Decode data = inl s -> ParseString s = inl t ->
               UnmarshalJSON Decode d data = (t, None)).
Proof.
  unfold UnmarshalJSON. repeat split.
  - intros e ->. reflexivity.
  - intros s e -> ->. reflexivity.
  - intros s t -> ->. reflexivity.
Qed.

Lemma UnmarshalJSON_atomic_witness :
  (Json.Decode "12" = inr JsonType /\
   UnmarshalJSON Json.Decode (mkDuration Hour) "12"
   = (mkDuration Hour, Some (ErrDecode JsonType))) /\
  (Json.Decode (Json.Encode "garbage") = inl "garbage" /\
   ParseString "garbage" = inr ErrBadFormat /\
   UnmarshalJSON Json.Decode (mkDuration Hour) (Json.Encode "garbage")
   = (mkDuration Hour, Some ErrBadFormat)) /\
  (Json.Decode (Json.Encode "P1D") = inl "P1D" /\
   ParseString "P1D" = inl (mkDuration Day) /\
   UnmarshalJSON Json.Decode (mkDuration Hour) (Json.Encode "P1D")
   = (mkDuration Day, None)).
Proof.
  split; [|split].
  - split; [reflexivity|].
    apply (proj1 (UnmarshalJSON_atomic Json.Decode (mkDuration Hour) "12")).
    reflexivity.
  - split; [reflexivity|split; [reflexivity|]].
    apply (proj1 (proj2 (UnmarshalJSON_atomic Json.Decode (mkDuration Hour)
                           (Json.Encode "garbage"))) "garbage");
      reflexivity.
  - split; [reflexivity|split; [reflexivity|]].
    apply (proj2 (proj2 (UnmarshalJSON_atomic Json.Decode (mkDuration Hour)
                           (Json.Encode "P1D"))) "P1D");
      reflexivity.
Defined.

(** C8.  [PT1.5S] parses to one second and 500 milliseconds; [Seconds]
    of that duration is the [float64] 1.5, which is [3 * 2^-1] stored
    with a mantissa of 53 digits; and the duration formats as [PT1.5S]
    again. *)
Theorem fractional_seconds :
  ParseString "PT1.5S" = inl (mkDuration (1 * Second + 500 * Millisecond)) /\
  Seconds (mkDuration (1 * Second + 500 * Millisecond))
  = S754_finite false (3 * 2 ^ 51) (-52) /\
  Qeq (to_Q (Seconds (mkDuration (1 * Second + 500 * Millisecond)))) (3 # 2) /\
  reformat "PT1.5S" = inl "PT1.5S".
Proof. repeat split; vm_compute; reflexivity. Qed.

(** C9, counterexample.  The duration of minus one hour is an [int64]
    magnitude, and its [Hours] is [-1]. *)
Lemma negative_magnitude_negative_hours :
  int64_range (- Hour) /\
  Hours (mkDuration (- Hour)) = of_int (-1) /\
  nonneg (Hours (mkDuration (- Hour))) = false.
Proof.
  split; [vm_compute; split; discriminate|].
  split; vm_compute; reflexivity.
Qed.

(** [Seconds] can be below zero for a magnitude that is not: the
    conversions to [float64] round the magnitude down and the minutes
    up. *)
Lemma Seconds_negative_example :
  0 <= 31457339999999997 <= max_int64 /\
  nonneg (Seconds (mkDuration 31457339999999997)) = false /\
  FormatFloat (Seconds (mkDuration 31457339999999997)) = "-4e-09".
Proof.
  split; [vm_compute; split; discriminate|].
  split; vm_compute; reflexivity.
Qed.

(** C9, amended.  For every duration whose magnitude is not negative,
    [Years], [Weeks], [Days], [Hours] and [Minutes] return a number that
    is not negative; each is a function of the magnitude, the only field
    of a [Duration]. *)
Theorem accessors_nonneg (d : Duration) :
  0 <= nsec d <= max_int64 ->
  (nonneg (Years d) = true /\ nonneg (Weeks d) = true /\
   nonneg (Days d) = true /\ nonneg (Hours d) = true /\
   nonneg (Minutes d) = true) /\
  (forall d', nsec d' = nsec d ->
              Years d' = Years d /\ Weeks d' = Weeks d /\ Days d' = Days d /\
              Hours d' = Hours d /\ Minutes d' = Minutes d /\
              Seconds d' = Seconds d).
Proof.
  intros Hd. split;
    [|intros [z] E; destruct d as [z0]; simpl in E; subst z0; repeat split].
  assert (HD : nonneg (Days d) = true).
  { unfold Days. finite_const (of_int (Z.quot Year Day)).
    apply Mod_nonneg, of_int_finite_nonneg, quot_unit_bounds; [exact Hd|].
    vm_compute. discriminate. }
  repeat split.
  - unfold Years. apply Floor_nonneg, of_int_nonneg.
    apply Z.quot_pos; [lia|reflexivity].
  - unfold Weeks. destruct (ltb _ _); [reflexivity|].
    finite_const (of_int (Z.quot Week Day)).
    vm_compute in E. injection E as <- <- <-.
    apply div_nonneg, HD.
  - exact HD.
  - unfold Hours. finite_const (of_int (Z.quot Day Hour)).
    apply Mod_nonneg, of_int_finite_nonneg, quot_unit_bounds; [exact Hd|].
    vm_compute. discriminate.
  - unfold Minutes. finite_const (of_int (Z.quot Hour Minute)).
    apply Mod_nonneg, of_int_finite_nonneg, quot_unit_bounds; [exact Hd|].
    vm_compute. discriminate.
Qed.

Lemma accessors_nonneg_witness :
  0 <= nsec (mkDuration (90 * Minute)) <= max_int64 /\
  nonneg (Years (mkDuration (90 * Minute))) = true /\
  nonneg (Weeks (mkDuration (90 * Minute))) = true /\
  nonneg (Days (mkDuration (90 * Minute))) = true /\
  nonneg (Hours (mkDuration (90 * Minute))) = true /\
  nonneg (Minutes (mkDuration (90 * Minute))) = true.
Proof.
  split.
  - vm_compute. split; discriminate.
  - apply (accessors_nonneg (mkDuration (90 * Minute))).
    vm_compute. split; discriminate.
Defined.

(** C10.  The patterns are searched anywhere in the input.  The bare
    [P] and [xxP1Dyy] are outside the grammar of the specification, and
    [ParseString] accepts both: the first as the zero duration, the
    second as one day, from the submatch [P1D], the text around it being
    ignored. *)
Theorem substring_matching :
  in_grammar "P" = false /\
  ParseString "P" = inl (mkDuration 0) /\
  in_grammar "xxP1Dyy" = false /\
  nth_error (match FindStringSubmatch full "xxP1Dyy" with
             | Some m => m
             | None => []
             end) 0 = Some "P1D" /\
  ParseString "xxP1Dyy" = inl (mkDuration Day) /\
  ParseString "P1Dyy" = inl (mkDuration Day).
Proof. repeat split; vm_compute; reflexivity. Qed.

(** * Further properties of the code *)

Lemma accumulate_handled (name : string) (v : float64) (d : Z) :
  handled name = true -> exists d', accumulate name v d = inl d'.
Proof.
  unfold handled, accumulate. cbn [existsb].
  repeat (destruct (String.eqb name _); [eauto|]).
  discriminate.
Qed.

Lemma parse_loop_errors (names parts : list string) (i : nat) (d : Z) (e : Error) :
  forallb (fun n => String.eqb n "" || handled n) names = true ->
  parse_loop i names parts d = inr e ->
  exists k part, e = ErrParseFloat k part /\ In part parts.
Proof.
  revert parts i d. induction names as [|name names IH]; intros parts i d Hn.
  - discriminate.
  - destruct parts as [|part parts]; [discriminate|].
    cbn [forallb] in Hn. apply andb_true_iff in Hn as [Hname Hn].
    cbn [parse_loop].
    destruct (Nat.eqb i 0 || String.eqb name "" || String.eqb part "") eqn:Hskip.
    + intros H. destruct (IH _ _ _ Hn H) as (k & p & -> & Hin).
      exists k, p. split; [reflexivity|now right].
    + destruct (ParseFloat part) as [v|k] eqn:Hp.
      * assert (Hh : handled name = true).
        { apply orb_false_iff in Hskip as [Hskip _].
          apply orb_false_iff in Hskip as [_ Hskip].
          rewrite Hskip in Hname. exact Hname. }
        destruct (accumulate_handled name v d Hh) as (d' & ->).
        intros H. destruct (IH _ _ _ Hn H) as (k & p & -> & Hin).
        exists k, p. split; [reflexivity|now right].
      * intros H. injection H as <-. exists k, part. split; [reflexivity|now left].
Qed.

Lemma wrap64_range (z : Z) : int64_range (wrap64 z).
Proof.
  unfold int64_range, wrap64, min_int64, max_int64.
  pose proof (Z.mod_pos_bound (z + 2 ^ 63) (2 ^ 64) ltac:(lia)). lia.
Qed.



(** X1.  [ParseString] returns two kinds of error only: [ErrBadFormat],
    and the error of [strconv.ParseFloat] on a captured text.  The
    [default] branch of its [switch], the unknown field, is never taken:
    every named group of the two patterns has a case. *)
Theorem ParseString_errors (s : string) (e : Error) :
  ParseString s = inr e ->
  e = ErrBadFormat \/ exists k part, e = ErrParseFloat k part.
Proof.
  unfold ParseString.
  destruct (MatchString week s).
  - destruct (parse_loop _ _ _ _) as [d|e'] eqn:E; [discriminate|].
    intros H. injection H as ->. right.
    apply parse_loop_errors in E as (k & p & -> & _); [eauto|reflexivity].
  - destruct (MatchString full s); [|intros H; injection H as <-; now left].
    destruct (parse_loop _ _ _ _) as [d|e'] eqn:E; [discriminate|].
    intros H. injection H as ->. right.
    apply parse_loop_errors in E as (k & p & -> & _); [eauto|reflexivity].
Qed.


(** ** Exact roundings *)

Lemma iter_pos_nat (A : Type) (f : A -> A) (p : positive) (x : A) :
  SpecFloat.iter_pos f p x = Nat.iter (Pos.to_nat p) f x.
Proof.
  revert x. induction p as [p IH|p IH|]; intros x; cbn [SpecFloat.iter_pos].
  - rewrite !IH, Pos2Nat.inj_xI.
    replace (S (2 * Pos.to_nat p)) with (Pos.to_nat p + (Pos.to_nat p + 1))%nat by lia.
    rewrite !Nat.iter_add. reflexivity.
  - rewrite !IH, Pos2Nat.inj_xO.
    replace (2 * Pos.to_nat p)%nat with (Pos.to_nat p + Pos.to_nat p)%nat by lia.
    rewrite Nat.iter_add. reflexivity.
  - reflexivity.
Qed.

Lemma shr_1_double (m : Z) :
  0 < m ->
  shr_1 (Build_shr_record (2 * m) false false) = Build_shr_record m false false.
Proof. destruct m as [|p|p]; [lia| |lia]. reflexivity. Qed.

Lemma iter_shr_1_exact (k : nat) (m : Z) :
  0 < m ->
  Nat.iter k shr_1 (Build_shr_record (m * 2 ^ Z.of_nat k) false false)
  = Build_shr_record m false false.
Proof.
  intros Hm. induction k as [|k IH].
  - simpl. now rewrite Z.mul_1_r.
  - rewrite Nat.iter_succ_r.
    rewrite Nat2Z.inj_succ, Z.pow_succ_r by lia.
    replace (m * (2 * 2 ^ Z.of_nat k)) with (2 * (m * 2 ^ Z.of_nat k)) by lia.
    rewrite shr_1_double; [exact IH|].
    apply Z.mul_pos_pos; [exact Hm|apply Z.pow_pos_nonneg; lia].
Qed.

Lemma shr_exact (m e n : Z) :
  0 < m -> 0 <= n ->
  shr (Build_shr_record (m * 2 ^ n) false false) e n
  = (Build_shr_record m false false, e + n).
Proof.
  intros Hm Hn. unfold shr. destruct n as [|p|p]; [| |lia].
  - now rewrite Z.mul_1_r, Z.add_0_r.
  - rewrite iter_pos_nat. rewrite <- (positive_nat_Z p) at 1.
    now rewrite iter_shr_1_exact.
Qed.

Lemma digits2_pos_unique (q : positive) (k : Z) :
  2 ^ (k - 1) <= Zpos q < 2 ^ k -> Zpos (digits2_pos q) = k.
Proof.
  intros [Hlo Hhi]. destruct (digits2_pos_bounds q) as [Hl Hh].
  assert (Hk : 0 < k).
  { destruct (Z_lt_le_dec 0 k); [assumption|].
    assert (2 ^ k <= 2 ^ 0) by (apply Z.pow_le_mono_r; lia).
    change (2 ^ 0) with 1 in *. lia. }
  destruct (Z.lt_trichotomy (Zpos (digits2_pos q)) k) as [H|[H|H]]; [|exact H|].
  - assert (2 ^ Zpos (digits2_pos q) <= 2 ^ (k - 1)) by (apply Z.pow_le_mono_r; lia).
    lia.
  - assert (2 ^ k <= 2 ^ (Zpos (digits2_pos q) - 1)) by (apply Z.pow_le_mono_r; lia).
    lia.
Qed.

Lemma digits2_pos_shift (p q : positive) (j : Z) :
  0 <= j -> Zpos q = Zpos p * 2 ^ j ->
  Zpos (digits2_pos q) = Zpos (digits2_pos p) + j.
Proof.
  intros Hj Hq. apply digits2_pos_unique.
  destruct (digits2_pos_bounds p) as [Hl Hh]. rewrite Hq.
  replace (Zpos (digits2_pos p) + j - 1) with (Zpos (digits2_pos p) - 1 + j) by lia.
  rewrite !Z.pow_add_r by lia.
  assert (0 < 2 ^ j) by (apply Z.pow_pos_nonneg; lia).
  split; [apply Z.mul_le_mono_nonneg_r; lia|apply Z.mul_lt_mono_pos_r; lia].
Qed.

(** A mantissa of 53 digits followed by [n] zero digits rounds to
    itself. *)
Lemma binary_round_aux_shift (s : bool) (M q : positive) (n E : Z) :
  Zpos (digits2_pos M) = prec -> 0 <= n -> Zpos q = Zpos M * 2 ^ n ->
  3 - emax - prec <= E <= emax - prec ->
  binary_round_aux prec emax s (Zpos q) (E - n) loc_Exact = S754_finite s M E.
Proof.
  intros HM Hn Hq HE.
  pose proof (digits2_pos_shift M Hn Hq) as HD. rewrite HM in HD.
  unfold binary_round_aux, shr_fexp.
  cbn [Zdigits2 shr_record_of_loc]. rewrite HD.
  assert (Hf : SpecFloat.fexp prec emax (prec + n + (E - n)) - (E - n) = n).
  { unfold SpecFloat.fexp, SpecFloat.emin, prec, emax in *. lia. }
  rewrite Hf, Hq, shr_exact by lia.
  cbn [shr_m loc_of_shr_record round_nearest_even Zdigits2 shr_record_of_loc].
  rewrite HM.
  assert (Hf' : SpecFloat.fexp prec emax (prec + (E - n + n)) - (E - n + n) = 0).
  { unfold SpecFloat.fexp, SpecFloat.emin, prec, emax in *. lia. }
  rewrite Hf'. cbn [shr shr_m].
  replace (E - n + n) with E by lia.
  destruct HE as [_ HE]. apply Z.leb_le in HE. now rewrite HE.
Qed.

Lemma iter_xO_value (d p : positive) :
  Zpos (Pos.iter xO p d) = Zpos p * 2 ^ Zpos d.
Proof.
  revert p. induction d as [|d IH] using Pos.peano_ind; intros p.
  - simpl. lia.
  - rewrite Pos.iter_succ, Pos2Z.inj_xO, IH, Pos2Z.inj_succ, Z.pow_succ_r by lia.
    lia.
Qed.

Lemma exact_mant_value (p : positive) :
  Zpos p < 2 ^ prec ->
  Zpos (exact_mant p) = Zpos p * 2 ^ (prec - Zpos (digits2_pos p)).
Proof.
  intros Hp.
  assert (Hd : Zpos (digits2_pos p) <= prec).
  { apply digits2_pos_le; [unfold prec; lia|exact Hp]. }
  unfold exact_mant, shl_align.
  replace (Zpos (digits2_pos p) - prec - 0) with (Zpos (digits2_pos p) - prec) by lia.
  destruct (Zpos (digits2_pos p) - prec) as [|d|d] eqn:E; cbn [fst].
  - replace (prec - Zpos (digits2_pos p)) with 0 by lia. simpl. lia.
  - lia.
  - rewrite iter_xO_value. f_equal. f_equal. lia.
Qed.

Lemma exact_mant_digits (p : positive) :
  Zpos p < 2 ^ prec -> Zpos (digits2_pos (exact_mant p)) = prec.
Proof.
  intros Hp.
  assert (Hd : Zpos (digits2_pos p) <= prec).
  { apply digits2_pos_le; [unfold prec; lia|exact Hp]. }
  rewrite (digits2_pos_shift p (j := prec - Zpos (digits2_pos p))); [lia|lia|].
  now apply exact_mant_value.
Qed.

(** The value [p * 2^(j+e)], [p] below [2^53], normalises to the
    mantissa of [p] whatever way it is split between [j] and [e]. *)
Lemma binary_round_exact (s : bool) (p q : positive) (j e : Z) :
  Zpos p < 2 ^ prec -> 0 <= j -> Zpos q = Zpos p * 2 ^ j ->
  3 - emax - prec <= Zpos (digits2_pos p) - prec + j + e <= emax - prec ->
  binary_round prec emax s q e
  = S754_finite s (exact_mant p) (Zpos (digits2_pos p) - prec + j + e).
Proof.
  intros Hp Hj Hq HE.
  assert (Hd : Zpos (digits2_pos p) <= prec).
  { apply digits2_pos_le; [unfold prec; lia|exact Hp]. }
  pose proof (digits2_pos_shift p Hj Hq) as HD.
  pose proof (exact_mant_value Hp) as HV.
  pose proof (exact_mant_digits Hp) as HM.
  set (E := Zpos (digits2_pos p) - prec + j + e) in *.
  unfold binary_round. rewrite HD.
  assert (Hf : SpecFloat.fexp prec emax (Zpos (digits2_pos p) + j + e) = E).
  { unfold E, SpecFloat.fexp, SpecFloat.emin in *. unfold prec, emax in *. lia. }
  rewrite Hf. unfold shl_align.
  destruct (E - e) as [|n|d] eqn:En.
  - replace e with (E - 0) by lia.
    apply binary_round_aux_shift; auto; try lia.
    rewrite Hq, HV, Z.pow_0_r, Z.mul_1_r.
    replace j with (prec - Zpos (digits2_pos p)) by (unfold E in En; lia).
    reflexivity.
  - replace e with (E - Zpos n) by lia.
    apply binary_round_aux_shift; auto; try lia.
    rewrite Hq, HV, <- Z.mul_assoc, <- Z.pow_add_r by lia.
    replace j with (prec - Zpos (digits2_pos p) + Zpos n) by (unfold E in En; lia).
    reflexivity.
  - replace E with (E - 0) at 1 by lia.
    apply binary_round_aux_shift; auto; try lia.
    rewrite iter_xO_value, Hq, HV, Z.pow_0_r, Z.mul_1_r, <- Z.mul_assoc,
      <- Z.pow_add_r by lia.
    replace (prec - Zpos (digits2_pos p)) with (j + Zpos d) by (unfold E in En; lia).
    reflexivity.
Qed.

Lemma binary_normalize_exact (p : positive) (j e : Z) :
  Zpos p < 2 ^ prec -> 0 <= j ->
  3 - emax - prec <= Zpos (digits2_pos p) - prec + j + e <= emax - prec ->
  binary_normalize prec emax (Zpos p * 2 ^ j) e false
  = S754_finite false (exact_mant p) (Zpos (digits2_pos p) - prec + j + e).
Proof.
  intros Hp Hj HE.
  assert (H2 : 0 < 2 ^ j) by (apply Z.pow_pos_nonneg; lia).
  destruct (Zpos p * 2 ^ j) as [|q|q] eqn:Eq; [lia| |lia].
  cbn [binary_normalize]. apply binary_round_exact; auto.
Qed.

Lemma to_int64_of_int (z : Z) : 0 <= z < 2 ^ prec -> to_int64 (of_int z) = z.
Proof.
  intros [H0 H1]. destruct z as [|p|p]; [reflexivity| |lia].
  rewrite of_int_exact by exact H1.
  assert (Hd : Zpos (digits2_pos p) <= prec).
  { apply digits2_pos_le; [unfold prec; lia|exact H1]. }
  pose proof (exact_mant_value H1) as HV.
  unfold to_int64, int_part.
  assert (Hv : match Zpos (digits2_pos p) - prec with
               | Zneg q => Z.shiftr (Zpos (exact_mant p)) (Zpos q)
               | _ => Z.shiftl (Zpos (exact_mant p)) (Zpos (digits2_pos p) - prec)
               end = Zpos p).
  { destruct (Zpos (digits2_pos p) - prec) as [|q|q] eqn:E.
    - rewrite Z.shiftl_0_r, HV. replace (prec - Zpos (digits2_pos p)) with 0 by lia.
      simpl. lia.
    - lia.
    - rewrite Z.shiftr_div_pow2 by lia. rewrite HV.
      replace (prec - Zpos (digits2_pos p)) with (Zpos q) by lia.
      apply Z.div_mul. apply Z.pow_nonzero; lia. }
  rewrite Hv.
  unfold min_int64, max_int64, prec in *.
  destruct (_ && _) eqn:Hb; [reflexivity|].
  apply andb_false_iff in Hb as [Hb|Hb]; apply Z.leb_gt in Hb; lia.
Qed.

Lemma int_part_of_int (p : positive) :
  Zpos p < 2 ^ prec ->
  int_part false (exact_mant p) (Zpos (digits2_pos p) - prec) = Zpos p.
Proof.
  intros H1.
  assert (Hd : Zpos (digits2_pos p) <= prec).
  { apply digits2_pos_le; [unfold prec; lia|exact H1]. }
  pose proof (exact_mant_value H1) as HV.
  unfold int_part.
  destruct (Zpos (digits2_pos p) - prec) as [|q|q] eqn:E.
  - rewrite Z.shiftl_0_r, HV. replace (prec - Zpos (digits2_pos p)) with 0 by lia.
    simpl. lia.
  - lia.
  - rewrite Z.shiftr_div_pow2 by lia. rewrite HV.
    replace (prec - Zpos (digits2_pos p)) with (Zpos q) by lia.
    apply Z.div_mul. apply Z.pow_nonzero; lia.
Qed.

Lemma Trunc_of_int (z : Z) : 0 <= z < 2 ^ prec -> Trunc (of_int z) = of_int z.
Proof.
  intros [H0 H1]. destruct z as [|p|p]; [reflexivity| |lia].
  rewrite of_int_exact by exact H1. cbn [Trunc].
  rewrite int_part_of_int by exact H1.
  apply (of_int_exact H1).
Qed.

Lemma of_ratio_one (z : Z) : 0 <= z < 2 ^ prec -> of_ratio z 1 = of_int z.
Proof.
  intros [H0 H1]. destruct z as [|p|p]; [reflexivity| |lia].
  assert (Hd : Zpos (digits2_pos p) <= prec).
  { apply digits2_pos_le; [unfold prec; lia|exact H1]. }
  rewrite of_int_exact by exact H1.
  unfold of_ratio, SFdiv_core_binary. cbn [Zdigits2 digits2_pos].
  assert (He : Z.min (SpecFloat.fexp prec emax (Zpos (digits2_pos p) + 0 - (1 + 0))) (0 - 0)
               = Zpos (digits2_pos p) - prec - 1).
  { unfold SpecFloat.fexp, SpecFloat.emin, prec, emax in *. lia. }
  rewrite He.
  destruct (0 - 0 - (Zpos (digits2_pos p) - prec - 1)) as [|n|n] eqn:En;
    [unfold prec in *; lia| |unfold prec in *; lia].
  rewrite Z.shiftl_mul_pow2 by lia.
  pose proof (Z.div_eucl_eq (Zpos p * 2 ^ Zpos n) 1 ltac:(lia)) as Hdiv.
  pose proof (Z.mod_pos_bound (Zpos p * 2 ^ Zpos n) 1 ltac:(lia)) as Hmod.
  unfold Z.modulo in Hmod.
  destruct (Z.div_eucl (Zpos p * 2 ^ Zpos n) 1) as [q r].
  assert (r = 0) by lia. subst r.
  assert (q = Zpos p * 2 ^ Zpos n) by lia. subst q.
  change (new_location 1 0) with loc_Exact.
  assert (H2 : 0 < 2 ^ Zpos n) by (apply Z.pow_pos_nonneg; lia).
  destruct (Zpos p * 2 ^ Zpos n) as [|q|q] eqn:Eq; [lia| |lia].
  replace (Zpos (digits2_pos p) - prec - 1)
    with ((Zpos (digits2_pos p) - prec) - 1) by lia.
  apply binary_round_aux_shift.
  - now apply exact_mant_digits.
  - lia.
  - rewrite <- Eq, (exact_mant_value H1), <- Z.mul_assoc, <- Z.pow_add_r by lia.
    f_equal. f_equal. lia.
  - unfold prec, emax in *. lia.
Qed.

Lemma read_decimal_digits (n : string) (acc : Z) (sawdigits : bool) :
  all_digits n = true ->
  read_decimal n acc 0 false sawdigits
  = if sawdigits || negb (String.eqb n "") then Some (decimal_from acc n, 0)
    else None.
Proof.
  revert acc sawdigits. induction n as [|c n IH]; intros acc sd H.
  - simpl. now rewrite orb_false_r.
  - cbn [all_digits all_in in_class] in H. apply andb_true_iff in H as [Hc Hn].
    cbn [read_decimal decimal_from]. rewrite Hc.
    rewrite (IH _ true Hn). cbn [orb]. now rewrite orb_true_r.
Qed.

Lemma digit_val_bounds (c : ascii) : is_digit c = true -> 0 <= digit_val c <= 9.
Proof.
  unfold is_digit, digit_val. intros H. apply andb_true_iff in H as [H1 H2].
  apply Nat.leb_le in H1, H2. lia.
Qed.

Lemma decimal_from_nonneg (n : string) (acc : Z) :
  all_digits n = true -> 0 <= acc -> acc <= decimal_from acc n.
Proof.
  revert acc. induction n as [|c n IH]; intros acc H Ha; [simpl; lia|].
  cbn [all_digits all_in in_class] in H. apply andb_true_iff in H as [Hc Hn].
  cbn [decimal_from]. pose proof (digit_val_bounds c Hc).
  specialize (IH (10 * acc + digit_val c) Hn ltac:(lia)). lia.
Qed.

Lemma decimal_nonneg (n : string) : all_digits n = true -> 0 <= decimal n.
Proof. intros H. apply (decimal_from_nonneg n H (Z.le_refl 0)). Qed.

(** [ParseFloat] on digits: the integer they denote, exactly, as long as
    it is below [2^53]. *)
Lemma ParseFloat_digits (n : string) :
  n <> "" -> all_digits n = true -> decimal n < 2 ^ prec ->
  ParseFloat n = inl (of_int (decimal n)).
Proof.
  intros Hn Hd Hv. unfold ParseFloat.
  rewrite read_decimal_digits by exact Hd.
  apply String.eqb_neq in Hn. rewrite Hn. cbn [negb orb].
  change (10 ^ 0) with 1.
  pose proof (decimal_nonneg n Hd) as H0. fold (decimal n).
  rewrite of_ratio_one by lia.
  destruct (decimal n) as [|p|p] eqn:E; [reflexivity| |lia].
  now rewrite of_int_exact.
Qed.

Lemma ParseFloat_digits_no_syntax (n : string) :
  n <> "" -> all_digits n = true -> ParseFloat n <> inr ErrSyntax.
Proof.
  intros Hn Hd. unfold ParseFloat.
  rewrite read_decimal_digits by exact Hd.
  apply String.eqb_neq in Hn. rewrite Hn. cbn [negb orb].
  destruct (of_ratio _ _); discriminate.
Qed.

Lemma wrap64_small (z : Z) : int64_range z -> wrap64 z = z.
Proof.
  unfold int64_range, wrap64, min_int64, max_int64. intros H.
  rewrite Z.mod_small; lia.
Qed.

Lemma wrap64_add_r (a b : Z) : wrap64 (a + wrap64 b) = wrap64 (a + b).
Proof.
  unfold wrap64.
  replace (a + ((b + 2 ^ 63) mod 2 ^ 64 - 2 ^ 63) + 2 ^ 63)
    with (a + (b + 2 ^ 63) mod 2 ^ 64) by lia.
  rewrite Z.add_mod_idemp_r by lia.
  now replace (a + (b + 2 ^ 63)) with (a + b + 2 ^ 63) by lia.
Qed.

Lemma wrap64_add_l (a b : Z) : wrap64 (wrap64 a + b) = wrap64 (a + b).
Proof. rewrite Z.add_comm, wrap64_add_r. f_equal. lia. Qed.

Lemma FindStringSubmatch_here (r : regex) (s : string) (m : list string) :
  match_here r s = Some m -> FindStringSubmatch r s = Some m.
Proof. intros H. destruct s; cbn [FindStringSubmatch]; now rewrite H. Qed.

Lemma week_only_value (n : string) :
  n <> "" -> all_digits n = true -> decimal n < 2 ^ prec ->
  week_only n = inl (mkDuration (wrap64 (decimal n * Week))).
Proof.
  intros Hn Hd Hv. unfold week_only. rewrite ParseFloat_digits by assumption.
  pose proof (decimal_nonneg n Hd).
  rewrite to_int64_of_int by lia.
  unfold add_units. now rewrite wrap64_add_r.
Qed.

Lemma parse_week_value (n post : string) :
  n <> "" -> all_digits n = true -> decimal n * Week <= max_int64 ->
  ParseString ("P" ++ n ++ "W" ++ post) = inl (mkDuration (decimal n * Week)).
Proof.
  intros Hn Hd Hv. pose proof (decimal_nonneg n Hd) as H0.
  assert (HW : Week = 604800000000000) by reflexivity.
  assert (Hmax : max_int64 = 9223372036854775807) by reflexivity.
  rewrite (ParseString_week_path _ (FindStringSubmatch_here _ _ (match_here_week post Hn Hd))).
  rewrite parse_loop_week by exact Hn.
  rewrite week_only_value; auto.
  - rewrite wrap64_small; [reflexivity|].
    unfold int64_range, min_int64. rewrite HW, Hmax in *. lia.
  - unfold prec. rewrite HW, Hmax in *. lia.
Qed.

Lemma Floor_of_int (z : Z) : 0 <= z < 2 ^ prec -> Floor (of_int z) = of_int z.
Proof.
  intros H. pose proof (Trunc_of_int H) as HT.
  destruct H as [H0 H1]. destruct z as [|p|p]; [reflexivity| |lia].
  rewrite of_int_exact in * by exact H1. exact HT.
Qed.

(** [math.Mod] of two integers below [2^53] is their remainder, without
    any rounding. *)
Lemma Mod_of_int (a b : Z) :
  0 <= a < 2 ^ prec -> 0 < b < 2 ^ prec ->
  Mod (of_int a) (of_int b) = of_int (a mod b).
Proof.
  intros [Ha0 Ha1] [Hb0 Hb1].
  destruct b as [|pb|pb]; [lia| |lia].
  assert (Hdb : Zpos (digits2_pos pb) <= prec).
  { apply digits2_pos_le; [unfold prec; lia|exact Hb1]. }
  rewrite (of_int_exact Hb1).
  destruct a as [|pa|pa]; [reflexivity| |lia].
  assert (Hda : Zpos (digits2_pos pa) <= prec).
  { apply digits2_pos_le; [unfold prec; lia|exact Ha1]. }
  rewrite (of_int_exact Ha1). cbn [Mod].
  set (ea := Zpos (digits2_pos pa) - prec).
  set (eb := Zpos (digits2_pos pb) - prec).
  set (e := Z.min ea eb).
  assert (He : e <= 0 /\ e <= ea /\ e <= eb /\ - prec < e) by (unfold e, ea, eb, prec in *; lia).
  rewrite (exact_mant_value Ha1), (exact_mant_value Hb1).
  rewrite <- !Z.mul_assoc, <- !Z.pow_add_r by (unfold ea, eb in *; lia).
  replace (prec - Zpos (digits2_pos pa) + (ea - e)) with (- e) by (unfold ea; lia).
  replace (prec - Zpos (digits2_pos pb) + (eb - e)) with (- e) by (unfold eb; lia).
  assert (H2 : 0 < 2 ^ (- e)) by (apply Z.pow_pos_nonneg; lia).
  rewrite Z.mul_rem_distr_r by lia.
  rewrite Z.rem_mod_nonneg by lia.
  pose proof (Z.mod_pos_bound (Zpos pa) (Zpos pb) ltac:(lia)) as Hr.
  destruct (Zpos pa mod Zpos pb) as [|r|r] eqn:Er; [reflexivity| |lia].
  assert (Hr1 : Zpos r < 2 ^ prec) by lia.
  rewrite binary_normalize_exact; [|exact Hr1|lia|].
  - rewrite (of_int_exact Hr1). f_equal. lia.
  - assert (Zpos (digits2_pos r) <= prec).
    { apply digits2_pos_le; [unfold prec; lia|exact Hr1]. }
    pose proof (Pos2Z.is_pos (digits2_pos r)).
    unfold prec, emax in *. lia.
Qed.

Lemma quot_nonneg_eq (d u : Z) : 0 <= d -> 0 < u -> Z.quot d u = d / u.
Proof. intros. apply Z.quot_div_nonneg; lia. Qed.

Lemma accessors_values (d : Duration) :
  0 <= nsec d <= max_int64 ->
  Years d = of_int (nsec d / Year) /\
  Days d = of_int ((nsec d / Day) mod 365) /\
  Hours d = of_int ((nsec d / Hour) mod 24) /\
  Minutes d = of_int ((nsec d / Minute) mod 60).
Proof.
  intros Hd.
  assert (Hq : forall u, 60000000000 <= u -> 0 <= nsec d / u < 2 ^ prec).
  { intros u Hu. rewrite <- quot_nonneg_eq by lia. now apply quot_unit_bounds. }
  unfold Years, Days, Hours, Minutes.
  rewrite (@quot_nonneg_eq (nsec d) Year), (@quot_nonneg_eq (nsec d) Day),
    (@quot_nonneg_eq (nsec d) Hour), (@quot_nonneg_eq (nsec d) Minute)
    by (reflexivity || lia).
  repeat split.
  - apply Floor_of_int, Hq. vm_compute. discriminate.
  - change (Z.quot Year Day) with 365.
    apply Mod_of_int; [apply Hq; vm_compute; discriminate|unfold prec; lia].
  - change (Z.quot Day Hour) with 24.
    apply Mod_of_int; [apply Hq; vm_compute; discriminate|unfold prec; lia].
  - change (Z.quot Hour Minute) with 60.
    apply Mod_of_int; [apply Hq; vm_compute; discriminate|unfold prec; lia].
Qed.

Lemma run_then_app (cl : cclass) (c x : ascii) (seen : bool) (n r : string) :
  all_in cl n = true -> in_class cl x = false ->
  run_then cl c seen (n ++ String x r)
  = (seen || negb (String.eqb n "")) && Ascii.eqb c x.
Proof.
  revert seen. induction n as [|a n IH]; intros seen Hn Hx.
  - cbn [append run_then]. rewrite Hx. now rewrite orb_false_r.
  - cbn [all_in] in Hn. apply andb_true_iff in Hn as [Ha Hn].
    cbn [append run_then]. rewrite Ha, (IH true Hn Hx).
    cbn [orb String.eqb negb]. now rewrite orb_true_r.
Qed.

Lemma opt_desig_nonempty (n : string) (c : ascii) :
  n <> "" -> opt_desig n c = n ++ String c "".
Proof. destruct n; [contradiction|reflexivity]. Qed.

Lemma run_then_opt_desig (cl : cclass) (c x : ascii) (seen : bool) (n r : string) :
  all_in cl n = true -> in_class cl x = false -> Ascii.eqb c x = false ->
  (n = "" -> run_then cl c seen r = false) ->
  run_then cl c seen (opt_desig n x ++ r) = false.
Proof.
  intros Hn Hx Hc Hr. destruct (string_dec n "") as [->|Hne].
  - now apply Hr.
  - rewrite (opt_desig_nonempty x Hne), append_assoc_str.
    cbn [append]. rewrite run_then_app by assumption.
    rewrite Hc. apply andb_false_r.
Qed.

Lemma app_nil_r_str (s : string) : s ++ "" = s.
Proof. induction s as [|c s IH]; simpl; [reflexivity|now rewrite IH]. Qed.

Lemma consumed_nil (s : string) : consumed s "" = s.
Proof. rewrite <- (app_nil_r_str s) at 1. apply consumed_app. Qed.

Section DesignatorFacts.
Variable R : Type.
Implicit Types (k : string -> list string -> option R).

(** A run of the class followed by [c] is what [run_then] looks for. *)
Lemma plus_greedy_absent (cl : cclass) (c : ascii) (s : string)
    (G : string -> option R) :
in_class cl c = false -> run_then cl c false s = false ->
(forall s', G s' <> None -> exists s'', s' = String c s'') ->
plus_greedy cl s G = None.
Proof.
intros Hc Hrun HG.
destruct (plus_greedy cl s G) as [r|] eqn:E; [|reflexivity].
apply plus_greedy_inv in E as (n & rest & -> & Hn & Hall & Hk).
destruct (HG rest) as (s'' & ->); [congruence|].
rewrite run_then_app in Hrun by assumption.
apply String.eqb_neq in Hn. rewrite Hn, Ascii.eqb_refl in Hrun. discriminate.
Qed.

Lemma rmatch_designator (name : string) (cl : cclass) (c : ascii)
    (n rest : string) idx caps k (x : R) :
in_class cl c = false -> all_in cl n = true ->
(n = "" -> run_then cl c false rest = false) ->
k rest (desig_caps idx n c caps) = Some x ->
rmatch (designator name cl c) idx (opt_desig n c ++ rest) caps k = Some x.
Proof.
intros Hc Hall Habs Hk. unfold designator.
cbn [rmatch ngroups Nat.add].
destruct (string_dec n "") as [->|Hne].
- cbn [opt_desig append desig_caps] in *.
  rewrite plus_greedy_absent with (c := c); auto.
  intros s' Hs'. destruct s' as [|c' s'']; [congruence|].
  destruct (Ascii.eqb c c') eqn:Ec; [|congruence].
  apply Ascii.eqb_eq in Ec. subst. eauto.
- rewrite (opt_desig_nonempty c Hne), append_assoc_str.
  cbn [append].
  rewrite plus_greedy_run with (r := x); auto.
  + cbn [plus_greedy]. now rewrite Hc.
  + rewrite Ascii.eqb_refl.
    rewrite (consumed_app n (String c rest)).
    change (String c rest) with (String c "" ++ rest).
    rewrite <- append_assoc_str, consumed_app.
    destruct n; [contradiction|exact Hk].
Qed.

Lemma rmatch_opt_inner (r : regex) idx s caps k (x : R) :
rmatch r idx s caps k = Some x -> rmatch (Opt r) idx s caps k = Some x.
Proof. intros H. cbn [rmatch]. now rewrite H. Qed.

End DesignatorFacts.

Lemma all_in_weaken (s : string) : all_digits s = true -> all_in DigitOrDot s = true.
Proof.
  induction s as [|c s IH]; [reflexivity|].
  cbn [all_digits all_in in_class]. intros H.
  apply andb_true_iff in H as [Hc Hs]. rewrite Hc. cbn [orb andb]. now apply IH.
Qed.

Lemma ngroups_designator (name : string) (cl : cclass) (c : ascii) :
  ngroups (designator name cl c) = 2%nat.
Proof. reflexivity. Qed.

Lemma run_then_time_part (c : ascii) (h mi s : string) :
  run_then Digit c false (time_part h mi s) = false.
Proof. unfold time_part. destruct (_ ++ _); reflexivity. Qed.

Section FullFormMatch.
Variable R : Type.

Lemma rmatch_time_group (h mi s : string) (caps : list string)
    (k : string -> list string -> option R) (x : R) :
all_digits h = true -> all_digits mi = true -> all_digits s = true ->
k "" (time_caps h mi s caps) = Some x ->
rmatch (Opt (Group ""
         (Seq (Lit "T")
         (Seq (designator "hour" Digit "H")
         (Seq (designator "minute" Digit "M")
              (designator "second" DigitOrDot "S"))))))
       7 (time_part h mi s) caps k = Some x.
Proof.
intros Hh Hmi Hs. unfold time_caps, time_part.
destruct (opt_desig h "H" ++ opt_desig mi "M" ++ opt_desig s "S") as [|a t] eqn:Et.
- intros Hk. cbn [rmatch]. exact Hk.
- rewrite <- Et. intros Hk.
  apply rmatch_opt_inner.
  rewrite rmatch_group_eq, rmatch_seq_eq, rmatch_lit_eq.
  rewrite rmatch_seq_eq.
  apply rmatch_designator; [reflexivity|exact Hh| |].
  { intros _. apply run_then_opt_desig; [exact Hmi|reflexivity|reflexivity|].
    intros _. rewrite <- (app_nil_r_str (opt_desig s "S")).
    apply run_then_opt_desig; [exact Hs|reflexivity|reflexivity|reflexivity]. }
  rewrite ngroups_designator, rmatch_seq_eq.
  apply rmatch_designator; [reflexivity|exact Hmi| |].
  { intros _. rewrite <- (app_nil_r_str (opt_desig s "S")).
    apply run_then_opt_desig; [exact Hs|reflexivity|reflexivity|reflexivity]. }
  rewrite ngroups_designator.
  rewrite <- (app_nil_r_str (opt_desig s "S")).
  apply rmatch_designator;
    [reflexivity|now apply all_in_weaken|reflexivity|].
  rewrite consumed_nil, app_nil_r_str. exact Hk.
Qed.

End FullFormMatch.

Lemma match_here_full_form (y mo d h mi s : string) :
  all_digits y = true -> all_digits mo = true -> all_digits d = true ->
  all_digits h = true -> all_digits mi = true -> all_digits s = true ->
  match_here full (full_form y mo d h mi s) = Some (full_match y mo d h mi s).
Proof.
  intros Hy Hmo Hd Hh Hmi Hs.
  unfold match_here, full, full_form.
  rewrite rmatch_seq_eq, rmatch_lit_eq, rmatch_seq_eq.
  apply rmatch_designator; [reflexivity|exact Hy| |].
  { intros _. apply run_then_opt_desig; [exact Hmo|reflexivity|reflexivity|].
    intros _. apply run_then_opt_desig; [exact Hd|reflexivity|reflexivity|].
    intros _. apply run_then_time_part. }
  rewrite ngroups_designator, rmatch_seq_eq.
  apply rmatch_designator; [reflexivity|exact Hmo| |].
  { intros _. apply run_then_opt_desig; [exact Hd|reflexivity|reflexivity|].
    intros _. apply run_then_time_part. }
  rewrite ngroups_designator, rmatch_seq_eq.
  apply rmatch_designator; [reflexivity|exact Hd| |].
  { intros _. apply run_then_time_part. }
  rewrite ngroups_designator.
  apply rmatch_time_group; auto.
  rewrite consumed_nil. f_equal.
  unfold full_match, time_caps, full_form.
  destruct y, mo, d, h, mi, s; reflexivity.
Qed.

Lemma parse_loop_skip (i : nat) (names parts : list string) (part : string) (d : Z) :
  parse_loop i ("" :: names) (part :: parts) d = parse_loop (S i) names parts d.
Proof. cbn [parse_loop String.eqb]. now rewrite orb_true_r. Qed.

Lemma parse_loop_index_0 (name part : string) (names parts : list string) (d : Z) :
  parse_loop 0 (name :: names) (part :: parts) d = parse_loop 1 names parts d.
Proof. reflexivity. Qed.

Lemma sub_finite_self (s : bool) (m : positive) (e : Z) :
  sub (S754_finite s m e) (S754_finite s m e) = S754_zero false.
Proof. unfold sub, SFsub. now rewrite Z.sub_diag. Qed.

Lemma sub_of_int_self (z : Z) :
  0 <= z < 2 ^ prec -> sub (of_int z) (of_int z) = S754_zero false.
Proof.
  intros [H0 H1]. destruct z as [|p|p]; [reflexivity| |lia].
  rewrite of_int_exact by exact H1. apply sub_finite_self.
Qed.

Lemma add_units_0 (d u : Z) : int64_range d -> add_units d 0 u = d.
Proof.
  intros H. unfold add_units. cbn [Z.mul].
  change (wrap64 0) with 0. rewrite Z.add_0_r. now apply wrap64_small.
Qed.

(** Whole seconds: the three steps for the fraction add nothing. *)
Lemma accumulate_second_int (z d : Z) :
  0 <= z < 2 ^ prec ->
  accumulate "second" (of_int z) d = inl (wrap64 (d + z * Second)).
Proof.
  intros Hz. unfold accumulate. cbn [String.eqb Ascii.eqb Bool.eqb].
  rewrite Trunc_of_int, sub_of_int_self, to_int64_of_int by exact Hz.
  change (mul (S754_zero false) thousand) with (S754_zero false).
  change (Trunc (S754_zero false)) with (S754_zero false).
  change (sub (S754_zero false) (S754_zero false)) with (S754_zero false).
  change (mul (S754_zero false) thousand) with (S754_zero false).
  change (to_int64 (S754_zero false)) with 0.
  rewrite !add_units_0 by (unfold add_units; apply wrap64_range).
  unfold add_units. now rewrite wrap64_add_r.
Qed.

Lemma parse_loop_field (name : string) (u : Z) (i : nat)
      (names parts : list string) (n : string) (d : Z) :
  (forall z x, 0 <= z < 2 ^ prec ->
               accumulate name (of_int z) x = inl (wrap64 (x + z * u))) ->
  name <> "" -> i <> 0%nat ->
  all_digits n = true -> decimal n < 2 ^ prec -> int64_range d ->
  parse_loop i (name :: names) (n :: parts) d
  = parse_loop (S i) names parts (wrap64 (d + decimal n * u)).
Proof.
  intros Hacc Hname Hi Hn Hv Hd. cbn [parse_loop].
  apply Nat.eqb_neq in Hi. apply String.eqb_neq in Hname.
  rewrite Hi, Hname. cbn [orb].
  destruct (String.eqb n "") eqn:En.
  - apply String.eqb_eq in En. subst n.
    change (decimal "") with 0. rewrite Z.mul_0_l, Z.add_0_r.
    now rewrite wrap64_small.
  - apply String.eqb_neq in En.
    rewrite ParseFloat_digits by assumption.
    pose proof (decimal_nonneg n Hn).
    now rewrite Hacc by lia.
Qed.

Lemma accumulate_unit (name : string) (u z x : Z) :
  (forall v, accumulate name v x = inl (add_units x (to_int64 v) u)) ->
  0 <= z < 2 ^ prec ->
  accumulate name (of_int z) x = inl (wrap64 (x + z * u)).
Proof.
  intros H Hz. rewrite H, to_int64_of_int by exact Hz.
  unfold add_units. now rewrite wrap64_add_r.
Qed.

Lemma parse_loop_full_match (y mo d h mi s : string) :
  all_digits y = true -> all_digits mo = true -> all_digits d = true ->
  all_digits h = true -> all_digits mi = true -> all_digits s = true ->
  decimal y < 2 ^ prec -> decimal mo < 2 ^ prec -> decimal d < 2 ^ prec ->
  decimal h < 2 ^ prec -> decimal mi < 2 ^ prec -> decimal s < 2 ^ prec ->
  parse_loop 0 (SubexpNames full) (full_match y mo d h mi s) 0
  = inl (wrap64 (decimal y * Year + decimal mo * Month + decimal d * Day
                 + decimal h * Hour + decimal mi * Minute + decimal s * Second)).
Proof.
  intros Hy Hmo Hd Hh Hmi Hs By Bmo Bd Bh Bmi Bs.
  change (SubexpNames full)
    with [""; ""; "year"; ""; "month"; ""; "day"; ""; ""; "hour"; "";
          "minute"; ""; "second"].
  unfold full_match.
  rewrite parse_loop_index_0, parse_loop_skip.
  rewrite (@parse_loop_field "year" Year); auto;
    [|intros; now apply accumulate_unit|discriminate|vm_compute; split; discriminate].
  rewrite Z.add_0_l, parse_loop_skip.
  rewrite (@parse_loop_field "month" Month); auto;
    [|intros; now apply accumulate_unit|discriminate|apply wrap64_range].
  rewrite wrap64_add_l, parse_loop_skip.
  rewrite (@parse_loop_field "day" Day); auto;
    [|intros; now apply accumulate_unit|discriminate|apply wrap64_range].
  rewrite wrap64_add_l, !parse_loop_skip.
  rewrite (@parse_loop_field "hour" Hour); auto;
    [|intros; now apply accumulate_unit|discriminate|apply wrap64_range].
  rewrite wrap64_add_l, parse_loop_skip.
  rewrite (@parse_loop_field "minute" Minute); auto;
    [|intros; now apply accumulate_unit|discriminate|apply wrap64_range].
  rewrite wrap64_add_l, parse_loop_skip.
  rewrite (@parse_loop_field "second" Second); auto;
    [|intros; now apply accumulate_second_int|discriminate|apply wrap64_range].
  rewrite wrap64_add_l. reflexivity.
Qed.

Lemma all_digits_no_char (c : ascii) (n : string) :
  is_digit c = false -> all_digits n = true -> has_char c n = false.
Proof.
  intros Hc. induction n as [|a n IH]; [reflexivity|].
  cbn [all_digits all_in in_class has_char]. intros H.
  apply andb_true_iff in H as [Ha Hn]. rewrite (IH Hn), orb_false_r.
  destruct (Ascii.eqb c a) eqn:E; [|reflexivity].
  apply Ascii.eqb_eq in E. subst. congruence.
Qed.

Lemma has_char_opt_desig (c x : ascii) (n : string) :
  is_digit c = false -> Ascii.eqb c x = false -> all_digits n = true ->
  has_char c (opt_desig n x) = false.
Proof.
  intros Hc Hx Hn. destruct n as [|a n]; [reflexivity|].
  cbn [opt_desig]. rewrite has_char_app, (@all_digits_no_char c (String a n) Hc Hn).
  cbn [has_char orb]. now rewrite Hx.
Qed.

Lemma MatchString_week_W (s : string) :
  MatchString week s = true -> has_char "W" s = true.
Proof.
  unfold MatchString.
  destruct (FindStringSubmatch week s) as [m|] eqn:E; [|discriminate].
  intros _. apply FindStringSubmatch_inv in E as (pre & s' & -> & Hm).
  apply match_here_week_inv in Hm as (n & post & -> & _).
  rewrite !has_char_app. cbn [has_char Ascii.eqb Bool.eqb orb].
  rewrite !orb_true_r. reflexivity.
Qed.

Lemma full_form_no_W (y mo d h mi s : string) :
  all_digits y = true -> all_digits mo = true -> all_digits d = true ->
  all_digits h = true -> all_digits mi = true -> all_digits s = true ->
  has_char "W" (full_form y mo d h mi s) = false.
Proof.
  intros Hy Hmo Hd Hh Hmi Hs. unfold full_form, time_part.
  cbn [has_char Ascii.eqb Bool.eqb orb].
  rewrite !has_char_app, !has_char_opt_desig by (reflexivity || assumption).
  cbn [orb].
  destruct (_ ++ _) eqn:E; [reflexivity|]. rewrite <- E.
  cbn [has_char Ascii.eqb Bool.eqb orb].
  now rewrite !has_char_app, !has_char_opt_desig by (reflexivity || assumption).
Qed.

Lemma ParseString_full_wrap (y mo d h mi s : string) :
  all_digits y = true -> all_digits mo = true -> all_digits d = true ->
  all_digits h = true -> all_digits mi = true -> all_digits s = true ->
  decimal y < 2 ^ prec -> decimal mo < 2 ^ prec -> decimal d < 2 ^ prec ->
  decimal h < 2 ^ prec -> decimal mi < 2 ^ prec -> decimal s < 2 ^ prec ->
  ParseString (full_form y mo d h mi s)
  = inl (mkDuration
           (wrap64 (decimal y * Year + decimal mo * Month + decimal d * Day
                    + decimal h * Hour + decimal mi * Minute
                    + decimal s * Second))).
Proof.
  intros Hy Hmo Hd Hh Hmi Hs By Bmo Bd Bh Bmi Bs.
  unfold ParseString.
  destruct (MatchString week _) eqn:Ew.
  { apply MatchString_week_W in Ew. rewrite full_form_no_W in Ew by assumption.
    discriminate. }
  rewrite MatchString_full. cbn [full_form has_char Ascii.eqb Bool.eqb orb].
  rewrite (FindStringSubmatch_here _ _ (@match_here_full_form y mo d h mi s Hy Hmo Hd Hh Hmi Hs)).
  now rewrite parse_loop_full_match.
Qed.

Lemma parse_full_form (y mo d h mi s : string) :
  all_digits y = true -> all_digits mo = true -> all_digits d = true ->
  all_digits h = true -> all_digits mi = true -> all_digits s = true ->
  decimal y * Year + decimal mo * Month + decimal d * Day
  + decimal h * Hour + decimal mi * Minute + decimal s * Second <= max_int64 ->
  ParseString (full_form y mo d h mi s)
  = inl (mkDuration
           (decimal y * Year + decimal mo * Month + decimal d * Day
            + decimal h * Hour + decimal mi * Minute + decimal s * Second)).
Proof.
  intros Hy Hmo Hd Hh Hmi Hs Hsum.
  pose proof (decimal_nonneg y Hy). pose proof (decimal_nonneg mo Hmo).
  pose proof (decimal_nonneg d Hd). pose proof (decimal_nonneg h Hh).
  pose proof (decimal_nonneg mi Hmi). pose proof (decimal_nonneg s Hs).
  assert (HY : Year = 31536000000000000) by reflexivity.
  assert (HMo : Month = 2592000000000000) by reflexivity.
  assert (HD : Day = 86400000000000) by reflexivity.
  assert (HH : Hour = 3600000000000) by reflexivity.
  assert (HMi : Minute = 60000000000) by reflexivity.
  assert (HS : Second = 1000000000) by reflexivity.
  assert (Hmax : max_int64 = 9223372036854775807) by reflexivity.
  assert (Hp : 2 ^ prec = 9007199254740992) by reflexivity.
  rewrite ParseString_full_wrap; auto; try (rewrite Hp; lia).
  rewrite wrap64_small; [reflexivity|].
  unfold int64_range, min_int64. lia.
Qed.

(** Bounded checks by evaluation. *)
Lemma forallb_below (f : Z -> bool) (n : nat) :
  forallb f (map Z.of_nat (seq 0 n)) = true ->
  forall r, 0 <= r < Z.of_nat n -> f r = true.
Proof.
  intros H r Hr. rewrite forallb_forall in H. apply H.
  apply in_map_iff. exists (Z.to_nat r). split; [lia|].
  apply in_seq. lia.
Qed.

Lemma float_eqb_eq (x y : float64) : float_eqb x y = true -> x = y.
Proof.
  destruct x as [s|s| |s m e], y as [s'|s'| |s' m' e']; cbn [float_eqb];
    try discriminate; try reflexivity.
  - intros H. apply Bool.eqb_prop in H. now subst.
  - intros H. apply Bool.eqb_prop in H. now subst.
  - intros H. apply andb_true_iff in H as [H He].
    apply andb_true_iff in H as [Hs Hm].
    apply Bool.eqb_prop in Hs. apply Pos.eqb_eq in Hm. apply Z.eqb_eq in He.
    now subst.
Qed.

Lemma Weeks_table (r : Z) :
  0 <= r < 365 ->
  (if ltb (S754_zero false) (Mod (of_int r) (of_int 7)) then S754_zero false
   else div (of_int r) (of_int 7)) = of_int (weeks_of r).
Proof.
  intros Hr. apply float_eqb_eq.
  apply (forallb_below
           (fun r => float_eqb
                       (if ltb (S754_zero false) (Mod (of_int r) (of_int 7))
                        then S754_zero false else div (of_int r) (of_int 7))
                       (of_int (weeks_of r))) 365); [|exact Hr].
  vm_compute. reflexivity.
Qed.

Lemma Weeks_exact (d : Duration) :
  0 <= nsec d <= max_int64 ->
  Weeks d = of_int (weeks_of ((nsec d / Day) mod 365)).
Proof.
  intros Hd. unfold Weeks.
  destruct (accessors_values d Hd) as (_ & -> & _).
  change (Z.quot Week Day) with 7.
  apply Weeks_table. apply Z.mod_pos_bound. lia.
Qed.

Lemma IsWeeksOnly_spec (d : Duration) :
  0 <= nsec d <= max_int64 ->
  (IsWeeksOnly d = true <-> nsec d mod Week = 0 /\ nsec d < Year).
Proof.
  intros Hd. unfold IsWeeksOnly. rewrite Weeks_exact by exact Hd.
  set (r := (nsec d / Day) mod 365).
  assert (Hr : 0 <= r < 365) by (apply Z.mod_pos_bound; lia).
  assert (Hw : 0 <= weeks_of r <= 52).
  { unfold weeks_of. destruct (r mod 7 =? 0); [|lia].
    split; [apply Z.div_pos; lia|].
    apply Z.lt_succ_r. apply Z.div_lt_upper_bound; lia. }
  rewrite to_int64_of_int by (unfold prec; lia).
  assert (HW : Week = 604800000000000) by reflexivity.
  assert (HD : Day = 86400000000000) by reflexivity.
  assert (HY : Year = 31536000000000000) by reflexivity.
  rewrite wrap64_small by (unfold int64_range, min_int64, max_int64; lia).
  rewrite Z.eqb_eq. unfold weeks_of, r in *. rewrite HW, HD, HY in *.
  clear HW HD HY r. destruct (_ =? 0) eqn:E.
  - apply Z.eqb_eq in E. split; intros H.
    + split; [|].
      * rewrite <- H. apply Z.mod_mul. lia.
      * Z.div_mod_to_equations. lia.
    + Z.div_mod_to_equations. lia.
  - apply Z.eqb_neq in E. split; intros H.
    + exfalso. apply E. Z.div_mod_to_equations. lia.
    + exfalso. apply E. Z.div_mod_to_equations. lia.
Qed.

(** The product of two integers below [2^53] is exact when it is an
    integer below [2^53] times a power of two. *)
Lemma mul_of_int (a b p : positive) (j : Z) :
  Zpos a < 2 ^ prec -> Zpos b < 2 ^ prec -> Zpos p < 2 ^ prec -> 0 <= j ->
  Zpos a * Zpos b = Zpos p * 2 ^ j -> j <= 64 ->
  mul (of_int (Zpos a)) (of_int (Zpos b)) = of_int (Zpos a * Zpos b).
Proof.
  intros Ha Hb Hp Hj Hab Hj'.
  assert (Hda : Zpos (digits2_pos a) <= prec)
    by (apply digits2_pos_le; [unfold prec; lia|exact Ha]).
  assert (Hdb : Zpos (digits2_pos b) <= prec)
    by (apply digits2_pos_le; [unfold prec; lia|exact Hb]).
  assert (Hdp : Zpos (digits2_pos p) <= prec)
    by (apply digits2_pos_le; [unfold prec; lia|exact Hp]).
  pose proof (Pos2Z.is_pos (digits2_pos a)).
  pose proof (Pos2Z.is_pos (digits2_pos b)).
  pose proof (Pos2Z.is_pos (digits2_pos p)).
  (* the digits of the product *)
  assert (HD : Zpos (digits2_pos a) + Zpos (digits2_pos b) - 2
               < Zpos (digits2_pos p) + j).
  { destruct (digits2_pos_bounds a) as [La _].
    destruct (digits2_pos_bounds b) as [Lb _].
    destruct (digits2_pos_bounds p) as [_ Up].
    apply (Z.pow_lt_mono_r_iff 2); [lia|lia|].
    replace (Zpos (digits2_pos a) + Zpos (digits2_pos b) - 2)
      with ((Zpos (digits2_pos a) - 1) + (Zpos (digits2_pos b) - 1)) by lia.
    rewrite !Z.pow_add_r by lia.
    assert (0 < 2 ^ j) by (apply Z.pow_pos_nonneg; lia).
    assert (0 < 2 ^ (Zpos (digits2_pos a) - 1)) by (apply Z.pow_pos_nonneg; lia).
    assert (0 < 2 ^ (Zpos (digits2_pos b) - 1)) by (apply Z.pow_pos_nonneg; lia).
    apply Z.le_lt_trans with (Zpos a * Zpos b).
    - apply Z.mul_le_mono_nonneg; lia.
    - rewrite Hab. apply Z.mul_lt_mono_pos_r; lia. }
  rewrite Hab.
  unfold of_int at 3. rewrite binary_normalize_exact; auto;
    [|unfold prec, emax in *; lia].
  rewrite (of_int_exact Ha), (of_int_exact Hb).
  unfold mul, SFmul. cbn [xorb].
  set (n := j + prec - Zpos (digits2_pos a) - Zpos (digits2_pos b)
            + Zpos (digits2_pos p)).
  replace (Zpos (digits2_pos a) - prec + (Zpos (digits2_pos b) - prec))
    with ((Zpos (digits2_pos p) - prec + j + 0) - n) by (unfold n; lia).
  apply binary_round_aux_shift.
  - now apply exact_mant_digits.
  - unfold n, prec in *. lia.
  - rewrite Pos2Z.inj_mul, !exact_mant_value by assumption.
    replace (Zpos a * 2 ^ (prec - Zpos (digits2_pos a))
             * (Zpos b * 2 ^ (prec - Zpos (digits2_pos b))))
      with (Zpos a * Zpos b * (2 ^ (prec - Zpos (digits2_pos a))
                               * 2 ^ (prec - Zpos (digits2_pos b)))) by ring.
    rewrite Hab, <- !Z.mul_assoc, <- !Z.pow_add_r by (unfold n, prec in *; lia).
    f_equal. f_equal. unfold n. lia.
  - unfold prec, emax in *. lia.
Qed.

Lemma add_of_int_zero (z : Z) :
  0 <= z < 2 ^ prec -> add (of_int z) (S754_zero false) = of_int z.
Proof.
  intros [H0 H1]. destruct z as [|p|p]; [reflexivity| |lia].
  now rewrite of_int_exact.
Qed.

(** A whole number of minutes has no seconds. *)
Lemma Seconds_whole_minutes (d : Duration) :
  0 <= nsec d <= max_int64 -> nsec d mod Minute = 0 ->
  Seconds d = S754_zero false.
Proof.
  intros Hd Hm.
  assert (HMi : Minute = 60000000000) by reflexivity.
  assert (Hmax : max_int64 = 9223372036854775807) by reflexivity.
  assert (Hp : 2 ^ prec = 9007199254740992) by reflexivity.
  set (m := nsec d / Minute).
  assert (Hdm : nsec d = m * Minute).
  { unfold m. rewrite Z.mul_comm. apply Z.div_exact; [rewrite HMi; lia|exact Hm]. }
  assert (Hmb : 0 <= m <= 153722867) by (rewrite HMi, Hmax in *; lia).
  unfold Seconds, time_Minutes.
  rewrite Z.quot_div_nonneg, Z.rem_mod_nonneg, Hm by (rewrite ?HMi; lia).
  fold m.
  change (div (of_int 0) (of_int (60 * 1000000000))) with (S754_zero false).
  rewrite add_of_int_zero, Trunc_of_int by (rewrite Hp; lia).
  rewrite Hdm.
  destruct m as [|a|a]; [reflexivity| |lia].
  assert (Hab : Zpos a * Minute = Zpos (a * 29296875) * 2 ^ 11).
  { rewrite HMi, Pos2Z.inj_mul. lia. }
  change Minute with (Zpos 60000000000) in *.
  rewrite (@mul_of_int a 60000000000 (a * 29296875) 11)
    by (first [exact Hab|rewrite ?Hp, ?Pos2Z.inj_mul; lia]).
  rewrite Hab. unfold of_int. rewrite binary_normalize_exact;
    [|rewrite Hp, Pos2Z.inj_mul; lia|lia|].
  - rewrite sub_finite_self. reflexivity.
  - assert (Zpos (digits2_pos (a * 29296875)) <= prec).
    { apply digits2_pos_le; [unfold prec; lia|rewrite Hp, Pos2Z.inj_mul; lia]. }
    pose proof (Pos2Z.is_pos (digits2_pos (a * 29296875))).
    unfold prec, emax in *. lia.
Qed.

Lemma small_table (k : Z) :
  0 < k < 1000 ->
  FormatFloat (of_int k) = string_of_nat_Z k /\
  all_digits (string_of_nat_Z k) = true /\
  decimal (string_of_nat_Z k) = k /\
  string_of_nat_Z k <> "" /\
  nonzero (of_int k) = true.
Proof.
  intros Hk.
  assert (H : small_ok k = true).
  { apply (forallb_below small_ok 1000); [vm_compute; reflexivity|lia]. }
  unfold small_ok in H.
  destruct (k =? 0) eqn:E; [apply Z.eqb_eq in E; lia|].
  cbn [orb] in H.
  repeat (apply andb_true_iff in H as [H ?]).
  repeat split; auto.
  - now apply String.eqb_eq.
  - now apply Z.eqb_eq.
  - apply String.eqb_neq. now apply negb_true_iff.
Qed.

Lemma fld_facts (k : Z) :
  0 <= k < 1000 -> all_digits (fld k) = true /\ decimal (fld k) = k.
Proof.
  intros Hk. unfold fld. destruct (k =? 0) eqn:E.
  - apply Z.eqb_eq in E. subst. split; reflexivity.
  - apply Z.eqb_neq in E. destruct (@small_table k) as (_ & ? & ? & _); [lia|auto].
Qed.

Lemma opt_desig_fld (k : Z) (c : ascii) :
  0 <= k < 1000 ->
  opt_desig (fld k) c
  = if nonzero (of_int k) then FormatFloat (of_int k) ++ String c "" else "".
Proof.
  intros Hk. unfold fld. destruct (k =? 0) eqn:E.
  - apply Z.eqb_eq in E. subst. reflexivity.
  - apply Z.eqb_neq in E.
    destruct (@small_table k) as (-> & _ & _ & Hne & ->); [lia|].
    now apply opt_desig_nonempty.
Qed.

Lemma time_part_no_seconds (h mi : string) :
  time_part h mi ""
  = match opt_desig h "H" ++ opt_desig mi "M" with
    | EmptyString => EmptyString
    | t => String "T" t
    end.
Proof. unfold time_part. cbn [opt_desig]. now rewrite app_nil_r_str. Qed.

Lemma T_prefix_app (a b : string) (c : ascii) :
  match (a ++ String c "") ++ b with
  | EmptyString => EmptyString
  | t => String "T" t
  end = String "T" ((a ++ String c "") ++ b).
Proof. destruct a; reflexivity. Qed.

Lemma T_prefix_app1 (a : string) (c : ascii) :
  match a ++ String c "" with
  | EmptyString => EmptyString
  | t => String "T" t
  end = String "T" (a ++ String c "").
Proof. destruct a; reflexivity. Qed.

(** The formatter's text for a whole number of minutes that is not
    written in weeks. *)
Lemma DurationString_whole_minutes (d : Duration) :
  0 <= nsec d <= max_int64 -> nsec d mod Minute = 0 -> nsec d <> 0 ->
  nonzero (Weeks d) && IsWeeksOnly d = false ->
  DurationString d
  = full_form (fld (nsec d / Year)) "" (fld ((nsec d / Day) mod 365))
              (fld ((nsec d / Hour) mod 24)) (fld ((nsec d / Minute) mod 60)) "".
Proof.
  intros Hd Hm Hz Hw. unfold DurationString, full_form, HasTimePart.
  rewrite Hw. unfold IsZero. apply Z.eqb_neq in Hz. rewrite Hz.
  rewrite Seconds_whole_minutes by assumption.
  destruct (accessors_values d Hd) as (-> & -> & -> & ->).
  assert (Hy : 0 <= nsec d / Year < 1000).
  { assert (HY : Year = 31536000000000000) by reflexivity.
    assert (Hmax : max_int64 = 9223372036854775807) by reflexivity.
    rewrite HY, Hmax in *. split; [apply Z.div_pos; lia|].
    apply Z.div_lt_upper_bound; lia. }
  assert (Hdd : 0 <= (nsec d / Day) mod 365 < 1000)
    by (pose proof (Z.mod_pos_bound (nsec d / Day) 365); lia).
  assert (Hh : 0 <= (nsec d / Hour) mod 24 < 1000)
    by (pose proof (Z.mod_pos_bound (nsec d / Hour) 24); lia).
  assert (Hmi : 0 <= (nsec d / Minute) mod 60 < 1000)
    by (pose proof (Z.mod_pos_bound (nsec d / Minute) 60); lia).
  rewrite time_part_no_seconds.
  rewrite !opt_desig_fld by assumption.
  cbn [opt_desig append nonzero orb].
  destruct (nonzero (of_int (nsec d / Year)));
    destruct (nonzero (of_int ((nsec d / Day) mod 365)));
    destruct (nonzero (of_int ((nsec d / Hour) mod 24))) eqn:Eh;
    destruct (nonzero (of_int ((nsec d / Minute) mod 60))) eqn:Em;
    cbn [orb append]; rewrite ?app_nil_r_str, ?T_prefix_app, ?T_prefix_app1;
    reflexivity.
Qed.

Lemma weeks_of_bounds (r : Z) : 0 <= r < 365 -> 0 <= weeks_of r <= 52.
Proof.
  intros Hr. unfold weeks_of. destruct (r mod 7 =? 0); [|lia].
  split; [apply Z.div_pos; lia|].
  apply Z.lt_succ_r. apply Z.div_lt_upper_bound; lia.
Qed.

(** The formatter's text for a duration written in weeks. *)
Lemma DurationString_weeks (d : Duration) :
  0 <= nsec d <= max_int64 -> nsec d <> 0 ->
  nonzero (Weeks d) && IsWeeksOnly d = true ->
  exists w, 0 < w <= 52 /\ w * Week = nsec d /\
            DurationString d = "P" ++ string_of_nat_Z w ++ "W".
Proof.
  intros Hd Hz Hw. apply andb_true_iff in Hw as [Hnz Hwo].
  unfold DurationString, IsZero. rewrite Hnz, Hwo.
  apply Z.eqb_neq in Hz. rewrite Hz. cbn [andb].
  unfold IsWeeksOnly in Hwo. rewrite Weeks_exact in * by exact Hd.
  set (w := weeks_of ((nsec d / Day) mod 365)) in *.
  assert (Hb : 0 <= w <= 52).
  { apply weeks_of_bounds. apply Z.mod_pos_bound. lia. }
  assert (Hw0 : w <> 0) by (intros E; rewrite E in Hnz; discriminate).
  rewrite to_int64_of_int in Hwo by (unfold prec; lia).
  assert (HW : Week = 604800000000000) by reflexivity.
  rewrite wrap64_small in Hwo
    by (unfold int64_range, min_int64, max_int64; rewrite HW; lia).
  apply Z.eqb_eq in Hwo.
  exists w. repeat split; [lia|lia|exact Hwo|].
  destruct (@small_table w) as (-> & _); [lia|reflexivity].
Qed.

Lemma parse_format_whole_minutes (d : Duration) :
  0 <= nsec d <= max_int64 -> nsec d mod Minute = 0 ->
  ParseString (DurationString d) = inl d.
Proof.
  intros Hd Hm.
  destruct (Z.eq_dec (nsec d) 0) as [Hz|Hz].
  { destruct d as [z]. cbn [nsec] in Hz. subst z. vm_compute. reflexivity. }
  destruct (nonzero (Weeks d) && IsWeeksOnly d) eqn:Hw.
  - destruct (DurationString_weeks d Hd Hz Hw) as (w & Hb & Hwd & ->).
    destruct (@small_table w) as (_ & Hdig & Hdec & Hne & _); [lia|].
    change ("P" ++ string_of_nat_Z w ++ "W")
      with ("P" ++ string_of_nat_Z w ++ "W" ++ "").
    rewrite parse_week_value; auto.
    + rewrite Hdec, Hwd. now destruct d.
    + rewrite Hdec, Hwd. lia.
  - rewrite DurationString_whole_minutes by assumption.
    assert (HY : Year = 31536000000000000) by reflexivity.
    assert (HD : Day = 86400000000000) by reflexivity.
    assert (HH : Hour = 3600000000000) by reflexivity.
    assert (HMi : Minute = 60000000000) by reflexivity.
    assert (Hmax : max_int64 = 9223372036854775807) by reflexivity.
    assert (Hy : 0 <= nsec d / Year < 1000).
    { rewrite HY, Hmax in *. split; [apply Z.div_pos; lia|].
      apply Z.div_lt_upper_bound; lia. }
    assert (Hdd : 0 <= (nsec d / Day) mod 365 < 1000)
      by (pose proof (Z.mod_pos_bound (nsec d / Day) 365); lia).
    assert (Hh : 0 <= (nsec d / Hour) mod 24 < 1000)
      by (pose proof (Z.mod_pos_bound (nsec d / Hour) 24); lia).
    assert (Hmi : 0 <= (nsec d / Minute) mod 60 < 1000)
      by (pose proof (Z.mod_pos_bound (nsec d / Minute) 60); lia).
    destruct (fld_facts Hy) as [Ay Vy]. destruct (fld_facts Hdd) as [Ad Vd].
    destruct (fld_facts Hh) as [Ah Vh]. destruct (fld_facts Hmi) as [Ami Vmi].
    assert (Hsum : nsec d / Year * Year + 0 * Month
                   + (nsec d / Day) mod 365 * Day
                   + (nsec d / Hour) mod 24 * Hour
                   + (nsec d / Minute) mod 60 * Minute + 0 * Second = nsec d).
    { rewrite HY, HD, HH, HMi in *. Z.div_mod_to_equations. lia. }
    rewrite parse_full_form; auto;
      rewrite ?Vy, ?Vd, ?Vh, ?Vmi; change (decimal "") with 0.
    + rewrite Hsum. now destruct d.
    + rewrite Hsum. lia.
Qed.

(** X5.  On the week path the only error is a range error of
    [strconv.ParseFloat], on a count too large for a [float64]: the
    captured count is one digit or more, so it always is a number. *)
Theorem week_path_errors (s : string) (e : Error) :
  MatchString week s = true -> ParseString s = inr e ->
  exists n, e = ErrParseFloat ErrRange n /\ n <> "" /\ all_digits n = true.
Proof.
  unfold MatchString.
  destruct (FindStringSubmatch week s) as [m|] eqn:E; [|discriminate].
  intros _. rewrite (ParseString_week_path _ E).
  apply FindStringSubmatch_inv in E as (pre & s' & -> & Hm).
  apply match_here_week_inv in Hm as (n & post & -> & Hn & Hall & ->).
  rewrite parse_loop_week by exact Hn. unfold week_only.
  destruct (ParseFloat n) as [v|k] eqn:Ep; [discriminate|].
  intros H. injection H as <-. exists n. repeat split; auto.
  destruct k; [|reflexivity].
  exfalso. exact (ParseFloat_digits_no_syntax Hn Hall Ep).
Qed.

Lemma nonzero_of_int (k : Z) :
  0 <= k < 2 ^ prec -> nonzero (of_int k) = negb (k =? 0).
Proof.
  intros [H0 H1]. destruct k as [|p|p]; [reflexivity| |lia].
  now rewrite of_int_exact.
Qed.

Lemma HasTimePart_minutes (d : Duration) :
  0 <= nsec d <= max_int64 -> nsec d mod Minute = 0 ->
  HasTimePart d = negb (nsec d mod Day =? 0).
Proof.
  intros Hd Hm. unfold HasTimePart.
  rewrite Seconds_whole_minutes by assumption.
  destruct (accessors_values d Hd) as (_ & _ & -> & ->).
  pose proof (Z.mod_pos_bound (nsec d / Hour) 24 ltac:(lia)) as Hh.
  pose proof (Z.mod_pos_bound (nsec d / Minute) 60 ltac:(lia)) as Hmi.
  rewrite !nonzero_of_int by (unfold prec; lia).
  cbn [nonzero]. rewrite orb_false_r.
  assert (HD : Day = 86400000000000) by reflexivity.
  assert (HH : Hour = 3600000000000) by reflexivity.
  assert (HMi : Minute = 60000000000) by reflexivity.
  rewrite HD, HH, HMi in *.
  destruct (nsec d mod 86400000000000 =? 0) eqn:E;
    [apply Z.eqb_eq in E|apply Z.eqb_neq in E].
  - assert (((nsec d / 3600000000000) mod 24 =? 0) = true) as ->
      by (apply Z.eqb_eq; Z.div_mod_to_equations; lia).
    assert (((nsec d / 60000000000) mod 60 =? 0) = true) as ->
      by (apply Z.eqb_eq; Z.div_mod_to_equations; lia).
    reflexivity.
  - cbn [negb]. apply orb_true_iff.
    destruct ((nsec d / 3600000000000) mod 24 =? 0) eqn:E1; [|now left].
    right. apply negb_true_iff, Z.eqb_neq. apply Z.eqb_eq in E1.
    intros E2. apply E. Z.div_mod_to_equations. lia.
Qed.

Lemma weeks_branch_iff (d : Duration) :
  0 <= nsec d <= max_int64 -> nsec d <> 0 ->
  nonzero (Weeks d) && IsWeeksOnly d
  = (nsec d mod Week =? 0) && (nsec d <? Year).
Proof.
  intros Hd Hz.
  pose proof (IsWeeksOnly_spec d Hd) as Hiff.
  destruct (IsWeeksOnly d) eqn:Ewo.
  - destruct (proj1 Hiff eq_refl) as [H1 H2].
    apply Z.eqb_eq in H1. apply Z.ltb_lt in H2. rewrite H1, H2.
    rewrite andb_true_r. cbn [andb].
    unfold IsWeeksOnly in Ewo. apply Z.eqb_eq in Ewo.
    destruct (Weeks d) eqn:Ew; try reflexivity.
    cbn in Ewo. congruence.
  - rewrite andb_false_r. symmetry. apply not_true_iff_false.
    intros H. apply andb_true_iff in H as [H1 H2].
    apply Z.eqb_eq in H1. apply Z.ltb_lt in H2.
    assert (false = true) by (apply Hiff; auto).
    discriminate.
Qed.

(** X11.  The canonical form: a whole number of minutes that is not
    negative is written [P0D] when it is zero, [P<w>W] when it is a whole
    number of weeks below a year, and otherwise with its years, its days
    of the year, its hours and its minutes, each left out when zero; no
    month and no seconds are written. *)
Theorem DurationString_canonical (d : Duration) :
  0 <= nsec d <= max_int64 -> nsec d mod Minute = 0 ->
  DurationString d
  = if nsec d =? 0 then Zero
    else if (nsec d mod Week =? 0) && (nsec d <? Year)
         then "P" ++ string_of_nat_Z (nsec d / Week) ++ "W"
         else full_form (fld (nsec d / Year)) ""
                        (fld ((nsec d / Day) mod 365))
                        (fld ((nsec d / Hour) mod 24))
                        (fld ((nsec d / Minute) mod 60)) "".
Proof.
  intros Hd Hm.
  destruct (nsec d =? 0) eqn:Ez.
  { apply Z.eqb_eq in Ez. destruct d as [z]. cbn [nsec] in Ez. subst z.
    reflexivity. }
  apply Z.eqb_neq in Ez.
  rewrite <- weeks_branch_iff by assumption.
  destruct (nonzero (Weeks d) && IsWeeksOnly d) eqn:Hw.
  - destruct (DurationString_weeks d Hd Ez Hw) as (w & Hb & Hwd & ->).
    rewrite <- Hwd.
    assert (HW : Week = 604800000000000) by reflexivity.
    rewrite Z.div_mul by (rewrite HW; lia). reflexivity.
  - now apply DurationString_whole_minutes.
Qed.

(** X13.  JSON round trip: with a decoder that reads back what the
    encoder wrote of the formatted text, unmarshalling the marshalled
    form of a whole number of minutes that is not negative sets the
    receiver to that duration and returns no error. *)
Theorem JSON_round_trip_whole_minutes
        (Decode : string -> string + JsonError) (Encode : string -> string)
        (d d0 : Duration) :
  Decode (Encode (DurationString d)) = inl (DurationString d) ->
  0 <= nsec d <= max_int64 -> nsec d mod Minute = 0 ->
  UnmarshalJSON Decode d0 (MarshalJSON Encode d) = (d, None).
Proof.
  intros Hcodec Hd Hm. unfold UnmarshalJSON, MarshalJSON.
  now rewrite Hcodec, parse_format_whole_minutes.
Qed.

(** ** The further properties, one by one *)

Lemma ParseString_errors_witness :
  ParseString "PT1.2.3S" = inr (ErrParseFloat ErrSyntax "1.2.3") /\
  (ErrParseFloat ErrSyntax "1.2.3" = ErrBadFormat \/
   exists k part, ErrParseFloat ErrSyntax "1.2.3" = ErrParseFloat k part).
Proof.
  split; [vm_compute; reflexivity|].
  apply (@ParseString_errors "PT1.2.3S"). vm_compute. reflexivity.
Defined.


(** X3.  Text before the first letter P is ignored: the patterns are
    searched from the left and both start with P. *)
Theorem ParseString_ignores_prefix (pre s : string) :
  has_char "P" pre = false -> ParseString (pre ++ s) = ParseString s.
Proof. exact (@ParseString_skips_prefix pre s). Qed.

Lemma ParseString_ignores_prefix_witness :
  has_char "P" "xx " = false /\
  ParseString ("xx " ++ "PT1M") = ParseString "PT1M".
Proof.
  split; [reflexivity|].
  apply (@ParseString_ignores_prefix "xx " "PT1M"). reflexivity.
Defined.

(** X4.  The week form: a text that starts with [P], one or more digits
    and [W] parses to that many weeks, whatever follows, as long as the
    weeks fit an [int64]. *)
Theorem ParseString_week_value (n post : string) :
  n <> "" -> all_digits n = true -> decimal n * Week <= max_int64 ->
  ParseString ("P" ++ n ++ "W" ++ post) = inl (mkDuration (decimal n * Week)).
Proof. exact (@parse_week_value n post). Qed.

Lemma ParseString_week_value_witness :
  ("12" <> "" /\ all_digits "12" = true /\ decimal "12" * Week <= max_int64) /\
  ParseString ("P" ++ "12" ++ "W" ++ "3D") = inl (mkDuration (decimal "12" * Week)).
Proof.
  split; [repeat split; [discriminate|vm_compute; discriminate]|].
  apply (@ParseString_week_value "12" "3D");
    [discriminate|reflexivity|vm_compute; discriminate].
Defined.

Lemma week_path_errors_witness :
  MatchString week ("P1" ++ zeros 309 ++ "W") = true /\
  ParseString ("P1" ++ zeros 309 ++ "W")
  = inr (ErrParseFloat ErrRange ("1" ++ zeros 309)) /\
  exists n, ErrParseFloat ErrRange ("1" ++ zeros 309) = ErrParseFloat ErrRange n
            /\ n <> "" /\ all_digits n = true.
Proof.
  split; [vm_compute; reflexivity|].
  split; [vm_compute; reflexivity|].
  apply (@week_path_errors ("P1" ++ zeros 309 ++ "W")); vm_compute; reflexivity.
Defined.

(** X6.  The full form with whole numbers: when each field is a string
    of digits, the empty string for a designator left out, and the sum
    fits an [int64], [ParseString] returns the sum of the fields in
    their units, a year being 365 days and a month 30. *)
Theorem ParseString_full_form (y mo d h mi s : string) :
  all_digits y = true -> all_digits mo = true -> all_digits d = true ->
  all_digits h = true -> all_digits mi = true -> all_digits s = true ->
  decimal y * Year + decimal mo * Month + decimal d * Day
  + decimal h * Hour + decimal mi * Minute + decimal s * Second <= max_int64 ->
  ParseString (full_form y mo d h mi s)
  = inl (mkDuration
           (decimal y * Year + decimal mo * Month + decimal d * Day
            + decimal h * Hour + decimal mi * Minute + decimal s * Second)).
Proof. exact (@parse_full_form y mo d h mi s). Qed.

Lemma ParseString_full_form_witness :
  full_form "1" "2" "3" "4" "5" "6" = "P1Y2M3DT4H5M6S" /\
  ParseString (full_form "1" "2" "3" "4" "5" "6")
  = inl (mkDuration
           (decimal "1" * Year + decimal "2" * Month + decimal "3" * Day
            + decimal "4" * Hour + decimal "5" * Minute + decimal "6" * Second)).
Proof.
  split; [reflexivity|].
  apply (@ParseString_full_form "1" "2" "3" "4" "5" "6");
    try reflexivity. vm_compute. discriminate.
Defined.

(** X7.  The same without the bound on the sum: the additions and
    multiplications are those of [int64], so the result is the sum
    wrapped around modulo [2^64], which can be negative. *)
Theorem ParseString_full_form_wraps (y mo d h mi s : string) :
  all_digits y = true -> all_digits mo = true -> all_digits d = true ->
  all_digits h = true -> all_digits mi = true -> all_digits s = true ->
  decimal y < 2 ^ prec -> decimal mo < 2 ^ prec -> decimal d < 2 ^ prec ->
  decimal h < 2 ^ prec -> decimal mi < 2 ^ prec -> decimal s < 2 ^ prec ->
  ParseString (full_form y mo d h mi s)
  = inl (mkDuration
           (wrap64 (decimal y * Year + decimal mo * Month + decimal d * Day
                    + decimal h * Hour + decimal mi * Minute
                    + decimal s * Second))).
Proof. exact (@ParseString_full_wrap y mo d h mi s). Qed.

Lemma ParseString_full_form_wraps_witness :
  full_form "300" "" "" "" "" "" = "P300Y" /\
  ParseString (full_form "300" "" "" "" "" "")
  = inl (mkDuration
           (wrap64 (decimal "300" * Year + decimal "" * Month + decimal "" * Day
                    + decimal "" * Hour + decimal "" * Minute
                    + decimal "" * Second))) /\
  wrap64 (decimal "300" * Year) < 0.
Proof.
  split; [reflexivity|]. split; [|reflexivity].
  apply (@ParseString_full_form_wraps "300" "" "" "" "" "");
    reflexivity.
Defined.

(** X8.  For a magnitude that is not negative the accessors are the
    integer decomposition, free of rounding: [Years] is the quotient by
    a year, [Days] the days modulo 365, [Hours] the hours modulo 24,
    [Minutes] the minutes modulo 60, and [Weeks] a seventh of [Days] when
    that is whole and zero otherwise. *)
Theorem accessors_exact (d : Duration) :
  0 <= nsec d <= max_int64 ->
  Years d = of_int (nsec d / Year) /\
  Days d = of_int ((nsec d / Day) mod 365) /\
  Hours d = of_int ((nsec d / Hour) mod 24) /\
  Minutes d = of_int ((nsec d / Minute) mod 60) /\
  Weeks d = of_int (weeks_of ((nsec d / Day) mod 365)).
Proof.
  intros Hd. destruct (accessors_values d Hd) as (HY & HD & HH & HM).
  repeat split; auto. now apply Weeks_exact.
Qed.

Lemma accessors_exact_witness :
  0 <= nsec (mkDuration (400 * Day + 90 * Minute)) <= max_int64 /\
  Years (mkDuration (400 * Day + 90 * Minute)) = of_int 1 /\
  Days (mkDuration (400 * Day + 90 * Minute)) = of_int 35 /\
  Hours (mkDuration (400 * Day + 90 * Minute)) = of_int 1 /\
  Minutes (mkDuration (400 * Day + 90 * Minute)) = of_int 30 /\
  Weeks (mkDuration (400 * Day + 90 * Minute)) = of_int 5.
Proof.
  split; [vm_compute; split; discriminate|].
  apply (accessors_exact (mkDuration (400 * Day + 90 * Minute))).
  vm_compute. split; discriminate.
Defined.

(** X9.  [IsWeeksOnly] holds exactly for the whole numbers of weeks
    below one year: the weeks are taken from [Days], which starts again
    at each year, so 53 weeks are not weeks only. *)
Theorem IsWeeksOnly_iff (d : Duration) :
  0 <= nsec d <= max_int64 ->
  (IsWeeksOnly d = true <-> nsec d mod Week = 0 /\ nsec d < Year).
Proof. exact (IsWeeksOnly_spec d). Qed.

Lemma IsWeeksOnly_iff_witness :
  (0 <= nsec (mkDuration (53 * Week)) <= max_int64) /\
  IsWeeksOnly (mkDuration (53 * Week)) = false /\
  ~ (nsec (mkDuration (53 * Week)) mod Week = 0
     /\ nsec (mkDuration (53 * Week)) < Year).
Proof.
  assert (H : 0 <= nsec (mkDuration (53 * Week)) <= max_int64)
    by (vm_compute; split; discriminate).
  split; [exact H|]. split; [vm_compute; reflexivity|].
  intros Hc. apply (proj2 (IsWeeksOnly_iff (mkDuration (53 * Week)) H)) in Hc.
  vm_compute in Hc. discriminate.
Defined.

(** X10.  A whole number of minutes has no seconds, and it has a time
    part exactly when it is not a whole number of days. *)
Theorem time_part_of_whole_minutes (d : Duration) :
  0 <= nsec d <= max_int64 -> nsec d mod Minute = 0 ->
  Seconds d = S754_zero false /\
  HasTimePart d = negb (nsec d mod Day =? 0).
Proof.
  intros Hd Hm. split.
  - now apply Seconds_whole_minutes.
  - now apply HasTimePart_minutes.
Qed.

Lemma time_part_of_whole_minutes_witness :
  (0 <= nsec (mkDuration (3 * Day)) <= max_int64 /\
   nsec (mkDuration (3 * Day)) mod Minute = 0) /\
  Seconds (mkDuration (3 * Day)) = S754_zero false /\
  HasTimePart (mkDuration (3 * Day))
  = negb (nsec (mkDuration (3 * Day)) mod Day =? 0).
Proof.
  split; [split; [vm_compute; split; discriminate|reflexivity]|].
  apply (time_part_of_whole_minutes (mkDuration (3 * Day)));
    [vm_compute; split; discriminate|reflexivity].
Defined.

Lemma DurationString_canonical_witness :
  (0 <= nsec (mkDuration (400 * Day + 90 * Minute)) <= max_int64 /\
   nsec (mkDuration (400 * Day + 90 * Minute)) mod Minute = 0) /\
  DurationString (mkDuration (400 * Day + 90 * Minute))
  = full_form "1" "" "35" "1" "30" "".
Proof.
  split; [split; [vm_compute; split; discriminate|reflexivity]|].
  rewrite (DurationString_canonical (mkDuration (400 * Day + 90 * Minute)));
    [reflexivity|vm_compute; split; discriminate|reflexivity].
Defined.

(** X12.  Round trip: for every magnitude that is not negative and is a
    whole number of minutes, parsing the text the formatter produces
    gives the duration back. *)
Theorem round_trip_whole_minutes (d : Duration) :
  0 <= nsec d <= max_int64 -> nsec d mod Minute = 0 ->
  ParseString (DurationString d) = inl d.
Proof. exact (parse_format_whole_minutes d). Qed.

Lemma round_trip_whole_minutes_witness :
  (0 <= nsec (mkDuration (400 * Day + 90 * Minute)) <= max_int64 /\
   nsec (mkDuration (400 * Day + 90 * Minute)) mod Minute = 0) /\
  ParseString (DurationString (mkDuration (400 * Day + 90 * Minute)))
  = inl (mkDuration (400 * Day + 90 * Minute)).
Proof.
  split; [split; [vm_compute; split; discriminate|reflexivity]|].
  apply (round_trip_whole_minutes (mkDuration (400 * Day + 90 * Minute)));
    [vm_compute; split; discriminate|reflexivity].
Defined.

Lemma JSON_round_trip_whole_minutes_witness :
  (Json.Decode (Json.Encode (DurationString (mkDuration (90 * Minute))))
   = inl (DurationString (mkDuration (90 * Minute))) /\
   0 <= nsec (mkDuration (90 * Minute)) <= max_int64 /\
   nsec (mkDuration (90 * Minute)) mod Minute = 0) /\
  UnmarshalJSON Json.Decode (mkDuration 0)
                (MarshalJSON Json.Encode (mkDuration (90 * Minute)))
  = (mkDuration (90 * Minute), None).
Proof.
  split; [split; [vm_compute; reflexivity|
                  split; [vm_compute; split; discriminate|reflexivity]]|].
  apply (@JSON_round_trip_whole_minutes Json.Decode Json.Encode
           (mkDuration (90 * Minute)) (mkDuration 0));
    [vm_compute; reflexivity|vm_compute; split; discriminate|reflexivity].
Defined.

(** ** Rounding an inexact mantissa *)

Lemma shr_1_m (r : shr_record) :
  0 <= shr_m r -> shr_m (shr_1 r) = shr_m r / 2.
Proof.
  destruct r as [m r s]. cbn [shr_m]. intros Hm.
  destruct m as [|[p|p|]|p]; cbn [shr_1 shr_m]; try reflexivity; try lia.
  - rewrite Pos2Z.inj_xI. apply Z.div_unique with 1; lia.
  - rewrite Pos2Z.inj_xO. apply Z.div_unique with 0; lia.
Qed.

Lemma iter_shr_1_m (k : nat) (r : shr_record) :
  0 <= shr_m r -> shr_m (Nat.iter k shr_1 r) = shr_m r / 2 ^ Z.of_nat k.
Proof.
  intros Hm. induction k as [|k IH].
  - simpl. now rewrite Z.div_1_r.
  - rewrite Nat.iter_succ, shr_1_m.
    + rewrite IH, Nat2Z.inj_succ, Z.pow_succ_r, Z.div_div by lia.
      f_equal. lia.
    + rewrite IH. apply Z.div_pos; [exact Hm|apply Z.pow_pos_nonneg; lia].
Qed.

Lemma shr_value (r : shr_record) (e n : Z) :
  0 <= n -> shr r e n = (Nat.iter (Z.to_nat n) shr_1 r, e + n).
Proof.
  intros Hn. unfold shr. destruct n as [|p|p]; [| |lia].
  - now rewrite Z.add_0_r.
  - now rewrite iter_pos_nat.
Qed.

Lemma round_nearest_even_cases (q : Z) (l : location) :
  round_nearest_even q l = q \/ round_nearest_even q l = q + 1.
Proof.
  destruct l as [|[| |]]; cbn [round_nearest_even]; auto.
  destruct (Z.even q); auto.
Qed.

Lemma shr_m_of_loc (m : Z) (l : location) : shr_m (shr_record_of_loc m l) = m.
Proof. destruct l as [|[| |]]; reflexivity. Qed.

(** A mantissa of [53 + k] digits rounds to one of the two neighbours of
    its first 53 digits, whatever the location of the digits already
    dropped. *)
Lemma binary_round_aux_near (M : positive) (E k : Z) (l : location) :
  Zpos (digits2_pos M) = prec + k -> 0 <= k ->
  3 - emax - prec <= E + k < emax - prec ->
  exists m' j,
    binary_round_aux prec emax false (Zpos M) E l
    = S754_finite false m' (E + k + j)
    /\ (j = 0 \/ j = 1)
    /\ (Zpos m' * 2 ^ j = Zpos M / 2 ^ k \/ Zpos m' * 2 ^ j = Zpos M / 2 ^ k + 1)
    /\ Zpos (digits2_pos m') = prec.
Proof.
  intros HD Hk HE.
  destruct (digits2_pos_bounds M) as [Hlo Hhi]. rewrite HD in Hlo, Hhi.
  assert (H2k : 0 < 2 ^ k) by (apply Z.pow_pos_nonneg; lia).
  assert (Hq : 2 ^ (prec - 1) <= Zpos M / 2 ^ k < 2 ^ prec).
  { split.
    - apply Z.div_le_lower_bound; [lia|].
      rewrite Z.mul_comm, <- Z.pow_add_r by (unfold prec; lia).
      replace (prec - 1 + k) with (prec + k - 1) by lia. exact Hlo.
    - apply Z.div_lt_upper_bound; [lia|].
      rewrite <- Z.pow_add_r by (unfold prec; lia).
      replace (k + prec) with (prec + k) by lia. exact Hhi. }
  unfold binary_round_aux, shr_fexp.
  cbn [Zdigits2]. rewrite HD.
  assert (Hf : SpecFloat.fexp prec emax (prec + k + E) - E = k).
  { unfold SpecFloat.fexp, SpecFloat.emin, prec, emax in *. lia. }
  rewrite Hf, shr_value by exact Hk.
  set (r1 := Nat.iter (Z.to_nat k) shr_1 (shr_record_of_loc (Zpos M) l)).
  assert (Hr1 : shr_m r1 = Zpos M / 2 ^ k).
  { unfold r1. rewrite iter_shr_1_m by (rewrite shr_m_of_loc; lia).
    now rewrite shr_m_of_loc, Z2Nat.id. }
  set (q := Zpos M / 2 ^ k) in *.
  set (r := round_nearest_even (shr_m r1) (loc_of_shr_record r1)).
  assert (Hr : r = q \/ r = q + 1).
  { unfold r. rewrite <- Hr1. apply round_nearest_even_cases. }
  assert (Hp : 2 ^ prec = 2 * 2 ^ (prec - 1)) by reflexivity.
  destruct (Z_lt_le_dec r (2 ^ prec)) as [Hlt|Hge].
  - assert (Hrpos : 0 < r).
    { assert (0 < 2 ^ (prec - 1)) by (apply Z.pow_pos_nonneg; unfold prec; lia). lia. }
    destruct r as [|m'|m'] eqn:Er; [lia| |lia].
    assert (Hd' : Zpos (digits2_pos m') = prec).
    { apply digits2_pos_unique. lia. }
    cbn [Zdigits2 shr_record_of_loc]. rewrite Hd'.
    assert (Hf' : SpecFloat.fexp prec emax (prec + (E + k)) - (E + k) = 0).
    { unfold SpecFloat.fexp, SpecFloat.emin, prec, emax in *. lia. }
    rewrite Hf'. cbn [shr shr_m].
    assert (Hle : (E + k <=? emax - prec) = true) by (apply Z.leb_le; lia).
    rewrite Hle. exists m', 0. rewrite Z.add_0_r, Z.pow_0_r, Z.mul_1_r.
    repeat split; auto.
  - assert (Er : r = 2 ^ prec) by lia.
    rewrite Er. change (2 ^ prec) with (Zpos (Pos.iter xO 1%positive 53)).
    cbn [Zdigits2 shr_record_of_loc].
    change (Zpos (digits2_pos (Pos.iter xO 1%positive 53))) with (prec + 1).
    assert (Hf' : SpecFloat.fexp prec emax (prec + 1 + (E + k)) - (E + k) = 1).
    { unfold SpecFloat.fexp, SpecFloat.emin, prec, emax in *. lia. }
    rewrite Hf'.
    change (shr (Build_shr_record (Zpos (Pos.iter xO 1%positive 53)) false false) (E + k) 1)
      with (Build_shr_record (Zpos (Pos.iter xO 1%positive 52)) false false, E + k + 1).
    cbn [shr_m].
    assert (Hle : (E + k + 1 <=? emax - prec) = true) by (apply Z.leb_le; lia).
    rewrite Hle. exists (Pos.iter xO 1%positive 52), 1.
    split; [reflexivity|]. split; [auto|]. split; [|reflexivity].
    right. change (Zpos (Pos.iter xO 1%positive 52) * 2 ^ 1) with (2 ^ prec). lia.
Qed.

Lemma shl_align_value (mx : positive) (ex ez : Z) :
  ez <= ex -> Zpos (fst (shl_align mx ex ez)) = Zpos mx * 2 ^ (ex - ez).
Proof.
  intros H. unfold shl_align. destruct (ez - ex) as [|d|d] eqn:E; cbn [fst].
  - replace (ex - ez) with 0 by lia. simpl. lia.
  - lia.
  - rewrite iter_xO_value. f_equal. f_equal. lia.
Qed.

Lemma lt_succ_mul (a X K : Z) : 0 < K -> a <= X * K -> a < K * Z.succ X.
Proof. intros HK Ha. nia. Qed.

Lemma near_quotient (T A U F G Y : Z) :
  U = G * Y -> 0 < G -> 2 <= Y -> 0 <= F <= (G - 1) * Y ->
  T = A * U + F \/ T = A * U + F + 1 ->
  0 <= T - A * U < U.
Proof. intros -> HG HY HF [-> | ->]; nia. Qed.

Lemma Trunc_fraction (g : Z) (y : float64) :
  fraction_below g y = true -> Trunc y = S754_zero false.
Proof.
  destruct y as [| | |[|] my ey]; try discriminate. cbn [fraction_below].
  intros H. repeat (apply andb_true_iff in H as [H ?]).
  apply Z.eqb_eq in H. apply Z.leb_le in H0, H1, H2.
  destruct (digits2_pos_bounds my) as [_ Hhi]. rewrite H in Hhi.
  cbn [Trunc]. unfold int_part.
  destruct ey as [|e|e]; [unfold prec in *; lia|unfold prec in *; lia|].
  rewrite Z.shiftr_div_pow2 by lia.
  rewrite Z.div_small; [reflexivity|].
  split; [lia|].
  assert (2 ^ prec <= 2 ^ Zpos e) by (apply Z.pow_le_mono_r; unfold prec in *; lia).
  lia.
Qed.

(** Adding a fraction of at most [1 - 2^-g] to an integer below
    [2^(52-g)] and truncating gives the integer back. *)
Lemma Trunc_add_fraction (g : Z) (a : positive) (y : float64) :
  0 < g -> Zpos a < 2 ^ (prec - 1 - g) -> fraction_below g y = true ->
  Trunc (add (of_int (Zpos a)) y) = of_int (Zpos a).
Proof.
  intros Hg Ha Hy.
  destruct y as [| | |[|] my ey]; try discriminate. cbn [fraction_below] in Hy.
  repeat (apply andb_true_iff in Hy as [Hy ?]).
  apply Z.eqb_eq in Hy. apply Z.leb_le in H, H0, H1.
  rename Hy into Hdy, H1 into Hey, H0 into Hey', H into Hfr.
  assert (Hg' : g < prec - 1).
  { destruct (Z_lt_le_dec g (prec - 1)) as [|Hge]; [assumption|]. exfalso.
    assert (2 ^ (prec - 1 - g) <= 1).
    { destruct (Z.eq_dec (prec - 1 - g) 0) as [->|]; [simpl; lia|].
      rewrite Z.pow_neg_r by lia. lia. }
    lia. }
  assert (Ha' : Zpos a < 2 ^ prec).
  { apply Z.lt_le_trans with (2 ^ (prec - 1 - g)); [exact Ha|].
    apply Z.pow_le_mono_r; lia. }
  assert (Hda : Zpos (digits2_pos a) <= prec - 1 - g)
    by (apply digits2_pos_le; [lia|exact Ha]).
  pose proof (Pos2Z.is_pos (digits2_pos a)) as Hda0.
  set (da := Zpos (digits2_pos a)) in *.
  set (t := - ey) in *.
  assert (Ht : prec <= t <= 100) by (unfold t; lia).
  rewrite (of_int_exact Ha'). fold da.
  unfold add, SFadd. cbn [cond_Zopp].
  assert (Hmin : Z.min (da - prec) ey = ey) by (unfold prec in *; lia).
  rewrite Hmin.
  pose proof (@shl_align_value (exact_mant a) (da - prec) ey ltac:(unfold prec in *; lia)) as Vx.
  pose proof (@shl_align_value my ey ey ltac:(lia)) as Vy.
  rewrite Z.sub_diag, Z.pow_0_r, Z.mul_1_r in Vy.
  rewrite (exact_mant_value Ha') in Vx. fold da in Vx.
  rewrite <- Z.mul_assoc, <- Z.pow_add_r in Vx by (unfold prec in *; lia).
  replace (prec - da + (da - prec - ey)) with t in Vx by (unfold t; lia).
  set (mx' := fst (shl_align (exact_mant a) (da - prec) ey)) in *.
  set (my' := fst (shl_align my ey ey)) in *.
  change (Zpos mx' + Zpos my') with (Zpos (mx' + my')).
  assert (VM : Zpos (mx' + my') = Zpos a * 2 ^ t + Zpos my)
    by (rewrite Pos2Z.inj_add; lia).
  set (M := (mx' + my')%positive) in *.
  destruct (digits2_pos_bounds my) as [Lmy Umy]. rewrite Hdy in Lmy, Umy.
  destruct (digits2_pos_bounds a) as [La Ua]. fold da in La, Ua.
  assert (H2t : 0 < 2 ^ t) by (apply Z.pow_pos_nonneg; lia).
  assert (Hpt : 2 ^ prec <= 2 ^ t) by (apply Z.pow_le_mono_r; lia).
  assert (HDM : Zpos (digits2_pos M) = da + t).
  { apply digits2_pos_unique. rewrite VM.
    replace (da + t - 1) with (da - 1 + t) by lia.
    rewrite !Z.pow_add_r by lia. split; nia. }
  cbn [binary_normalize]. unfold binary_round. rewrite HDM.
  assert (Hf : SpecFloat.fexp prec emax (da + t + ey) = da - prec).
  { unfold SpecFloat.fexp, SpecFloat.emin, prec, emax, t in *. lia. }
  rewrite Hf. unfold shl_align.
  destruct (da - prec - ey) as [|n|n] eqn:En;
    [|clear En|unfold prec, t in *; lia].
  { unfold prec, t in *. lia. }
  set (k := da + t - prec).
  destruct (@binary_round_aux_near M ey k loc_Exact) as (m' & j & -> & Hj & Hm' & _).
  { rewrite HDM. unfold k. lia. }
  { unfold k, prec in *. lia. }
  { unfold k, t, prec, emax in *. lia. }
  set (u := prec - da).
  assert (Hu : g + 1 <= u) by (unfold u; lia).
  replace (ey + k + j) with (- (u - j)) by (unfold u, k, t; lia).
  cbn [Trunc]. unfold int_part.
  destruct (- (u - j)) as [|e|e] eqn:Ee; [lia|lia|].
  rewrite Z.shiftr_div_pow2 by lia.
  replace (Zpos e) with (u - j) by lia.
  assert (H2j : 0 < 2 ^ j) by (apply Z.pow_pos_nonneg; lia).
  assert (H2k : 0 < 2 ^ k) by (apply Z.pow_pos_nonneg; unfold k, prec in *; lia).
  assert (H2u : 0 < 2 ^ u) by (apply Z.pow_pos_nonneg; lia).
  assert (H2g : 0 < 2 ^ g) by (apply Z.pow_pos_nonneg; lia).
  assert (Hdiv : Zpos m' / 2 ^ (u - j) = (Zpos m' * 2 ^ j) / 2 ^ u).
  { replace (2 ^ u) with (2 ^ (u - j) * 2 ^ j)
      by (rewrite <- Z.pow_add_r by lia; f_equal; lia).
    rewrite Z.div_mul_cancel_r; [reflexivity| |lia].
    apply Z.pow_nonzero; lia. }
  rewrite Hdiv.
  assert (Htk : 2 ^ t = 2 ^ u * 2 ^ k).
  { rewrite <- Z.pow_add_r by (unfold k, prec in *; lia). f_equal. unfold u, k. lia. }
  assert (Hq : Zpos M / 2 ^ k = Zpos a * 2 ^ u + Zpos my / 2 ^ k).
  { rewrite VM, Htk, Z.mul_assoc. rewrite Z.div_add_l by lia. reflexivity. }
  assert (Hug : 2 ^ u = 2 ^ g * 2 ^ (u - g)).
  { rewrite <- Z.pow_add_r by lia. f_equal. lia. }
  assert (H2ug : 2 <= 2 ^ (u - g)).
  { change 2 with (2 ^ 1) at 1. apply Z.pow_le_mono_r; lia. }
  assert (Hfrac : 0 <= Zpos my / 2 ^ k <= (2 ^ g - 1) * 2 ^ (u - g)).
  { split; [apply Z.div_pos; lia|].
    apply Z.lt_succ_r. apply Z.div_lt_upper_bound; [exact H2k|].
    apply lt_succ_mul; [exact H2k|].
    apply (Z.mul_le_mono_pos_r _ _ (2 ^ g)); [exact H2g|].
    fold t in Hfr. rewrite Htk, Hug in Hfr.
    replace ((2 ^ g - 1) * 2 ^ (u - g) * 2 ^ k * 2 ^ g)
      with ((2 ^ g - 1) * (2 ^ g * 2 ^ (u - g) * 2 ^ k)) by ring.
    exact Hfr. }
  assert (Hval : (Zpos m' * 2 ^ j) / 2 ^ u = Zpos a).
  { symmetry. apply Z.div_unique with (Zpos m' * 2 ^ j - Zpos a * 2 ^ u); [|ring].
    left. rewrite Hq in Hm'.
    apply (@near_quotient _ _ _ (Zpos my / 2 ^ k) (2 ^ g) (2 ^ (u - g)));
      [exact Hug|exact H2g|exact H2ug|exact Hfrac|exact Hm']. }
  rewrite Hval. exact (of_int_exact Ha').
Qed.

(** The difference of two integers is exact when it is an integer below
    [2^53] times a power of two. *)
Lemma sub_of_int (pa pb pc : positive) (ja jb jc : Z) :
  Zpos pa < 2 ^ prec -> Zpos pb < 2 ^ prec -> Zpos pc < 2 ^ prec ->
  0 <= ja <= 64 -> 0 <= jb <= 64 -> Z.min ja jb <= jc <= 64 ->
  Zpos pa * 2 ^ ja - Zpos pb * 2 ^ jb = Zpos pc * 2 ^ jc ->
  sub (of_int (Zpos pa * 2 ^ ja)) (of_int (Zpos pb * 2 ^ jb))
  = of_int (Zpos pc * 2 ^ jc).
Proof.
  intros Ha Hb Hc Hja Hjb Hjc Heq.
  assert (Hda : Zpos (digits2_pos pa) <= prec)
    by (apply digits2_pos_le; [unfold prec; lia|exact Ha]).
  assert (Hdb : Zpos (digits2_pos pb) <= prec)
    by (apply digits2_pos_le; [unfold prec; lia|exact Hb]).
  assert (Hdc : Zpos (digits2_pos pc) <= prec)
    by (apply digits2_pos_le; [unfold prec; lia|exact Hc]).
  pose proof (Pos2Z.is_pos (digits2_pos pa)).
  pose proof (Pos2Z.is_pos (digits2_pos pb)).
  pose proof (Pos2Z.is_pos (digits2_pos pc)).
  unfold of_int.
  rewrite !binary_normalize_exact by (auto; unfold prec, emax in *; lia).
  unfold sub, SFsub. cbn [cond_Zopp].
  set (ex := Zpos (digits2_pos pa) - prec + ja + 0).
  set (ey := Zpos (digits2_pos pb) - prec + jb + 0).
  set (ez := Z.min ex ey).
  assert (Hez : ez <= ex /\ ez <= ey /\ ez <= Z.min ja jb)
    by (unfold ez, ex, ey; lia).
  rewrite !shl_align_value by lia.
  rewrite !exact_mant_value by assumption.
  rewrite <- !Z.mul_assoc, <- !Z.pow_add_r by (unfold ex, ey, prec in *; lia).
  replace (prec - Zpos (digits2_pos pa) + (ex - ez)) with (ja - ez) by (unfold ex; lia).
  replace (prec - Zpos (digits2_pos pb) + (ey - ez)) with (jb - ez) by (unfold ey; lia).
  set (j0 := Z.min ja jb) in *.
  assert (E0 : Zpos pa * 2 ^ (ja - j0) - Zpos pb * 2 ^ (jb - j0)
               = Zpos pc * 2 ^ (jc - j0)).
  { apply (Z.mul_cancel_r _ _ (2 ^ j0)); [apply Z.pow_nonzero; unfold j0; lia|].
    rewrite Z.mul_sub_distr_r, <- !Z.mul_assoc, <- !Z.pow_add_r by (unfold j0; lia).
    replace (ja - j0 + j0) with ja by lia.
    replace (jb - j0 + j0) with jb by lia.
    replace (jc - j0 + j0) with jc by lia. exact Heq. }
  assert (E1 : Zpos pa * 2 ^ (ja - ez) - Zpos pb * 2 ^ (jb - ez)
               = Zpos pc * 2 ^ (jc - ez)).
  { replace (ja - ez) with (ja - j0 + (j0 - ez)) by lia.
    replace (jb - ez) with (jb - j0 + (j0 - ez)) by lia.
    replace (jc - ez) with (jc - j0 + (j0 - ez)) by lia.
    rewrite !Z.pow_add_r by (unfold j0; lia).
    rewrite !Z.mul_assoc, <- Z.mul_sub_distr_r, E0. reflexivity. }
  rewrite E1.
  rewrite binary_normalize_exact; auto; try lia.
  - f_equal. lia.
  - unfold ez, ex, ey, prec, emax in *. lia.
Qed.

Lemma second_table (s : Z) :
  0 < s < 60 ->
  fraction_below 6 (div (of_int (s * Second)) (of_int (60 * 1000000000))) = true
  /\ div (of_int (s * Second)) (of_int Second) = of_int s.
Proof.
  intros Hs.
  assert (H : second_ok s = true).
  { apply (forallb_below second_ok 60); [vm_compute; reflexivity|lia]. }
  unfold second_ok in H.
  destruct (s =? 0) eqn:E; [apply Z.eqb_eq in E; lia|].
  cbn [orb] in H. apply andb_true_iff in H as [H1 H2].
  split; [exact H1|now apply float_eqb_eq].
Qed.

Lemma add_zero_l (g : Z) (y : float64) :
  fraction_below g y = true -> add (S754_zero false) y = y.
Proof. destruct y as [| | |[|] my ey]; try discriminate. reflexivity. Qed.

Lemma sub_of_int_zero (z : Z) :
  0 <= z < 2 ^ prec -> sub (of_int z) (S754_zero false) = of_int z.
Proof.
  intros [H0 H1]. destruct z as [|p|p]; [reflexivity| |lia].
  now rewrite of_int_exact.
Qed.

(** The seconds of a whole number of seconds below [2^62] nanoseconds
    are exact. *)
Lemma Seconds_whole_seconds (d : Duration) :
  0 <= nsec d < 2 ^ 62 -> nsec d mod Second = 0 ->
  Seconds d = of_int ((nsec d / Second) mod 60).
Proof.
  intros Hd Hs.
  assert (HMi : Minute = 60000000000) by reflexivity.
  assert (HS : Second = 1000000000) by reflexivity.
  assert (Hmax : max_int64 = 9223372036854775807) by reflexivity.
  assert (H62 : 2 ^ 62 = 4611686018427387904) by reflexivity.
  assert (Hp : 2 ^ prec = 9007199254740992) by reflexivity.
  assert (H46 : 2 ^ 46 = 70368744177664) by reflexivity.
  set (s := (nsec d / Second) mod 60).
  assert (Hsb : 0 <= s < 60) by (apply Z.mod_pos_bound; lia).
  destruct (Z.eq_dec s 0) as [Hs0|Hs0].
  { rewrite Hs0. apply Seconds_whole_minutes.
    - rewrite Hmax, H62 in *. lia.
    - unfold s in Hs0. rewrite HMi, HS in *.
      Z.div_mod_to_equations. lia. }
  set (m := nsec d / Minute).
  set (c := nsec d / Second).
  assert (Hn : nsec d = m * Minute + s * Second /\ nsec d = c * Second).
  { unfold m, s, c. rewrite HMi, HS in *. Z.div_mod_to_equations. lia. }
  destruct Hn as [Hn Hc].
  assert (Hmb : 0 <= m < 2 ^ 27).
  { unfold m. rewrite HMi, H62 in *. change (2 ^ 27) with 134217728. split.
    - apply Z.div_pos; lia.
    - apply Z.div_lt_upper_bound; lia. }
  change (2 ^ 27) with 134217728 in Hmb.
  assert (Hcb : 0 < c /\ c * 1953125 < 2 ^ prec).
  { rewrite Hp, HS, HMi, H62 in *. lia. }
  destruct (@second_table s ltac:(lia)) as [Tf Td].
  unfold Seconds, time_Minutes.
  rewrite Z.quot_div_nonneg, Z.rem_mod_nonneg by (rewrite ?HMi; lia).
  fold m.
  assert (Hrem : nsec d mod Minute = s * Second).
  { rewrite HMi, HS in *. unfold m in Hn. Z.div_mod_to_equations. lia. }
  rewrite Hrem.
  destruct m as [|a|a]; [| |lia].
  - (* less than a minute *)
    change (of_int 0) with (S754_zero false).
    rewrite (add_zero_l _ _ Tf), (Trunc_fraction _ _ Tf).
    change (mul (S754_zero false) (of_int Minute)) with (S754_zero false).
    rewrite Hn, Z.mul_0_l, Z.add_0_l.
    rewrite sub_of_int_zero by (rewrite Hp, HS; lia).
    exact Td.
  - rewrite (@Trunc_add_fraction 6) by (first [exact Tf|change (2 ^ (prec - 1 - 6)) with 70368744177664; lia]).
    assert (Hab : Zpos a * Minute = Zpos (a * 29296875) * 2 ^ 11).
    { rewrite HMi, Pos2Z.inj_mul. lia. }
    change Minute with (Zpos 60000000000) in Hab |- *.
    rewrite (@mul_of_int a 60000000000 (a * 29296875) 11)
      by (first [exact Hab|rewrite ?Hp, ?Pos2Z.inj_mul; lia]).
    rewrite Hab.
    destruct c as [|c'|c']; [lia| |lia].
    destruct s as [|b|b]; [lia| |lia].
    assert (Hnc : nsec d = Zpos (c' * 1953125) * 2 ^ 9).
    { rewrite Hc, HS, Pos2Z.inj_mul. lia. }
    assert (Hsb' : Zpos b * Second = Zpos (b * 1953125) * 2 ^ 9).
    { rewrite HS, Pos2Z.inj_mul. lia. }
    rewrite Hnc.
    rewrite (@sub_of_int (c' * 1953125) (a * 29296875) (b * 1953125) 9 11 9);
      try (rewrite ?Hp, ?Pos2Z.inj_mul; lia).
    rewrite <- Hsb'. exact Td.
Qed.

(** ** Whole seconds *)

Lemma whole_seconds_fields (n : Z) :
  0 <= n < 2 ^ 62 ->
  0 <= n <= max_int64 /\
  0 <= n / Year < 1000 /\ 0 <= (n / Day) mod 365 < 1000 /\
  0 <= (n / Hour) mod 24 < 1000 /\ 0 <= (n / Minute) mod 60 < 1000 /\
  0 <= (n / Second) mod 60 < 1000.
Proof.
  intros Hn.
  assert (HY : Year = 31536000000000000) by reflexivity.
  assert (Hmax : max_int64 = 9223372036854775807) by reflexivity.
  assert (H62 : 2 ^ 62 = 4611686018427387904) by reflexivity.
  rewrite H62 in Hn. split; [rewrite Hmax; lia|].
  split.
  { rewrite HY. split; [apply Z.div_pos; lia|apply Z.div_lt_upper_bound; lia]. }
  pose proof (Z.mod_pos_bound (n / Day) 365).
  pose proof (Z.mod_pos_bound (n / Hour) 24).
  pose proof (Z.mod_pos_bound (n / Minute) 60).
  pose proof (Z.mod_pos_bound (n / Second) 60).
  lia.
Qed.

(** The formatter's text for a whole number of seconds that is not
    written in weeks. *)
Lemma DurationString_whole_seconds (d : Duration) :
  0 <= nsec d < 2 ^ 62 -> nsec d mod Second = 0 -> nsec d <> 0 ->
  nonzero (Weeks d) && IsWeeksOnly d = false ->
  DurationString d
  = full_form (fld (nsec d / Year)) "" (fld ((nsec d / Day) mod 365))
              (fld ((nsec d / Hour) mod 24)) (fld ((nsec d / Minute) mod 60))
              (fld ((nsec d / Second) mod 60)).
Proof.
  intros Hd Hm Hz Hw. unfold DurationString, full_form, HasTimePart.
  rewrite Hw. unfold IsZero. apply Z.eqb_neq in Hz. rewrite Hz.
  rewrite Seconds_whole_seconds by assumption.
  destruct (whole_seconds_fields Hd) as (Hd' & Hy & Hdd & Hh & Hmi & Hs).
  destruct (accessors_values d Hd') as (-> & -> & -> & ->).
  unfold time_part.
  rewrite !opt_desig_fld by assumption.
  cbn [opt_desig append nonzero orb].
  destruct (nonzero (of_int (nsec d / Year)));
    destruct (nonzero (of_int ((nsec d / Day) mod 365)));
    destruct (nonzero (of_int ((nsec d / Hour) mod 24))) eqn:Eh;
    destruct (nonzero (of_int ((nsec d / Minute) mod 60))) eqn:Em;
    destruct (nonzero (of_int ((nsec d / Second) mod 60))) eqn:Es;
    cbn [orb append];
    rewrite ?app_nil_r_str, ?T_prefix_app, ?T_prefix_app1;
    reflexivity.
Qed.

Lemma whole_seconds_not_weeks (d : Duration) :
  0 <= nsec d <= max_int64 -> nsec d <> 0 ->
  nonzero (Weeks d) && IsWeeksOnly d = true -> nsec d mod Minute = 0.
Proof.
  intros Hd Hz Hw. rewrite weeks_branch_iff in Hw by assumption.
  apply andb_true_iff in Hw as [Hw _]. apply Z.eqb_eq in Hw.
  assert (HW : Week = 604800000000000) by reflexivity.
  assert (HMi : Minute = 60000000000) by reflexivity.
  rewrite HW, HMi in *. Z.div_mod_to_equations. lia.
Qed.

Lemma parse_format_whole_seconds (d : Duration) :
  0 <= nsec d < 2 ^ 62 -> nsec d mod Second = 0 ->
  ParseString (DurationString d) = inl d.
Proof.
  intros Hd Hm.
  destruct (whole_seconds_fields Hd) as (Hd' & Hy & Hdd & Hh & Hmi & Hs).
  destruct (Z.eq_dec (nsec d) 0) as [Hz|Hz].
  { destruct d as [z]. cbn [nsec] in Hz. subst z. vm_compute. reflexivity. }
  destruct (nonzero (Weeks d) && IsWeeksOnly d) eqn:Hw.
  - apply parse_format_whole_minutes; [exact Hd'|].
    now apply whole_seconds_not_weeks.
  - rewrite DurationString_whole_seconds by assumption.
    assert (HY : Year = 31536000000000000) by reflexivity.
    assert (HD : Day = 86400000000000) by reflexivity.
    assert (HH : Hour = 3600000000000) by reflexivity.
    assert (HMi : Minute = 60000000000) by reflexivity.
    assert (HS : Second = 1000000000) by reflexivity.
    assert (Hmax : max_int64 = 9223372036854775807) by reflexivity.
    destruct (fld_facts Hy) as [Ay Vy]. destruct (fld_facts Hdd) as [Ad Vd].
    destruct (fld_facts Hh) as [Ah Vh]. destruct (fld_facts Hmi) as [Ami Vmi].
    destruct (fld_facts Hs) as [As Vs].
    assert (Hsum : nsec d / Year * Year + 0 * Month
                   + (nsec d / Day) mod 365 * Day
                   + (nsec d / Hour) mod 24 * Hour
                   + (nsec d / Minute) mod 60 * Minute
                   + (nsec d / Second) mod 60 * Second = nsec d).
    { rewrite HY, HD, HH, HMi, HS in *. Z.div_mod_to_equations. lia. }
    rewrite parse_full_form; auto;
      rewrite ?Vy, ?Vd, ?Vh, ?Vmi, ?Vs; change (decimal "") with 0.
    + rewrite Hsum. now destruct d.
    + rewrite Hsum. lia.
Qed.

(** X14.  [Seconds] is exact on whole seconds: for a whole number of
    seconds that is not negative and is below [2^62] nanoseconds it
    returns the seconds of the minute, a whole number from 0 to 59. *)
Theorem Seconds_exact (d : Duration) :
  0 <= nsec d < 2 ^ 62 -> nsec d mod Second = 0 ->
  Seconds d = of_int ((nsec d / Second) mod 60).
Proof. exact (@Seconds_whole_seconds d). Qed.

Lemma Seconds_exact_witness :
  (0 <= nsec (mkDuration (3 * Hour + 125 * Second)) < 2 ^ 62 /\
   nsec (mkDuration (3 * Hour + 125 * Second)) mod Second = 0) /\
  Seconds (mkDuration (3 * Hour + 125 * Second))
  = of_int ((nsec (mkDuration (3 * Hour + 125 * Second)) / Second) mod 60).
Proof.
  split; [vm_compute; repeat split; discriminate|].
  apply (@Seconds_exact (mkDuration (3 * Hour + 125 * Second)));
    [vm_compute; split; [discriminate|reflexivity]|reflexivity].
Defined.

(** X15.  The canonical form with seconds: a whole number of seconds
    that is not negative and is below [2^62] nanoseconds is written
    [P0D] when it is zero, [P<w>W] when it is a whole number of weeks
    below a year, and otherwise with its years, its days of the year,
    its hours, its minutes and its seconds of the minute, in plain
    decimal digits, each left out when zero. *)
Theorem DurationString_whole_seconds_form (d : Duration) :
  0 <= nsec d < 2 ^ 62 -> nsec d mod Second = 0 ->
  DurationString d
  = if nsec d =? 0 then Zero
    else if (nsec d mod Week =? 0) && (nsec d <? Year)
         then "P" ++ string_of_nat_Z (nsec d / Week) ++ "W"
         else full_form (fld (nsec d / Year)) ""
                        (fld ((nsec d / Day) mod 365))
                        (fld ((nsec d / Hour) mod 24))
                        (fld ((nsec d / Minute) mod 60))
                        (fld ((nsec d / Second) mod 60)).
Proof.
  intros Hd Hm.
  destruct (whole_seconds_fields Hd) as (Hd' & _).
  destruct (nsec d =? 0) eqn:Ez.
  { apply Z.eqb_eq in Ez. destruct d as [z]. cbn [nsec] in Ez. subst z.
    reflexivity. }
  apply Z.eqb_neq in Ez.
  rewrite <- weeks_branch_iff by assumption.
  destruct (nonzero (Weeks d) && IsWeeksOnly d) eqn:Hw.
  - destruct (DurationString_weeks d Hd' Ez Hw) as (w & Hb & Hwd & ->).
    rewrite <- Hwd.
    assert (HW : Week = 604800000000000) by reflexivity.
    rewrite Z.div_mul by (rewrite HW; lia). reflexivity.
  - now apply DurationString_whole_seconds.
Qed.

Lemma DurationString_whole_seconds_form_witness :
  (0 <= nsec (mkDuration (400 * Day + 3723 * Second)) < 2 ^ 62 /\
   nsec (mkDuration (400 * Day + 3723 * Second)) mod Second = 0) /\
  DurationString (mkDuration (400 * Day + 3723 * Second)) = "P1Y35DT1H2M3S".
Proof.
  split; [vm_compute; repeat split; discriminate|].
  rewrite (@DurationString_whole_seconds_form (mkDuration (400 * Day + 3723 * Second)));
    [reflexivity|vm_compute; split; [discriminate|reflexivity]|reflexivity].
Defined.

(** X16.  Round trip on whole seconds: for a whole number of seconds
    that is not negative and is below [2^62] nanoseconds, parsing the
    formatted text gives the duration back. *)
Theorem round_trip_whole_seconds (d : Duration) :
  0 <= nsec d < 2 ^ 62 -> nsec d mod Second = 0 ->
  ParseString (DurationString d) = inl d.
Proof. exact (@parse_format_whole_seconds d). Qed.

Lemma round_trip_whole_seconds_witness :
  (0 <= nsec (mkDuration (400 * Day + 3723 * Second)) < 2 ^ 62 /\
   nsec (mkDuration (400 * Day + 3723 * Second)) mod Second = 0) /\
  ParseString (DurationString (mkDuration (400 * Day + 3723 * Second)))
  = inl (mkDuration (400 * Day + 3723 * Second)).
Proof.
  split; [vm_compute; repeat split; discriminate|].
  apply (@round_trip_whole_seconds (mkDuration (400 * Day + 3723 * Second)));
    [vm_compute; split; [discriminate|reflexivity]|reflexivity].
Defined.

(** ** Negative magnitudes *)

(** The operations are symmetric in the sign. *)
Lemma binary_round_aux_neg (m e : Z) (l : location) :
  binary_round_aux prec emax true m e l
  = neg (binary_round_aux prec emax false m e l).
Proof.
  unfold binary_round_aux.
  destruct (shr_fexp prec emax m e l) as [mrs' e'].
  destruct (shr_fexp prec emax _ e' loc_Exact) as [mrs'' e''].
  destruct (shr_m mrs''); try reflexivity.
  destruct (e'' <=? emax - prec); reflexivity.
Qed.

Lemma binary_round_neg (m : positive) (e : Z) :
  binary_round prec emax true m e = neg (binary_round prec emax false m e).
Proof.
  unfold binary_round. destruct (shl_align _ _ _) as [mz ez].
  apply binary_round_aux_neg.
Qed.

Lemma of_int_neg (p : positive) : of_int (Zneg p) = neg (of_int (Zpos p)).
Proof. apply binary_round_neg. Qed.

Lemma neg_involutive (x : float64) : neg (neg x) = x.
Proof. destruct x as [s|s| |s m e]; cbn; now rewrite ?negb_involutive. Qed.

Lemma Mod_neg (mx : positive) (ex : Z) (my : positive) (ey : Z) (sy : bool) :
  Mod (S754_finite true mx ex) (S754_finite sy my ey)
  = neg (Mod (S754_finite false mx ex) (S754_finite sy my ey)).
Proof.
  cbn [Mod].
  destruct (Z.rem _ _) as [|r|r]; cbn [Z.opp binary_normalize neg SFopp negb].
  - reflexivity.
  - apply binary_round_neg.
  - now rewrite binary_round_neg, neg_involutive.
Qed.

Lemma div_neg (mx : positive) (ex : Z) (my : positive) (ey : Z) :
  div (S754_finite true mx ex) (S754_finite false my ey)
  = neg (div (S754_finite false mx ex) (S754_finite false my ey)).
Proof.
  unfold div, SFdiv.
  destruct (SFdiv_core_binary _ _ _ _ _ _) as [[q e] l]. cbn [xorb].
  apply binary_round_aux_neg.
Qed.

Lemma minus_or_zero_neg (x : float64) :
  nonneg x = true -> minus_or_zero (neg x) = true.
Proof. destruct x as [s|s| |s m e]; cbn; auto; destruct s; auto. Qed.

Lemma Mod_of_int_neg (a b : Z) :
  0 <= a < 2 ^ prec -> 0 < b < 2 ^ prec ->
  Mod (of_int (- a)) (of_int b) = mirrored a (a mod b).
Proof.
  intros [Ha0 Ha1] Hb. unfold mirrored.
  destruct a as [|pa|pa]; [|clear Ha0|lia].
  { cbn [Z.opp Z.eqb]. change (of_int 0) with (S754_zero false).
    destruct b as [|pb|pb]; [lia| |lia].
    rewrite of_int_exact by lia. reflexivity. }
  cbn [Z.opp Z.eqb].
  rewrite <- (Mod_of_int (a := Zpos pa) (b := b)) by lia.
  rewrite of_int_neg, (of_int_exact Ha1).
  destruct b as [|pb|pb]; [lia| |lia].
  rewrite (@of_int_exact pb) by lia.
  cbn [neg SFopp negb]. apply Mod_neg.
Qed.

Lemma Floor_of_int_neg (a : Z) :
  0 <= a < 2 ^ prec -> Floor (of_int (- a)) = mirrored a a.
Proof.
  intros [Ha0 Ha1]. unfold mirrored.
  destruct a as [|pa|pa]; [reflexivity|clear Ha0|lia].
  cbn [Z.opp Z.eqb].
  pose proof (@Trunc_of_int (Zpos pa) ltac:(lia)) as HT.
  pose proof (@sub_of_int_self (Zpos pa) ltac:(lia)) as HS.
  rewrite of_int_neg. rewrite (of_int_exact Ha1) in *.
  cbn [neg SFopp negb Floor]. unfold Modf. cbn [neg SFopp negb].
  rewrite HT, HS. reflexivity.
Qed.

Lemma neg_quot (n u : Z) : 0 <= n -> 0 < u -> Z.quot (- n) u = - (n / u).
Proof. intros. rewrite Z.quot_opp_l by lia. now rewrite Z.quot_div_nonneg by lia. Qed.

Lemma neg_unit_bounds (n u : Z) :
  0 <= n <= 2 ^ 63 -> 60000000000 <= u -> 0 <= n / u < 2 ^ prec.
Proof.
  intros Hn Hu. split; [apply Z.div_pos; lia|].
  apply Z.div_lt_upper_bound; [lia|].
  change (2 ^ 63) with 9223372036854775808 in Hn.
  change (2 ^ prec) with 9007199254740992. nia.
Qed.

(** The accessors on a negative magnitude. *)
Lemma accessors_negative (d : Duration) :
  min_int64 <= nsec d < 0 ->
  Years d = mirrored (- nsec d / Year) (- nsec d / Year) /\
  Days d = mirrored (- nsec d / Day) ((- nsec d / Day) mod 365) /\
  Hours d = mirrored (- nsec d / Hour) ((- nsec d / Hour) mod 24) /\
  Minutes d = mirrored (- nsec d / Minute) ((- nsec d / Minute) mod 60).
Proof.
  intros Hd. set (n := - nsec d).
  assert (Hn : 0 <= n <= 2 ^ 63) by (unfold n, min_int64 in *; lia).
  assert (Hnd : nsec d = - n) by (unfold n; lia).
  assert (Hq : forall u, 60000000000 <= u -> 0 <= n / u < 2 ^ prec).
  { intros u Hu. now apply neg_unit_bounds. }
  unfold Years, Days, Hours, Minutes. rewrite Hnd.
  rewrite (@neg_quot n Year), (@neg_quot n Day), (@neg_quot n Hour),
    (@neg_quot n Minute) by (reflexivity || lia).
  repeat split.
  - apply Floor_of_int_neg, Hq. vm_compute. discriminate.
  - change (Z.quot Year Day) with 365.
    apply Mod_of_int_neg; [apply Hq; vm_compute; discriminate|unfold prec; lia].
  - change (Z.quot Day Hour) with 24.
    apply Mod_of_int_neg; [apply Hq; vm_compute; discriminate|unfold prec; lia].
  - change (Z.quot Hour Minute) with 60.
    apply Mod_of_int_neg; [apply Hq; vm_compute; discriminate|unfold prec; lia].
Qed.

Lemma fraction_below_one (g : Z) (y : float64) :
  0 <= g -> fraction_below g y = true -> below_one y = true.
Proof.
  intros Hg. destruct y as [| | |[|] m e]; try discriminate.
  cbn [fraction_below below_one]. intros H.
  repeat (apply andb_true_iff in H as [H ?]).
  apply Z.leb_le in H0, H1, H2.
  assert (He : (e <? 0) = true) by (apply Z.ltb_lt; unfold prec in *; lia).
  rewrite He. cbn [andb]. apply Z.ltb_lt.
  assert (0 < 2 ^ g) by (apply Z.pow_pos_nonneg; lia).
  assert (0 < 2 ^ (- e)) by (apply Z.pow_pos_nonneg; lia).
  nia.
Qed.

Lemma minute_quotient_bounds (mx q r p w : Z) :
  mx * 9007199254740992 = 7864320000000000 * q + r ->
  0 <= r < 7864320000000000 ->
  4503599627370496 <= mx < 9007199254740992 ->
  mx * 9007199254740992 = p * w * 131072 ->
  0 < p < 60000000000 -> 0 < w ->
  4503599627370496 <= q < 18014398509481984
  /\ q * 60000000000 <= 59999999999 * w.
Proof.
  intros Hdiv Hr Hmx Hw Hp Hw0. split; [lia|].
  assert (p * w <= 59999999999 * w) by (apply Z.mul_le_mono_nonneg_r; lia).
  lia.
Qed.

Lemma rounded_le (T D Q K : Z) :
  T = D \/ T = D + 1 -> K * D <= Q -> K = 1 \/ K = 2 -> T * K <= Q + 2.
Proof. intros [-> | ->] HD [-> | ->]; lia. Qed.

Lemma minute_fraction_bound (t Q w : Z) :
  t <= Q + 2 -> Q * 60000000000 <= 59999999999 * w ->
  9007199254740992 <= w ->
  t * 137438953472 <= 137438953471 * w.
Proof. lia. Qed.

Lemma minute_exponent_bound (m E : Z) :
  4503599627370496 <= m -> m * 137438953472 <= 137438953471 * E ->
  4503599627370496 < E.
Proof. lia. Qed.

(** Less than a minute, in minutes, is a fraction of at most
    [1 - 2^-37]. *)
Lemma div_minute_fraction (n : Z) :
  0 < n < 60000000000 ->
  fraction_below 37 (div (of_int n) (of_int 60000000000)) = true.
Proof.
  intros Hn. destruct n as [|p|p]; [lia| |lia].
  assert (Hp : Zpos p < 2 ^ prec) by (change (2 ^ prec) with 9007199254740992; lia).
  assert (Hp36 : Zpos p < 2 ^ 36) by (change (2 ^ 36) with 68719476736; lia).
  assert (Hdp : Zpos (digits2_pos p) <= 36) by (apply digits2_pos_le; [lia|exact Hp36]).
  pose proof (Pos2Z.is_pos (digits2_pos p)) as Hdp0.
  pose proof (exact_mant_value Hp) as HV.
  pose proof (exact_mant_digits Hp) as HD.
  rewrite (of_int_exact Hp).
  change (of_int 60000000000) with (S754_finite false 7864320000000000 (-17)).
  set (dp := Zpos (digits2_pos p)) in *.
  set (mx := exact_mant p) in *.
  unfold div, SFdiv, SFdiv_core_binary. cbn [Zdigits2 xorb]. rewrite HD.
  change (Zpos (digits2_pos 7864320000000000)) with prec.
  assert (He : Z.min (SpecFloat.fexp prec emax (prec + (dp - prec) - (prec + -17)))
                     (dp - prec - -17) = dp - 89).
  { unfold SpecFloat.fexp, SpecFloat.emin, prec, emax in *. lia. }
  rewrite He.
  replace (dp - prec - -17 - (dp - 89)) with 53 by (unfold prec; lia).
  rewrite Z.shiftl_mul_pow2 by lia.
  set (my := 7864320000000000).
  pose proof (Z.div_eucl_eq (Zpos mx * 2 ^ 53) my ltac:(unfold my; lia)) as Hdiv.
  pose proof (Z.mod_pos_bound (Zpos mx * 2 ^ 53) my ltac:(unfold my; lia)) as Hmod.
  unfold Z.modulo in Hmod.
  destruct (Z.div_eucl (Zpos mx * 2 ^ 53) my) as [q r].
  destruct (digits2_pos_bounds mx) as [Lmx Umx]. rewrite HD in Lmx, Umx.
  set (w := 2 ^ (89 - dp)).
  assert (Hw : 2 ^ 53 <= w) by (apply Z.pow_le_mono_r; lia).
  assert (Hmxw : Zpos mx * 2 ^ 53 = Zpos p * w * 2 ^ 17).
  { rewrite HV. fold dp. unfold w.
    rewrite <- !Z.mul_assoc, <- !Z.pow_add_r by (unfold prec; lia).
    f_equal. f_equal. unfold prec. lia. }
  destruct (@minute_quotient_bounds (Zpos mx) q r (Zpos p) w)
    as [Hqb HQw]; try assumption; try lia.
  { split; [exact Lmx|exact Umx]. }
  clear Hdiv Hmod Hmxw HV Lmx Umx He.
  destruct q as [|Q|Q]; [lia| |lia].
  set (k := Zpos (digits2_pos Q) - prec).
  assert (Hk : k = 0 \/ k = 1).
  { destruct (Z_lt_le_dec (Zpos Q) (2 ^ prec)) as [H|H].
    - left. unfold k. rewrite (@digits2_pos_unique Q prec); [lia|].
      split; [exact (proj1 Hqb)|exact H].
    - right. unfold k. rewrite (@digits2_pos_unique Q (prec + 1)); [lia|].
      split; [exact H|exact (proj2 Hqb)]. }
  destruct (@binary_round_aux_near Q (dp - 89) k (new_location my r))
    as (m' & j & -> & Hj & Hm' & Hdm).
  { unfold k. lia. }
  { lia. }
  { unfold prec, emax in *. lia. }
  cbn [fraction_below].
  set (ey := dp - 89 + k + j).
  assert (Hjk : 0 <= j /\ 0 <= k /\ 0 <= - ey) by (unfold ey; lia).
  assert (H2jk : 0 < 2 ^ (j + k)) by (apply Z.pow_pos_nonneg; lia).
  assert (Hsplit : w = 2 ^ (- ey) * 2 ^ (j + k)).
  { unfold w, ey. rewrite <- Z.pow_add_r by lia. f_equal. lia. }
  assert (Hle : Zpos m' * 2 ^ (j + k) <= Zpos Q + 2).
  { rewrite Z.pow_add_r, Z.mul_assoc by lia.
    apply rounded_le with (D := Zpos Q / 2 ^ k).
    - exact Hm'.
    - apply Z.mul_div_le. apply Z.pow_pos_nonneg; lia.
    - destruct Hk as [-> | ->]; [left|right]; reflexivity. }
  assert (Hfrac : Zpos m' * 2 ^ 37 <= (2 ^ 37 - 1) * 2 ^ (- ey)).
  { apply (Z.mul_le_mono_pos_r _ _ (2 ^ (j + k))); [exact H2jk|].
    replace ((2 ^ 37 - 1) * 2 ^ (- ey) * 2 ^ (j + k)) with (137438953471 * w)
      by (rewrite Hsplit; change (2 ^ 37 - 1) with 137438953471; ring).
    replace (Zpos m' * 2 ^ 37 * 2 ^ (j + k))
      with (Zpos m' * 2 ^ (j + k) * 137438953472)
      by (change (2 ^ 37) with 137438953472; ring).
    exact (@minute_fraction_bound _ (Zpos Q) w Hle HQw Hw). }
  assert (Hey : ey <= - prec).
  { destruct (digits2_pos_bounds m') as [Lm' _]. rewrite Hdm in Lm'.
    destruct (Z_le_gt_dec ey (- prec)) as [|Hgt]; [assumption|]. exfalso.
    assert (HE : 2 ^ (- ey) <= 2 ^ (prec - 1))
      by (apply Z.pow_le_mono_r; unfold prec in *; lia).
    pose proof (@minute_exponent_bound (Zpos m') (2 ^ (- ey)) Lm' Hfrac) as HE'.
    change (2 ^ (prec - 1)) with 4503599627370496 in HE.
    clear - HE HE'. lia. }
  rewrite Hdm, Z.eqb_refl.
  apply Z.leb_le in Hey. rewrite Hey.
  assert (Hlo : (- 100 <=? ey) = true) by (apply Z.leb_le; unfold ey; lia).
  rewrite Hlo. cbn [andb]. apply Z.leb_le. exact Hfrac.
Qed.

(** Less than a minute, in minutes, is below one. *)
Lemma div_below_one (n : Z) :
  0 < n < 60000000000 ->
  below_one (div (of_int n) (of_int 60000000000)) = true.
Proof.
  intros Hn. apply (@fraction_below_one 37); [lia|].
  now apply div_minute_fraction.
Qed.

Lemma Trunc_neg_below_one (y : float64) :
  below_one y = true -> Trunc (neg y) = S754_zero true.
Proof.
  destruct y as [| | |[|] m e]; try discriminate. cbn [below_one].
  intros H. apply andb_true_iff in H as [He Hm].
  apply Z.ltb_lt in He, Hm.
  cbn [neg SFopp negb Trunc]. unfold int_part.
  destruct e as [|e|e]; [lia|lia|].
  rewrite Z.shiftr_div_pow2 by lia.
  rewrite Z.div_small; [reflexivity|]. split; [lia|exact Hm].
Qed.

Lemma div_minus_or_zero (x : float64) (my : positive) (ey : Z) :
  minus_or_zero x = true ->
  minus_or_zero (div x (S754_finite false my ey)) = true.
Proof.
  destruct x as [s|s| |s m e]; cbn [minus_or_zero]; try discriminate; auto.
  - intros ->. reflexivity.
  - intros ->. rewrite div_neg. apply minus_or_zero_neg.
    now apply div_nonneg.
Qed.

(** The seconds of a negative magnitude of less than a minute. *)
Lemma Seconds_small_negative (d : Duration) :
  - Minute < nsec d < 0 -> minus_or_zero (Seconds d) = true.
Proof.
  intros Hd. set (n := - nsec d).
  assert (HMi : Minute = 60000000000) by reflexivity.
  assert (Hn : 0 < n < 60000000000) by (unfold n; rewrite HMi in Hd; lia).
  assert (Hnd : nsec d = - n) by (unfold n; lia).
  assert (Hp : 2 ^ prec = 9007199254740992) by reflexivity.
  unfold Seconds, time_Minutes. rewrite Hnd.
  assert (Hq : Z.quot (- n) Minute = 0).
  { rewrite neg_quot by lia. rewrite HMi, Z.div_small; lia. }
  assert (Hr : Z.rem (- n) Minute = - n).
  { rewrite Z.rem_opp_l by (rewrite HMi; lia).
    rewrite Z.rem_small; rewrite ?HMi; lia. }
  rewrite Hq, Hr.
  change (of_int 0) with (S754_zero false).
  pose proof (div_below_one Hn) as Hb.
  destruct n as [|p|p]; [lia| |lia].
  cbn [Z.opp].
  assert (Hp' : Zpos p < 2 ^ prec) by lia.
  rewrite of_int_neg. rewrite (of_int_exact Hp') in *.
  cbn [neg SFopp negb].
  change (of_int (60 * 1000000000)) with (S754_finite false 7864320000000000 (-17)).
  change (of_int 60000000000) with (S754_finite false 7864320000000000 (-17)) in Hb.
  rewrite div_neg.
  destruct (div (S754_finite false (exact_mant p) (Zpos (digits2_pos p) - prec))
                (S754_finite false 7864320000000000 (-17))) as [| | |[|] m e] eqn:Ey;
    try discriminate.
  change (add (S754_zero false) (neg (S754_finite false m e)))
    with (neg (S754_finite false m e)).
  rewrite (Trunc_neg_below_one _ Hb).
  change (mul (S754_zero true) (of_int Minute)) with (S754_zero true).
  change (sub (S754_finite true (exact_mant p) (Zpos (digits2_pos p) - prec))
              (S754_zero true))
    with (S754_finite true (exact_mant p) (Zpos (digits2_pos p) - prec)).
  change (of_int Second) with (S754_finite false 8388608000000000 (-23)).
  apply div_minus_or_zero. reflexivity.
Qed.

(** *** What the formatter writes for a value below zero *)

Lemma FormatFloat_minus (x : float64) :
  minus_or_zero x = true -> nonzero x = true ->
  exists r, FormatFloat x = String "-" r.
Proof.
  destruct x as [s|s| |s m e]; cbn [minus_or_zero nonzero]; try discriminate.
  - intros -> _. eexists. reflexivity.
  - intros -> _. cbn [FormatFloat]. destruct (shortest m e) as [digs dp].
    eexists. reflexivity.
Qed.

(** *** The characters the formatter writes *)

Lemma chars_in_app (set a b : string) :
  chars_in set (a ++ b) = chars_in set a && chars_in set b.
Proof.
  induction a as [|c a IH]; [reflexivity|].
  cbn [append chars_in]. now rewrite IH, andb_assoc.
Qed.

Lemma chars_in_list (set s : string) :
  chars_in set s = forallb (fun c => has_char c set) (list_ascii_of_string s).
Proof. induction s as [|a s IH]; cbn; [reflexivity|now rewrite IH]. Qed.

Lemma chars_in_weaken (set set' s : string) :
  (forall c, has_char c set = true -> has_char c set' = true) ->
  chars_in set s = true -> chars_in set' s = true.
Proof.
  intros Hw. induction s as [|a s IH]; [reflexivity|].
  cbn [chars_in]. intros H. apply andb_true_iff in H as [Ha Hs].
  now rewrite (Hw _ Ha), IH.
Qed.

Lemma chars_in_absent (p : ascii) (set s : string) :
  has_char p set = false -> chars_in set s = true -> has_char p s = false.
Proof.
  intros Hp. induction s as [|a s IH]; [reflexivity|].
  cbn [chars_in has_char]. intros H. apply andb_true_iff in H as [Ha Hs].
  rewrite (IH Hs), orb_false_r.
  destruct (Ascii.eqb p a) eqn:E; [|reflexivity].
  apply Ascii.eqb_eq in E. subst. congruence.
Qed.

Lemma digit_float_char (c : ascii) :
  is_digit c = true -> has_char c float_chars = true.
Proof.
  destruct c as [[|] [|] [|] [|] [|] [|] [|] [|]];
    intros H; try discriminate H; reflexivity.
Qed.

Lemma digits_float_chars (s : string) :
  all_digits s = true -> chars_in float_chars s = true.
Proof.
  induction s as [|a s IH]; [reflexivity|].
  cbn [all_digits all_in in_class chars_in]. intros H.
  apply andb_true_iff in H as [Ha Hs].
  now rewrite (digit_float_char _ Ha), IH.
Qed.

Lemma string_of_uint_digits (u : Decimal.uint) :
  all_digits (NilEmpty.string_of_uint u) = true.
Proof. induction u; cbn; auto. Qed.

Lemma string_of_nat_Z_digits (z : Z) : all_digits (string_of_nat_Z z) = true.
Proof.
  unfold string_of_nat_Z, NilZero.string_of_uint.
  destruct (N.to_uint (Z.to_N z)) eqn:E; try reflexivity;
    rewrite <- E; apply string_of_uint_digits.
Qed.

Lemma forallb_strip_zeros_rev (f : ascii -> bool) (l : list ascii) :
  forallb f l = true -> forallb f (strip_zeros_rev l) = true.
Proof.
  induction l as [|a l IH]; [reflexivity|]. cbn [strip_zeros_rev].
  destruct (Ascii.eqb a "0"); [|auto]. cbn [forallb]. intros H.
  apply andb_true_iff in H as [_ H]. auto.
Qed.

Lemma forallb_rev_true (A : Type) (f : A -> bool) (l : list A) :
  forallb f l = true -> forallb f (rev l) = true.
Proof.
  rewrite !forallb_forall. intros H x Hx. apply H. now apply in_rev.
Qed.

Lemma chars_in_strip (set s : string) :
  chars_in set s = true -> chars_in set (strip_trailing_zeros s) = true.
Proof.
  rewrite !chars_in_list. unfold strip_trailing_zeros.
  rewrite list_ascii_of_string_of_list_ascii. intros H.
  apply forallb_rev_true, forallb_strip_zeros_rev, forallb_rev_true, H.
Qed.

Lemma chars_in_substring (set s : string) (n m : nat) :
  chars_in set s = true -> chars_in set (substring n m s) = true.
Proof.
  revert n m. induction s as [|a s IH]; intros n m H.
  - destruct n, m; reflexivity.
  - cbn [chars_in] in H. apply andb_true_iff in H as [Ha Hs].
    destruct n, m; cbn [substring chars_in]; auto.
    now rewrite Ha, IH.
Qed.

Lemma chars_in_zeros (n : nat) : chars_in float_chars (zeros n) = true.
Proof. induction n; cbn; auto. Qed.

Lemma shortest_chars (m : positive) (e : Z) :
  chars_in float_chars (fst (shortest m e)) = true.
Proof.
  unfold shortest. destruct (shortest_from _ _ _ _ _ _ _) as [c x].
  cbn [fst]. apply chars_in_strip, digits_float_chars, string_of_nat_Z_digits.
Qed.

Lemma fmtE_chars (digs : string) (dp : Z) :
  chars_in float_chars digs = true -> chars_in float_chars (fmtE digs dp) = true.
Proof.
  intros H. unfold fmtE. rewrite !chars_in_app.
  rewrite (@digits_float_chars _ (string_of_nat_Z_digits _)).
  assert (Hm : chars_in float_chars match digs with
                                    | String c EmptyString => String c EmptyString
                                    | String c rest => String c (String "." rest)
                                    | EmptyString => "0"
                                    end = true).
  { destruct digs as [|c [|c' r]]; [reflexivity|exact H|].
    cbn [chars_in] in *. apply andb_true_iff in H as [-> ->]. reflexivity. }
  rewrite Hm.
  destruct (dp - 1 <? 0); destruct (Z.abs (dp - 1) <? 10); reflexivity.
Qed.

Lemma fmtF_chars (digs : string) (dp : Z) :
  chars_in float_chars digs = true -> chars_in float_chars (fmtF digs dp) = true.
Proof.
  intros H. unfold fmtF.
  destruct (dp <=? 0); [|destruct (_ <=? dp)];
    rewrite ?chars_in_app, ?chars_in_zeros, ?chars_in_substring, ?H by auto;
    reflexivity.
Qed.

Lemma FormatFloat_chars (x : float64) :
  chars_in float_chars (FormatFloat x) = true.
Proof.
  destruct x as [s|s| |s m e]; cbn [FormatFloat]; try (destruct s; reflexivity);
    try reflexivity.
  pose proof (shortest_chars m e) as H.
  destruct (shortest m e) as [digs dp]. cbn [fst] in H.
  rewrite chars_in_app.
  assert (Hs : chars_in float_chars (if s then "-" else "") = true)
    by (destruct s; reflexivity).
  rewrite Hs. cbn [andb].
  destruct (_ || _); [now apply fmtE_chars|now apply fmtF_chars].
Qed.

(** No letter P is ever written for a number. *)
Lemma FormatFloat_no_P (x : float64) : has_char "P" (FormatFloat x) = false.
Proof.
  apply chars_in_absent with float_chars; [reflexivity|apply FormatFloat_chars].
Qed.

Lemma float_duration_char (c : ascii) :
  has_char c float_chars = true -> has_char c duration_chars = true.
Proof.
  intros H. unfold duration_chars. rewrite has_char_app, H. apply orb_true_r.
Qed.

Lemma part_chars (x : float64) (c : ascii) :
  has_char c duration_chars = true ->
  chars_in duration_chars
    (if nonzero x then FormatFloat x ++ String c "" else "") = true.
Proof.
  intros Hc. destruct (nonzero x); [|reflexivity].
  rewrite chars_in_app.
  rewrite (@chars_in_weaken _ _ _ float_duration_char (FormatFloat_chars x)).
  cbn [chars_in andb]. now rewrite Hc.
Qed.

Lemma DurationString_chars (d : Duration) :
  chars_in duration_chars (DurationString d) = true.
Proof.
  unfold DurationString. cbn [append chars_in].
  change (has_char "P" duration_chars) with true. cbn [andb].
  destruct (IsZero d); [reflexivity|].
  destruct (nonzero (Weeks d) && IsWeeksOnly d).
  - rewrite chars_in_app.
    rewrite (@chars_in_weaken _ _ _ float_duration_char (FormatFloat_chars _)).
    reflexivity.
  - rewrite !chars_in_app, !part_chars by reflexivity.
    destruct (HasTimePart d); [|reflexivity].
    cbn [append chars_in].
    rewrite !chars_in_app, !part_chars by reflexivity. reflexivity.
Qed.

(** *** What the parser reads of such a text *)

Section AbsentParts.
Variable R : Type.
Implicit Types (k : string -> list string -> option R).

Lemma rmatch_opt_eq (r : regex) idx s caps k :
  rmatch (Opt r) idx s caps k
  = match rmatch r idx s caps k with
    | Some x => Some x
    | None => k s caps
    end.
Proof. reflexivity. Qed.

Lemma rmatch_lit_ne (c c' : ascii) idx s caps k :
  Ascii.eqb c c' = false -> rmatch (Lit c) idx (String c' s) caps k = None.
Proof. intros H. cbn [rmatch]. now rewrite H. Qed.

Lemma rmatch_designator_minus (name : string) (cl : cclass) (c : ascii)
      (r : string) idx caps k :
  in_class cl c = false -> in_class cl "-" = false ->
  rmatch (designator name cl c) idx (String "-" r) caps k
  = k (String "-" r) caps.
Proof.
  intros Hc Hm. unfold designator.
  rewrite rmatch_opt_eq, rmatch_group_eq, rmatch_seq_eq, rmatch_group_eq,
    rmatch_plus_eq.
  cbn [plus_greedy]. now rewrite Hm.
Qed.

Lemma rmatch_designator_T (name : string) (c : ascii)
      (r : string) idx caps k :
  rmatch (designator name Digit c) idx (String "T" r) caps k
  = k (String "T" r) caps.
Proof.
  unfold designator.
  rewrite rmatch_opt_eq, rmatch_group_eq, rmatch_seq_eq, rmatch_group_eq,
    rmatch_plus_eq.
  reflexivity.
Qed.

End AbsentParts.

Lemma match_here_full_minus (r : string) :
  match_here full (String "P" (String "-" r))
  = Some ["P"; ""; ""; ""; ""; ""; ""; ""; ""; ""; ""; ""; ""; ""].
Proof.
  unfold match_here, full.
  rewrite rmatch_seq_eq, rmatch_lit_eq, rmatch_seq_eq.
  rewrite rmatch_designator_minus, rmatch_seq_eq by reflexivity.
  rewrite rmatch_designator_minus, rmatch_seq_eq by reflexivity.
  rewrite rmatch_designator_minus by reflexivity.
  rewrite rmatch_opt_eq, rmatch_group_eq, rmatch_seq_eq.
  rewrite rmatch_lit_ne by reflexivity.
  change (String "P" (String "-" r)) with ("P" ++ String "-" r).
  rewrite consumed_app. reflexivity.
Qed.

Lemma match_here_full_T_minus (r : string) :
  match_here full (String "P" (String "T" (String "-" r)))
  = Some ["PT"; ""; ""; ""; ""; ""; ""; "T"; ""; ""; ""; ""; ""; ""].
Proof.
  unfold match_here, full.
  rewrite rmatch_seq_eq, rmatch_lit_eq, rmatch_seq_eq.
  rewrite rmatch_designator_T, rmatch_seq_eq.
  rewrite rmatch_designator_T, rmatch_seq_eq.
  rewrite rmatch_designator_T.
  rewrite rmatch_opt_eq, rmatch_group_eq, rmatch_seq_eq, rmatch_lit_eq.
  rewrite rmatch_seq_eq.
  rewrite rmatch_designator_minus, rmatch_seq_eq by reflexivity.
  rewrite rmatch_designator_minus by reflexivity.
  rewrite rmatch_designator_minus by reflexivity.
  change (String "T" (String "-" r)) with ("T" ++ String "-" r).
  rewrite consumed_app.
  change (String "P" ("T" ++ String "-" r)) with ("PT" ++ String "-" r).
  rewrite consumed_app. reflexivity.
Qed.

Lemma week_no_match (body : string) :
  has_char "P" body = false -> starts_digit body = false ->
  MatchString week (String "P" body) = false.
Proof.
  intros HP Hd. unfold MatchString.
  destruct (FindStringSubmatch week (String "P" body)) as [m|] eqn:E;
    [|reflexivity].
  exfalso.
  apply FindStringSubmatch_inv in E as (pre & s' & Hs & Hm).
  apply match_here_week_inv in Hm as (n & post & -> & Hn & Hall & _).
  destruct pre as [|x pre].
  - cbn [append] in Hs. injection Hs as Hs. subst body.
    destruct n as [|c n]; [contradiction|].
    cbn [append starts_digit] in Hd. cbn [all_digits all_in in_class] in Hall.
    apply andb_true_iff in Hall as [Hc _]. congruence.
  - cbn [append] in Hs. injection Hs as _ Hs. subst body.
    rewrite has_char_app in HP. cbn [append has_char Ascii.eqb Bool.eqb] in HP.
    rewrite orb_true_r in HP. discriminate.
Qed.

Lemma unread_starts (body : string) :
  unread body = true -> starts_digit body = false.
Proof.
  destruct body as [|c r]; [reflexivity|]. cbn [unread starts_digit].
  intros H. apply orb_true_iff in H as [H|H].
  - apply Ascii.eqb_eq in H. now subst.
  - apply andb_true_iff in H as [H _]. apply Ascii.eqb_eq in H. now subst.
Qed.

(** Such a text parses as the zero duration. *)
Lemma ParseString_unread (body : string) :
  unread body = true -> has_char "P" body = false ->
  ParseString (String "P" body) = inl (mkDuration 0).
Proof.
  intros Hu HP. unfold ParseString.
  rewrite (week_no_match _ HP (unread_starts _ Hu)).
  rewrite MatchString_full. cbn [has_char Ascii.eqb Bool.eqb orb].
  destruct body as [|c r]; [reflexivity|].
  cbn [unread] in Hu. apply orb_true_iff in Hu as [H|H].
  - apply Ascii.eqb_eq in H. subst c.
    cbn [FindStringSubmatch]. rewrite match_here_full_minus. reflexivity.
  - apply andb_true_iff in H as [H Hr]. apply Ascii.eqb_eq in H. subst c.
    destruct r as [|c' r']; [reflexivity|].
    apply Ascii.eqb_eq in Hr. subst c'.
    cbn [FindStringSubmatch]. rewrite match_here_full_T_minus. reflexivity.
Qed.

(** *** The formatted text of a negative magnitude *)

Lemma mirrored_minus (a k : Z) : 0 <= k -> minus_or_zero (mirrored a k) = true.
Proof.
  intros Hk. unfold mirrored. destruct (a =? 0); [reflexivity|].
  apply minus_or_zero_neg. now apply of_int_nonneg.
Qed.

Lemma nonzero_neg (x : float64) : nonzero (neg x) = nonzero x.
Proof. now destruct x. Qed.

Lemma mirrored_zero (a k : Z) :
  0 <= k < 2 ^ prec -> nonzero (mirrored a k) = false -> a = 0 \/ k = 0.
Proof.
  intros Hk. unfold mirrored. destruct (a =? 0) eqn:E.
  - apply Z.eqb_eq in E. auto.
  - rewrite nonzero_neg, nonzero_of_int by exact Hk.
    intros H. apply negb_false_iff, Z.eqb_eq in H. auto.
Qed.

Lemma Weeks_minus (d : Duration) :
  minus_or_zero (Days d) = true -> minus_or_zero (Weeks d) = true.
Proof.
  intros H. unfold Weeks.
  destruct (ltb _ _); [reflexivity|].
  change (of_int (Z.quot Week Day)) with (S754_finite false 7881299347898368 (-50)).
  now apply div_minus_or_zero.
Qed.

(** One action of the template. *)
Lemma part_no_P (x : float64) (c : ascii) :
  Ascii.eqb "P" c = false ->
  has_char "P" (if nonzero x then FormatFloat x ++ String c "" else "") = false.
Proof.
  intros Hc. destruct (nonzero x); [|reflexivity].
  rewrite has_char_app, FormatFloat_no_P. cbn [has_char orb]. now rewrite Hc.
Qed.

Lemma small_fields_negative (n : Z) :
  0 < n ->
  n / Year = 0 ->
  n / Day = 0 \/ (n / Day) mod 365 = 0 ->
  n / Hour = 0 \/ (n / Hour) mod 24 = 0 ->
  n / Minute = 0 \/ (n / Minute) mod 60 = 0 ->
  n < Minute.
Proof.
  assert (HY : Year = 31536000000000000) by reflexivity.
  assert (HD : Day = 86400000000000) by reflexivity.
  assert (HH : Hour = 3600000000000) by reflexivity.
  assert (HMi : Minute = 60000000000) by reflexivity.
  rewrite HY, HD, HH, HMi. intros Hn Hy Hd Hh Hm.
  assert (Hd0 : n / 86400000000000 = 0).
  { destruct Hd as [|Hd]; [assumption|]. Z.div_mod_to_equations. lia. }
  assert (Hh0 : n / 3600000000000 = 0).
  { destruct Hh as [|Hh]; [assumption|]. Z.div_mod_to_equations. lia. }
  assert (Hm0 : n / 60000000000 = 0).
  { destruct Hm as [|Hm]; [assumption|]. Z.div_mod_to_equations. lia. }
  Z.div_mod_to_equations. lia.
Qed.

Lemma DurationString_negative (d : Duration) :
  min_int64 <= nsec d < 0 ->
  exists body, DurationString d = String "P" body /\
               unread body = true /\ has_char "P" body = false.
Proof.
  intros Hd.
  destruct (accessors_negative d Hd) as (Ey & Ed & Eh & Em).
  set (n := - nsec d) in *.
  assert (Hn : 0 <= n <= 2 ^ 63) by (unfold n, min_int64 in *; lia).
  assert (Hq : forall u, 60000000000 <= u -> 0 <= n / u < 2 ^ prec).
  { intros u Hu. now apply neg_unit_bounds. }
  assert (By : 0 <= n / Year < 2 ^ prec) by (apply Hq; vm_compute; discriminate).
  assert (Bd : 0 <= (n / Day) mod 365 < 2 ^ prec).
  { pose proof (Z.mod_pos_bound (n / Day) 365). unfold prec. lia. }
  assert (Bh : 0 <= (n / Hour) mod 24 < 2 ^ prec).
  { pose proof (Z.mod_pos_bound (n / Hour) 24). unfold prec. lia. }
  assert (Bm : 0 <= (n / Minute) mod 60 < 2 ^ prec).
  { pose proof (Z.mod_pos_bound (n / Minute) 60). unfold prec. lia. }
  assert (My : minus_or_zero (Years d) = true) by (rewrite Ey; apply mirrored_minus; lia).
  assert (Md : minus_or_zero (Days d) = true) by (rewrite Ed; apply mirrored_minus; lia).
  assert (Mh : minus_or_zero (Hours d) = true) by (rewrite Eh; apply mirrored_minus; lia).
  assert (Mm : minus_or_zero (Minutes d) = true) by (rewrite Em; apply mirrored_minus; lia).
  pose proof (Weeks_minus d Md) as Mw.
  unfold DurationString, IsZero.
  assert (Hz : (nsec d =? 0) = false) by (apply Z.eqb_neq; lia).
  rewrite Hz. cbn [append].
  destruct (nonzero (Weeks d) && IsWeeksOnly d) eqn:Ew.
  { apply andb_true_iff in Ew as [Ew _].
    destruct (FormatFloat_minus _ Mw Ew) as (r & Hr).
    eexists. split; [reflexivity|]. split.
    - rewrite Hr. reflexivity.
    - rewrite has_char_app, FormatFloat_no_P. reflexivity. }
  eexists. split; [reflexivity|]. split.
  - (* nothing of it is read *)
    destruct (nonzero (Years d)) eqn:Ny.
    { destruct (FormatFloat_minus _ My Ny) as (r & ->). reflexivity. }
    cbn [append].
    destruct (nonzero (Days d)) eqn:Nd.
    { destruct (FormatFloat_minus _ Md Nd) as (r & ->). reflexivity. }
    cbn [append].
    destruct (HasTimePart d) eqn:Ht; [|reflexivity].
    cbn [append].
    destruct (nonzero (Hours d)) eqn:Nh.
    { destruct (FormatFloat_minus _ Mh Nh) as (r & ->). reflexivity. }
    cbn [append].
    destruct (nonzero (Minutes d)) eqn:Nm.
    { destruct (FormatFloat_minus _ Mm Nm) as (r & ->). reflexivity. }
    cbn [append].
    destruct (nonzero (Seconds d)) eqn:Ns; [|reflexivity].
    assert (Hsmall : n < Minute).
    { rewrite Ey in Ny. rewrite Ed in Nd. rewrite Eh in Nh. rewrite Em in Nm.
      apply small_fields_negative.
      - unfold n. lia.
      - destruct (mirrored_zero _ By Ny); assumption.
      - exact (mirrored_zero _ Bd Nd).
      - exact (mirrored_zero _ Bh Nh).
      - exact (mirrored_zero _ Bm Nm). }
    assert (Ms : minus_or_zero (Seconds d) = true).
    { apply Seconds_small_negative. unfold n in Hsmall. lia. }
    destruct (FormatFloat_minus _ Ms Ns) as (r & ->). reflexivity.
  - (* no letter P in it *)
    rewrite !has_char_app, !part_no_P by reflexivity.
    destruct (HasTimePart d); [|reflexivity].
    cbn [append has_char Ascii.eqb Bool.eqb orb].
    rewrite !has_char_app, !part_no_P by reflexivity. reflexivity.
Qed.

Lemma parse_format_negative (d : Duration) :
  min_int64 <= nsec d < 0 ->
  ParseString (DurationString d) = inl (mkDuration 0).
Proof.
  intros Hd. destruct (DurationString_negative d Hd) as (body & -> & Hu & HP).
  now apply ParseString_unread.
Qed.

(** X17.  The accessors on a negative magnitude mirror those of its
    absolute value, without any rounding: with [n] the absolute value,
    each of [Years], [Days], [Hours] and [Minutes] is zero when [n] holds
    less than one of its unit, and otherwise minus the whole number the
    accessor gives for [n], which is minus zero when that number is
    zero. *)
Theorem accessors_of_negative (d : Duration) :
  min_int64 <= nsec d < 0 ->
  Years d = mirrored (- nsec d / Year) (- nsec d / Year) /\
  Days d = mirrored (- nsec d / Day) ((- nsec d / Day) mod 365) /\
  Hours d = mirrored (- nsec d / Hour) ((- nsec d / Hour) mod 24) /\
  Minutes d = mirrored (- nsec d / Minute) ((- nsec d / Minute) mod 60).
Proof. exact (@accessors_negative d). Qed.

Lemma accessors_of_negative_witness :
  min_int64 <= nsec (mkDuration (- (400 * Day + 90 * Minute))) < 0 /\
  Years (mkDuration (- (400 * Day + 90 * Minute))) = neg (of_int 1) /\
  Days (mkDuration (- (400 * Day + 90 * Minute))) = neg (of_int 35) /\
  Hours (mkDuration (- (400 * Day + 90 * Minute))) = neg (of_int 1) /\
  Minutes (mkDuration (- (400 * Day + 90 * Minute))) = neg (of_int 30).
Proof.
  split; [vm_compute; split; [discriminate|reflexivity]|].
  apply (@accessors_of_negative (mkDuration (- (400 * Day + 90 * Minute)))).
  vm_compute. split; [discriminate|reflexivity].
Defined.

(** X18.  A negative magnitude is never read back: whatever the negative
    duration, the text the formatter writes for it is accepted by the
    parser, without an error, as the zero duration.  The text starts,
    after the letter P or after PT, with the minus sign of the first
    number written, which no pattern reads. *)
Theorem negative_reads_back_zero (d : Duration) :
  min_int64 <= nsec d < 0 ->
  ParseString (DurationString d) = inl (mkDuration 0).
Proof. exact (@parse_format_negative d). Qed.

Lemma negative_reads_back_zero_witness :
  min_int64 <= nsec (mkDuration (- 1500000000)) < 0 /\
  DurationString (mkDuration (- 1500000000)) = "PT-1.5S" /\
  ParseString (DurationString (mkDuration (- 1500000000))) = inl (mkDuration 0).
Proof.
  split; [vm_compute; split; [discriminate|reflexivity]|].
  split; [vm_compute; reflexivity|].
  apply (@negative_reads_back_zero (mkDuration (- 1500000000))).
  vm_compute. split; [discriminate|reflexivity].
Defined.

(** *** The JSON form of a formatted duration *)

Lemma escape_duration_char (c : ascii) :
  has_char c duration_chars = true -> Json.escape c = String c "".
Proof.
  destruct c as [[|] [|] [|] [|] [|] [|] [|] [|]];
    intros H; try discriminate H; reflexivity.
Qed.

Lemma read_literal_duration_char (c : ascii) (s : string) :
  has_char c duration_chars = true ->
  Json.read_literal (String c s) = option_map (String c) (Json.read_literal s).
Proof.
  destruct c as [[|] [|] [|] [|] [|] [|] [|] [|]];
    intros H; try discriminate H; reflexivity.
Qed.

Lemma read_literal_escape_all (s rest : string) :
  chars_in duration_chars s = true ->
  Json.read_literal (Json.escape_all s ++ String Json.quote rest) = Some s.
Proof.
  induction s as [|c s IH]; [reflexivity|].
  cbn [chars_in Json.escape_all]. intros H.
  apply andb_true_iff in H as [Hc Hs].
  rewrite (@escape_duration_char c Hc). cbn [append].
  rewrite (@read_literal_duration_char c _ Hc), (IH Hs). reflexivity.
Qed.

(** The decoder reads back what the encoder wrote of such a text. *)
Lemma Decode_Encode_chars (s : string) :
  chars_in duration_chars s = true -> Json.Decode (Json.Encode s) = inl s.
Proof.
  intros H. unfold Json.Decode, Json.Encode. cbn [append].
  cbn [Json.skip_space].
  change (Json.is_space Json.quote) with false. cbv iota.
  rewrite Ascii.eqb_refl.
  now rewrite read_literal_escape_all.
Qed.


(** X20.  What [MarshalJSON] returns is always a JSON string that
    decodes to the formatted text: nothing of it needs an escape. *)
Theorem MarshalJSON_decodes (d : Duration) :
  Json.Decode (MarshalJSON Json.Encode d) = inl (DurationString d).
Proof. unfold MarshalJSON. apply Decode_Encode_chars, DurationString_chars. Qed.

(** X21.  JSON round trip on whole seconds, with the encoder and the
    decoder of [encoding/json]: unmarshalling the marshalled form of a
    whole number of seconds that is not negative and is below [2^62]
    nanoseconds sets the receiver to that duration and returns no
    error. *)
Theorem JSON_round_trip_whole_seconds (d d0 : Duration) :
  0 <= nsec d < 2 ^ 62 -> nsec d mod Second = 0 ->
  UnmarshalJSON Json.Decode d0 (MarshalJSON Json.Encode d) = (d, None).
Proof.
  intros Hd Hs. unfold UnmarshalJSON, MarshalJSON.
  rewrite Decode_Encode_chars by apply DurationString_chars.
  now rewrite parse_format_whole_seconds.
Qed.

Lemma JSON_round_trip_whole_seconds_witness :
  (0 <= nsec (mkDuration (90 * Second)) < 2 ^ 62 /\
   nsec (mkDuration (90 * Second)) mod Second = 0) /\
  MarshalJSON Json.Encode (mkDuration (90 * Second))
  = String Json.quote ("PT1M30S" ++ String Json.quote (String Json.newline "")) /\
  UnmarshalJSON Json.Decode (mkDuration 7)
                (MarshalJSON Json.Encode (mkDuration (90 * Second)))
  = (mkDuration (90 * Second), None).
Proof.
  split; [vm_compute; repeat split; discriminate|].
  split; [vm_compute; reflexivity|].
  apply (@JSON_round_trip_whole_seconds (mkDuration (90 * Second)) (mkDuration 7));
    [vm_compute; split; [discriminate|reflexivity]|reflexivity].
Defined.

(** X22.  A negative duration does not survive JSON either: it is
    marshalled without an error, and unmarshalling what was written sets
    the receiver to the zero duration and returns no error. *)
Theorem JSON_negative_reads_zero (d d0 : Duration) :
  min_int64 <= nsec d < 0 ->
  UnmarshalJSON Json.Decode d0 (MarshalJSON Json.Encode d) = (mkDuration 0, None).
Proof.
  intros Hd. unfold UnmarshalJSON, MarshalJSON.
  rewrite Decode_Encode_chars by apply DurationString_chars.
  now rewrite parse_format_negative.
Qed.

Lemma JSON_negative_reads_zero_witness :
  min_int64 <= nsec (mkDuration (- (90 * Second))) < 0 /\
  MarshalJSON Json.Encode (mkDuration (- (90 * Second)))
  = String Json.quote ("PT-1M-30S" ++ String Json.quote (String Json.newline "")) /\
  UnmarshalJSON Json.Decode (mkDuration 7)
                (MarshalJSON Json.Encode (mkDuration (- (90 * Second))))
  = (mkDuration 0, None).
Proof.
  split; [vm_compute; split; [discriminate|reflexivity]|].
  split; [vm_compute; reflexivity|].
  apply (@JSON_negative_reads_zero (mkDuration (- (90 * Second))) (mkDuration 7)).
  vm_compute. split; [discriminate|reflexivity].
Defined.

(** ** The seconds of a short duration *)

Lemma Seconds_short (d : Duration) :
  0 <= nsec d < 32768 * Minute ->
  Seconds d = div (of_int (nsec d mod Minute)) (of_int Second).
Proof.
  intros Hd.
  assert (HMi : Minute = 60000000000) by reflexivity.
  assert (Hmax : max_int64 = 9223372036854775807) by reflexivity.
  assert (Hp : 2 ^ prec = 9007199254740992) by reflexivity.
  rewrite HMi in Hd.
  set (f := nsec d mod Minute).
  assert (Hf : 0 <= f < 60000000000) by (unfold f; rewrite HMi; apply Z.mod_pos_bound; lia).
  destruct (Z.eq_dec f 0) as [Hf0|Hf0].
  { rewrite Hf0. rewrite Seconds_whole_minutes; [reflexivity| |exact Hf0].
    rewrite Hmax. lia. }
  set (m := nsec d / Minute).
  assert (Hn : nsec d = m * Minute + f).
  { unfold m, f. rewrite HMi. Z.div_mod_to_equations. lia. }
  assert (Hmb : 0 <= m < 32768).
  { unfold m. rewrite HMi. split; [apply Z.div_pos; lia|].
    apply Z.div_lt_upper_bound; lia. }
  pose proof (@div_minute_fraction f ltac:(lia)) as Tf.
  unfold Seconds, time_Minutes.
  rewrite Z.quot_div_nonneg, Z.rem_mod_nonneg by (rewrite ?HMi; lia).
  fold m f.
  change (of_int (60 * 1000000000)) with (of_int 60000000000).
  destruct m as [|a|a]; [| |lia].
  - change (of_int 0) with (S754_zero false).
    rewrite (add_zero_l _ _ Tf), (Trunc_fraction _ _ Tf).
    change (mul (S754_zero false) (of_int Minute)) with (S754_zero false).
    rewrite Hn, Z.mul_0_l, Z.add_0_l.
    rewrite sub_of_int_zero by (rewrite Hp; lia). reflexivity.
  - rewrite (@Trunc_add_fraction 37)
      by (first [exact Tf|change (2 ^ (prec - 1 - 37)) with 32768; lia]).
    assert (Hab : Zpos a * Minute = Zpos (a * 29296875) * 2 ^ 11).
    { rewrite HMi, Pos2Z.inj_mul. lia. }
    change Minute with (Zpos 60000000000) in Hab |- *.
    rewrite (@mul_of_int a 60000000000 (a * 29296875) 11)
      by (first [exact Hab|rewrite ?Hp, ?Pos2Z.inj_mul; lia]).
    rewrite Hab.
    destruct (nsec d) as [|pn|pn] eqn:En; [lia| |lia].
    destruct f as [|pf|pf] eqn:Ef; [lia| |lia].
    assert (E1 : of_int (Zpos pn) = of_int (Zpos pn * 2 ^ 0))
      by (f_equal; simpl; lia).
    assert (E2 : of_int (Zpos pf) = of_int (Zpos pf * 2 ^ 0))
      by (f_equal; simpl; lia).
    rewrite E1, E2.
    rewrite (@sub_of_int pn (a * 29296875) pf 0 11 0);
      try (rewrite ?Hp, ?Pos2Z.inj_mul; lia).
    reflexivity.
Qed.

(** X23.  The seconds of a short duration: for a magnitude that is not
    negative and is below 32768 minutes, a little under 23 days,
    [Seconds] returns the nanoseconds of the minute divided by [1e9],
    rounded once: taking the whole minutes off does not add an error of
    its own. *)
Theorem Seconds_of_short_duration (d : Duration) :
  0 <= nsec d < 32768 * Minute ->
  Seconds d = div (of_int (nsec d mod Minute)) (of_int Second).
Proof. exact (@Seconds_short d). Qed.

Lemma Seconds_of_short_duration_witness :
  0 <= nsec (mkDuration (5 * Minute + 1234567891)) < 32768 * Minute /\
  Seconds (mkDuration (5 * Minute + 1234567891))
  = div (of_int 1234567891) (of_int Second) /\
  FormatFloat (Seconds (mkDuration (5 * Minute + 1234567891))) = "1.234567891".
Proof.
  split; [vm_compute; split; [discriminate|reflexivity]|].
  split; [|vm_compute; reflexivity].
  apply (@Seconds_of_short_duration (mkDuration (5 * Minute + 1234567891))).
  vm_compute. split; [discriminate|reflexivity].
Defined.

(** ** The text of the zero duration *)

Lemma lead_table (k : Z) (rest : string) :
  0 < k < 1000 -> FormatFloat (of_int k) ++ rest <> "0D".
Proof.
  intros Hk.
  assert (H : lead_ok k = true).
  { apply (forallb_below lead_ok 1000); [vm_compute; reflexivity|lia]. }
  unfold lead_ok in H.
  destruct (k =? 0) eqn:E; [apply Z.eqb_eq in E; lia|].
  cbn [orb] in H.
  destruct (FormatFloat (of_int k)) as [|c r]; [discriminate|].
  cbn [append]. intros Heq. injection Heq as -> _. discriminate.
Qed.

Lemma string_tail_eq (c : ascii) (a b : string) : String c a = String c b -> a = b.
Proof. intros H. now injection H. Qed.

Lemma nonzero_field (k : Z) :
  0 <= k < 1000 -> nonzero (of_int k) = true -> 0 < k < 1000.
Proof.
  intros Hk. rewrite nonzero_of_int by (unfold prec; lia).
  intros H. apply negb_true_iff, Z.eqb_neq in H. lia.
Qed.

Lemma DurationString_positive_not_Zero (d : Duration) :
  0 < nsec d <= max_int64 -> DurationString d <> Zero.
Proof.
  intros Hd.
  assert (Hd' : 0 <= nsec d <= max_int64) by lia.
  destruct (accessors_values d Hd') as (Ey & Ed & _ & _).
  assert (Hy : 0 <= nsec d / Year < 1000).
  { assert (HY : Year = 31536000000000000) by reflexivity.
    assert (Hmax : max_int64 = 9223372036854775807) by reflexivity.
    rewrite HY, Hmax in *. split; [apply Z.div_pos; lia|].
    apply Z.div_lt_upper_bound; lia. }
  assert (Hdd : 0 <= (nsec d / Day) mod 365 < 1000)
    by (pose proof (Z.mod_pos_bound (nsec d / Day) 365); lia).
  unfold DurationString, IsZero, Zero.
  assert (Hz : (nsec d =? 0) = false) by (apply Z.eqb_neq; lia).
  rewrite Hz. cbn [append].
  intros Heq. apply string_tail_eq in Heq. revert Heq.
  destruct (nonzero (Weeks d) && IsWeeksOnly d).
  { intros Heq. apply (f_equal (has_char "W")) in Heq.
    rewrite has_char_app in Heq. cbn [has_char Ascii.eqb Bool.eqb orb] in Heq.
    rewrite orb_true_r in Heq. discriminate. }
  rewrite Ey, Ed.
  destruct (nonzero (of_int (nsec d / Year))) eqn:Ny.
  { rewrite append_assoc_str. apply lead_table. now apply nonzero_field. }
  cbn [append].
  destruct (nonzero (of_int ((nsec d / Day) mod 365))) eqn:Nd.
  { rewrite append_assoc_str. apply lead_table. now apply nonzero_field. }
  cbn [append].
  destruct (HasTimePart d); discriminate.
Qed.

Lemma DurationString_negative_not_Zero (d : Duration) :
  min_int64 <= nsec d < 0 -> DurationString d <> Zero.
Proof.
  intros Hd. destruct (DurationString_negative d Hd) as (body & -> & Hu & _).
  unfold Zero. intros Heq. apply string_tail_eq in Heq. subst body.
  discriminate.
Qed.

(** X24.  Only the zero duration is written [P0D]: for a magnitude in
    the range of an [int64] the formatted text is the literal [Zero]
    exactly when the magnitude is zero. *)
Theorem only_zero_is_P0D (d : Duration) :
  int64_range (nsec d) -> (DurationString d = Zero <-> IsZero d = true).
Proof.
  intros [Hlo Hhi]. unfold IsZero. split.
  - intros H. apply Z.eqb_eq.
    destruct (Z.lt_trichotomy (nsec d) 0) as [Hn|[Hn|Hn]]; [|exact Hn|].
    + exfalso. apply (@DurationString_negative_not_Zero d); [lia|exact H].
    + exfalso. apply (@DurationString_positive_not_Zero d); [lia|exact H].
  - intros H. apply Z.eqb_eq in H. destruct d as [z]. cbn [nsec] in H.
    subst z. reflexivity.
Qed.

Lemma only_zero_is_P0D_witness :
  int64_range (nsec (mkDuration 0)) /\
  (DurationString (mkDuration 0) = Zero <-> IsZero (mkDuration 0) = true).
Proof.
  split; [vm_compute; split; discriminate|].
  apply (@only_zero_is_P0D (mkDuration 0)). vm_compute. split; discriminate.
Defined.

(** ** The weeks of a negative magnitude *)

Lemma ltb_zero_neg (k : Z) :
  0 <= k < 2 ^ prec -> ltb (S754_zero false) (neg (of_int k)) = false.
Proof.
  intros [H0 H1]. destruct k as [|p|p]; [reflexivity| |lia].
  now rewrite of_int_exact.
Qed.

Lemma div_neg_of_int (k : Z) (my : positive) (ey : Z) :
  0 <= k < 2 ^ prec ->
  div (neg (of_int k)) (S754_finite false my ey)
  = neg (div (of_int k) (S754_finite false my ey)).
Proof.
  intros [H0 H1]. destruct k as [|p|p]; [reflexivity| |lia].
  rewrite of_int_exact by exact H1. apply div_neg.
Qed.

Lemma Weeks_negative (d : Duration) :
  min_int64 <= nsec d < 0 ->
  Weeks d
  = if - nsec d / Day =? 0 then S754_zero false
    else neg (div (of_int ((- nsec d / Day) mod 365)) (of_int 7)).
Proof.
  intros Hd. unfold Weeks.
  destruct (accessors_negative d Hd) as (_ & -> & _).
  change (Z.quot Week Day) with 7.
  set (a := - nsec d / Day). set (k := a mod 365).
  assert (Hk : 0 <= k < 365) by (apply Z.mod_pos_bound; lia).
  unfold mirrored. destruct (a =? 0); [reflexivity|].
  assert (Hk' : 0 <= k < 2 ^ prec) by (unfold prec; lia).
  assert (HM : Mod (neg (of_int k)) (of_int 7) = neg (of_int (k mod 7))).
  { destruct k as [|p|p] eqn:Ek; [reflexivity| |lia].
    rewrite <- (Mod_of_int (a := Zpos p) (b := 7)) by (unfold prec in *; lia).
    rewrite (@of_int_exact p) by lia.
    change (of_int 7) with (S754_finite false 7881299347898368 (-50)).
    apply Mod_neg. }
  rewrite HM, ltb_zero_neg
    by (pose proof (Z.mod_pos_bound k 7); unfold prec; lia).
  change (of_int 7) with (S754_finite false 7881299347898368 (-50)).
  now apply div_neg_of_int.
Qed.

(** X25.  The weeks of a negative magnitude: [Weeks] is zero when the
    absolute value holds less than a day, and otherwise minus the days
    of the year divided by seven, whether or not they are whole weeks.
    The test that gives zero for a part of a week looks for a remainder
    above zero, which a negative count of days never has: a negative
    duration of one day has [-1/7] weeks. *)
Theorem Weeks_of_negative (d : Duration) :
  min_int64 <= nsec d < 0 ->
  Weeks d
  = if - nsec d / Day =? 0 then S754_zero false
    else neg (div (of_int ((- nsec d / Day) mod 365)) (of_int 7)).
Proof. exact (@Weeks_negative d). Qed.

Lemma Weeks_of_negative_witness :
  min_int64 <= nsec (mkDuration (- Day)) < 0 /\
  Weeks (mkDuration (- Day)) = neg (div (of_int 1) (of_int 7)) /\
  FormatFloat (Weeks (mkDuration (- Day))) = "-0.14285714285714285" /\
  Weeks (mkDuration Day) = S754_zero false.
Proof.
  split; [vm_compute; split; [discriminate|reflexivity]|].
  split; [|split; vm_compute; reflexivity].
  apply (@Weeks_of_negative (mkDuration (- Day))).
  vm_compute. split; [discriminate|reflexivity].
Defined.

(** ** The formatted text is always read *)

(** *** A quotient of moderate size is finite *)

Lemma Zdigits2_le (z D : Z) : 0 <= D -> 0 <= z < 2 ^ D -> 0 <= Zdigits2 z <= D.
Proof.
  intros HD [H0 H1]. destruct z as [|p|p]; [simpl; lia| |lia].
  cbn [Zdigits2]. split; [lia|]. now apply digits2_pos_le.
Qed.

Lemma fexp_bound (z : Z) :
  z <= emax -> SpecFloat.fexp prec emax z <= emax - prec.
Proof. unfold SpecFloat.fexp, SpecFloat.emin, prec, emax. lia. Qed.

Lemma div_pow2_bound (m D n : Z) :
  0 <= m < 2 ^ D -> 0 <= D -> 0 <= n ->
  0 <= m / 2 ^ n < 2 ^ Z.max 0 (D - n).
Proof.
  intros [H0 H1] HD Hn.
  assert (H2n : 0 < 2 ^ n) by (apply Z.pow_pos_nonneg; lia).
  split; [apply Z.div_pos; lia|].
  destruct (Z_le_gt_dec n D) as [Hle|Hgt].
  - rewrite Z.max_r by lia. apply Z.div_lt_upper_bound; [lia|].
    rewrite <- Z.pow_add_r by lia. replace (n + (D - n)) with D by lia. exact H1.
  - rewrite Z.max_l by lia. simpl. apply Z.div_lt_upper_bound; [lia|].
    assert (2 ^ D <= 2 ^ n) by (apply Z.pow_le_mono_r; lia). lia.
Qed.

(** What [shr_fexp] returns of a mantissa that is not negative. *)
Lemma shr_fexp_spec (m e : Z) (l : location) :
  0 <= m ->
  exists R,
    shr_fexp prec emax m e l
    = (R, Z.max e (SpecFloat.fexp prec emax (Zdigits2 m + e)))
    /\ shr_m R = m / 2 ^ (Z.max e (SpecFloat.fexp prec emax (Zdigits2 m + e)) - e).
Proof.
  intros Hm. unfold shr_fexp.
  set (f := SpecFloat.fexp prec emax (Zdigits2 m + e)).
  destruct (Z_le_gt_dec f e) as [Hle|Hgt].
  - rewrite Z.max_l by lia. rewrite Z.sub_diag, Z.pow_0_r, Z.div_1_r.
    exists (shr_record_of_loc m l). split; [|apply shr_m_of_loc].
    unfold shr. destruct (f - e) as [|p|p] eqn:E; [reflexivity|lia|reflexivity].
  - rewrite Z.max_r by lia.
    exists (Nat.iter (Z.to_nat (f - e)) shr_1 (shr_record_of_loc m l)). split.
    + rewrite shr_value by lia. f_equal. lia.
    + rewrite iter_shr_1_m by (rewrite shr_m_of_loc; exact Hm).
      rewrite shr_m_of_loc, Z2Nat.id by lia. reflexivity.
Qed.

Lemma round_nearest_even_le (q : Z) (l : location) :
  q <= round_nearest_even q l <= q + 1.
Proof. destruct (round_nearest_even_cases q l) as [-> | ->]; lia. Qed.

Lemma exponent_step (D e f : Z) :
  0 <= D -> D + e <= emax - 1 -> e <= emax - prec ->
  f <= emax - prec -> e <= f \/ f <= e ->
  Z.max 0 (D - (Z.max e f - e)) + 1 + Z.max e f <= emax.
Proof. unfold emax, prec. lia. Qed.

(** Rounding a mantissa below [2^D] at an exponent [e] with
    [D + e < emax] does not overflow. *)
Lemma binary_round_aux_no_overflow (mx ex D : Z) (l : location) (s : bool) :
  0 <= mx < 2 ^ D -> 0 <= D -> D + ex <= emax - 1 -> ex <= emax - prec ->
  binary_round_aux prec emax false mx ex l <> S754_infinity s.
Proof.
  intros Hm HD HDe He. unfold binary_round_aux.
  destruct (@shr_fexp_spec mx ex l ltac:(lia)) as (R1 & -> & HR1).
  set (e1 := Z.max ex (SpecFloat.fexp prec emax (Zdigits2 mx + ex))) in *.
  pose proof (Zdigits2_le HD Hm) as Hdig.
  assert (Hf1 : SpecFloat.fexp prec emax (Zdigits2 mx + ex) <= emax - prec).
  { apply fexp_bound. unfold emax in *. lia. }
  assert (He1 : ex <= e1 <= emax - prec) by (unfold e1; lia).
  pose proof (@div_pow2_bound mx D (e1 - ex) Hm HD ltac:(lia)) as Hm1.
  rewrite <- HR1 in Hm1.
  set (D1 := Z.max 0 (D - (e1 - ex))) in *.
  set (r := round_nearest_even (shr_m R1) (loc_of_shr_record R1)).
  pose proof (round_nearest_even_le (shr_m R1) (loc_of_shr_record R1)) as Hr.
  fold r in Hr.
  assert (Hr2 : 0 <= r < 2 ^ (D1 + 1)).
  { rewrite Z.pow_add_r by (unfold D1; lia). simpl (2 ^ 1). lia. }
  destruct (@shr_fexp_spec r e1 loc_Exact ltac:(lia)) as (R2 & -> & HR2).
  set (e2 := Z.max e1 (SpecFloat.fexp prec emax (Zdigits2 r + e1))) in *.
  pose proof (@Zdigits2_le r (D1 + 1) ltac:(unfold D1; lia) Hr2) as Hdig2.
  assert (Hsum : D1 + 1 + e1 <= emax).
  { unfold D1, e1.
    apply exponent_step; try assumption. lia. }
  assert (Hf2 : SpecFloat.fexp prec emax (Zdigits2 r + e1) <= emax - prec).
  { apply fexp_bound. lia. }
  assert (He2 : e2 <= emax - prec) by (unfold e2; lia).
  destruct (shr_m R2) as [|p|p]; try discriminate.
  apply Z.leb_le in He2. rewrite He2. discriminate.
Qed.

Lemma quotient_bound (n d s q r : Z) :
  0 <= n -> 0 < d -> n < 2 ^ 64 * d -> 0 <= s ->
  n * 2 ^ s = d * q + r -> 0 <= r < d ->
  0 <= q < 2 ^ (64 + s).
Proof.
  intros Hn Hd Hb Hs Heq Hr.
  assert (H2s : 0 < 2 ^ s) by (apply Z.pow_pos_nonneg; lia).
  rewrite Z.pow_add_r by lia.
  assert (n * 2 ^ s < 2 ^ 64 * d * 2 ^ s) by (apply Z.mul_lt_mono_pos_r; lia).
  split; nia.
Qed.

(** The nearest [float64] to a ratio below [2^64] is finite. *)
Lemma of_ratio_finite (n d : Z) (s : bool) :
  0 <= n -> 0 < d -> n < 2 ^ 64 * d -> of_ratio n d <> S754_infinity s.
Proof.
  intros Hn Hd Hb. unfold of_ratio.
  destruct n as [|p|p]; [discriminate| |lia].
  unfold SFdiv_core_binary.
  set (e' := Z.min (SpecFloat.fexp prec emax (Zdigits2 (Zpos p) + 0 - (Zdigits2 d + 0)))
                   (0 - 0)).
  assert (He' : e' <= 0) by (unfold e'; lia).
  assert (Hs : 0 - 0 - e' = - e') by lia. rewrite Hs.
  set (m' := match - e' with
             | 0 => Zpos p
             | Zpos _ => Z.shiftl (Zpos p) (- e')
             | Zneg _ => 0
             end).
  assert (Hm' : m' = Zpos p * 2 ^ (- e')).
  { unfold m'. destruct (- e') as [|t|t] eqn:E; [simpl; lia| |lia].
    now rewrite Z.shiftl_mul_pow2 by lia. }
  pose proof (Z.div_eucl_eq m' d ltac:(lia)) as Hdiv.
  pose proof (Z.mod_pos_bound m' d Hd) as Hmod.
  unfold Z.modulo in Hmod.
  destruct (Z.div_eucl m' d) as [q r].
  rewrite Hm' in Hdiv.
  pose proof (@quotient_bound (Zpos p) d (- e') q r Hn Hd Hb ltac:(lia) Hdiv Hmod) as Hq.
  apply binary_round_aux_no_overflow with (D := 64 + - e');
    [exact Hq|lia|unfold emax; lia|unfold emax, prec; lia].
Qed.

(** *** A number printed in plain decimals is read back *)

Lemma all_in_app (cl : cclass) (a b : string) :
  all_in cl (a ++ b) = all_in cl a && all_in cl b.
Proof.
  induction a as [|c a IH]; [reflexivity|].
  cbn [append all_in]. now rewrite IH, andb_assoc.
Qed.

Lemma all_in_list (cl : cclass) (s : string) :
  all_in cl s = forallb (in_class cl) (list_ascii_of_string s).
Proof. induction s as [|a s IH]; cbn; [reflexivity|now rewrite IH]. Qed.

Lemma all_digits_strip (s : string) :
  all_digits s = true -> all_digits (strip_trailing_zeros s) = true.
Proof.
  unfold all_digits. rewrite !all_in_list. unfold strip_trailing_zeros.
  rewrite list_ascii_of_string_of_list_ascii. intros H.
  apply forallb_rev_true, forallb_strip_zeros_rev, forallb_rev_true, H.
Qed.

Lemma all_digits_substring (s : string) (n m : nat) :
  all_digits s = true -> all_digits (substring n m s) = true.
Proof.
  unfold all_digits. revert n m. induction s as [|a s IH]; intros n m H.
  - destruct n, m; reflexivity.
  - cbn [all_in] in H. apply andb_true_iff in H as [Ha Hs].
    destruct n, m; cbn [substring all_in]; auto.
    now rewrite Ha, IH.
Qed.

Lemma all_digits_zeros (n : nat) : all_digits (zeros n) = true.
Proof. induction n; cbn; auto. Qed.

Lemma length_append (a b : string) :
  String.length (a ++ b) = (String.length a + String.length b)%nat.
Proof. induction a as [|c a IH]; cbn; [reflexivity|now rewrite IH]. Qed.

Lemma length_zeros (n : nat) : String.length (zeros n) = n.
Proof. induction n; cbn; auto. Qed.

Lemma length_substring_0 (s : string) (n : nat) :
  (n <= String.length s)%nat -> String.length (substring 0 n s) = n.
Proof.
  revert n. induction s as [|a s IH]; intros n Hn.
  - cbn in Hn. destruct n; [reflexivity|lia].
  - destruct n; [reflexivity|]. cbn [substring String.length].
    rewrite IH; [reflexivity|]. cbn in Hn. lia.
Qed.

Lemma shortest_digits (m : positive) (e : Z) :
  all_digits (fst (shortest m e)) = true.
Proof.
  unfold shortest. destruct (shortest_from _ _ _ _ _ _ _) as [c x].
  cbn [fst]. apply all_digits_strip, string_of_nat_Z_digits.
Qed.

Lemma decimal_from_bound (s : string) (acc : Z) :
  all_digits s = true -> 0 <= acc ->
  0 <= decimal_from acc s < (acc + 1) * 10 ^ Z.of_nat (String.length s).
Proof.
  revert acc. induction s as [|c s IH]; intros acc H Ha.
  - cbn. lia.
  - cbn [all_digits all_in in_class] in H. apply andb_true_iff in H as [Hc Hs].
    pose proof (digit_val_bounds c Hc) as Hv.
    cbn [decimal_from String.length].
    destruct (IH (10 * acc + digit_val c) Hs ltac:(lia)) as [L U].
    split; [exact L|].
    rewrite Nat2Z.inj_succ, Z.pow_succ_r by lia.
    assert (0 < 10 ^ Z.of_nat (String.length s)) by (apply Z.pow_pos_nonneg; lia).
    nia.
Qed.

Lemma read_decimal_fraction (b : string) (mant frac : Z) (sawdigits : bool) :
  all_digits b = true ->
  read_decimal b mant frac true sawdigits
  = if sawdigits || negb (String.eqb b "")
    then Some (decimal_from mant b, frac + Z.of_nat (String.length b))
    else None.
Proof.
  revert mant frac sawdigits. induction b as [|c b IH]; intros mant frac sd H.
  - cbn. rewrite orb_false_r, Z.add_0_r. reflexivity.
  - cbn [all_digits all_in in_class] in H. apply andb_true_iff in H as [Hc Hb].
    cbn [read_decimal decimal_from String.length]. rewrite Hc.
    rewrite (IH _ _ true Hb). cbn [orb]. rewrite orb_true_r.
    rewrite Nat2Z.inj_succ. do 2 f_equal. lia.
Qed.

Lemma read_decimal_point (a b : string) (mant : Z) (sawdigits : bool) :
  all_digits a = true -> all_digits b = true ->
  read_decimal (a ++ String "." b) mant 0 false sawdigits
  = if sawdigits || negb (String.eqb a "") || negb (String.eqb b "")
    then Some (decimal_from (decimal_from mant a) b, Z.of_nat (String.length b))
    else None.
Proof.
  revert mant sawdigits. induction a as [|c a IH]; intros mant sd Ha Hb.
  - cbn [append read_decimal decimal_from].
    change (is_digit ".") with false. cbv iota.
    change (Ascii.eqb "." ".") with true. cbv iota.
    rewrite read_decimal_fraction by exact Hb.
    cbn [String.eqb negb]. rewrite orb_false_r. reflexivity.
  - cbn [all_digits all_in in_class] in Ha. apply andb_true_iff in Ha as [Hc Ha].
    cbn [append read_decimal decimal_from]. rewrite Hc.
    rewrite (IH _ true Ha Hb). cbn [orb String.eqb negb].
    rewrite orb_true_r. reflexivity.
Qed.

Lemma ParseFloat_of_ratio (s : string) (mant frac : Z) :
  read_decimal s 0 0 false false = Some (mant, frac) ->
  0 <= mant -> 0 <= frac -> mant < 2 ^ 64 * 10 ^ frac ->
  exists v, ParseFloat s = inl v.
Proof.
  intros Hr Hm Hf Hb. unfold ParseFloat. rewrite Hr.
  assert (H10 : 0 < 10 ^ frac) by (apply Z.pow_pos_nonneg; lia).
  destruct (of_ratio mant (10 ^ frac)) as [z|i| |sg m e] eqn:E; eauto.
  exfalso. exact (@of_ratio_finite mant (10 ^ frac) i Hm H10 Hb E).
Qed.

Lemma pow10_19 (n : Z) : 0 <= n <= 19 -> 10 ^ n <= 2 ^ 64.
Proof.
  intros Hn. apply Z.le_trans with (10 ^ 19); [|vm_compute; discriminate].
  apply Z.pow_le_mono_r; lia.
Qed.

(** Digits, a point, digits. *)
Lemma ParseFloat_point (a b : string) :
  all_digits a = true -> all_digits b = true -> a <> "" ->
  (String.length a <= 19)%nat ->
  exists v, ParseFloat (a ++ String "." b) = inl v.
Proof.
  intros Ha Hb Hne Hlen.
  apply String.eqb_neq in Hne.
  pose proof (@read_decimal_point a b 0 false Ha Hb) as Hr.
  rewrite Hne in Hr. cbn [negb orb] in Hr.
  destruct (@decimal_from_bound a 0 Ha (Z.le_refl 0)) as [La Ua].
  destruct (@decimal_from_bound b _ Hb La) as [Lb Ub].
  apply (@ParseFloat_of_ratio _ _ _ Hr); [exact Lb|lia|].
  pose proof (@pow10_19 (Z.of_nat (String.length a)) ltac:(lia)) as Hp.
  assert (0 < 10 ^ Z.of_nat (String.length b)) by (apply Z.pow_pos_nonneg; lia).
  nia.
Qed.

(** Digits alone. *)
Lemma ParseFloat_plain (a : string) :
  all_digits a = true -> a <> "" -> (String.length a <= 19)%nat ->
  exists v, ParseFloat a = inl v.
Proof.
  intros Ha Hne Hlen.
  apply String.eqb_neq in Hne.
  pose proof (@read_decimal_digits a 0 false Ha) as Hr.
  rewrite Hne in Hr. cbn [negb orb] in Hr.
  destruct (@decimal_from_bound a 0 Ha (Z.le_refl 0)) as [La Ua].
  apply (@ParseFloat_of_ratio _ _ _ Hr); [exact La|lia|].
  pose proof (@pow10_19 (Z.of_nat (String.length a)) ltac:(lia)) as Hp.
  simpl (10 ^ 0). lia.
Qed.

Lemma ParseFloat_fmtF (digs : string) (dp : Z) :
  all_digits digs = true -> - 3 <= dp <= 6 ->
  exists v, ParseFloat (fmtF digs dp) = inl v.
Proof.
  intros Hd Hdp. unfold fmtF.
  destruct (dp <=? 0) eqn:E1.
  - change ("0." ++ zeros (Z.to_nat (- dp)) ++ digs)
      with ("0" ++ String "." (zeros (Z.to_nat (- dp)) ++ digs)).
    apply ParseFloat_point; [reflexivity| |discriminate|cbn; lia].
    unfold all_digits. rewrite all_in_app.
    fold (all_digits (zeros (Z.to_nat (- dp)))). fold (all_digits digs).
    now rewrite all_digits_zeros, Hd.
  - apply Z.leb_gt in E1.
    destruct (Z.of_nat (String.length digs) <=? dp) eqn:E2.
    + apply Z.leb_le in E2.
      assert (Hlen : String.length (digs ++ zeros (Z.to_nat (dp - Z.of_nat (String.length digs))))
                     = Z.to_nat dp).
      { rewrite length_append, length_zeros. lia. }
      apply ParseFloat_plain.
      * unfold all_digits. rewrite all_in_app.
        fold (all_digits digs).
        fold (all_digits (zeros (Z.to_nat (dp - Z.of_nat (String.length digs))))).
        now rewrite all_digits_zeros, Hd.
      * intros Hnil. rewrite Hnil in Hlen. cbn in Hlen. lia.
      * rewrite Hlen. lia.
    + apply Z.leb_gt in E2.
      assert (Hlen : String.length (substring 0 (Z.to_nat dp) digs) = Z.to_nat dp).
      { apply length_substring_0. lia. }
      apply ParseFloat_point.
      * now apply all_digits_substring.
      * now apply all_digits_substring.
      * intros Hnil. rewrite Hnil in Hlen. cbn in Hlen. lia.
      * rewrite Hlen. lia.
Qed.

Lemma fmtE_not_plain (digs : string) (dp : Z) :
  all_in DigitOrDot (fmtE digs dp) = false.
Proof.
  unfold fmtE. rewrite all_in_app.
  change (all_in DigitOrDot ("e" ++ ?x)) with false.
  apply andb_false_r.
Qed.

(** A number printed with digits and points only is read back by
    [ParseFloat] without an error. *)
Lemma ParseFloat_FormatFloat (x : float64) :
  all_in DigitOrDot (FormatFloat x) = true ->
  exists v, ParseFloat (FormatFloat x) = inl v.
Proof.
  destruct x as [s|s| |s m e]; cbn [FormatFloat].
  - destruct s; [discriminate|]. intros _. eexists. vm_compute. reflexivity.
  - destruct s; discriminate.
  - discriminate.
  - pose proof (shortest_digits m e) as Hd.
    destruct (shortest m e) as [digs dp]. cbn [fst] in Hd.
    destruct s; [discriminate|]. cbn [append].
    destruct ((dp - 1 <? -4) || (6 <=? dp - 1)) eqn:E.
    + rewrite fmtE_not_plain. discriminate.
    + intros _. apply orb_false_iff in E as [E1 E2].
      apply Z.ltb_ge in E1. apply Z.leb_gt in E2.
      apply ParseFloat_fmtF; [exact Hd|lia].
Qed.

(** *** The full pattern on a text with a time part and a rest *)

Lemma run_then_seconds (c : ascii) (seen : bool) (s rest : string) :
  all_in DigitOrDot s = true ->
  Ascii.eqb c "." = false -> Ascii.eqb c "S" = false ->
  run_then Digit c seen (s ++ String "S" rest) = false.
Proof.
  intros Hs Hdot HS. revert seen.
  induction s as [|a s IH]; intros seen.
  - cbn [append run_then]. change (in_class Digit "S") with false.
    cbv iota. rewrite HS. apply andb_false_r.
  - cbn [all_in in_class] in Hs. apply andb_true_iff in Hs as [Ha Hs].
    cbn [append run_then in_class].
    destruct (is_digit a) eqn:Ed; [now apply IH|].
    cbn [orb] in Ha. apply Ascii.eqb_eq in Ha. subst a.
    rewrite Hdot. apply andb_false_r.
Qed.

Lemma run_then_opt_seconds (c : ascii) (s rest : string) :
  all_in DigitOrDot s = true ->
  Ascii.eqb c "." = false -> Ascii.eqb c "S" = false ->
  run_then Digit c false rest = false ->
  run_then Digit c false (opt_desig s "S" ++ rest) = false.
Proof.
  intros Hs Hdot HS Hr. destruct s as [|a s]; [exact Hr|].
  cbn [opt_desig]. rewrite append_assoc_str.
  now apply run_then_seconds.
Qed.

Lemma match_here_timed (y d h mi s rest : string) :
  all_digits y = true -> all_digits d = true ->
  all_digits h = true -> all_digits mi = true ->
  all_in DigitOrDot s = true -> stops rest = true ->
  match_here full (timed_form y d h mi s rest) = Some (timed_match y d h mi s).
Proof.
  intros Hy Hd Hh Hmi Hs Hst.
  apply andb_true_iff in Hst as [Hst HrS].
  apply andb_true_iff in Hst as [HrH HrM].
  apply negb_true_iff in HrH, HrM, HrS.
  unfold match_here, full, timed_form.
  rewrite rmatch_seq_eq, rmatch_lit_eq, rmatch_seq_eq.
  apply rmatch_designator; [reflexivity|exact Hy| |].
  { intros _. apply run_then_opt_desig; [exact Hd|reflexivity|reflexivity|].
    intros _. reflexivity. }
  rewrite ngroups_designator, rmatch_seq_eq.
  apply (@rmatch_designator _ "month" Digit "M" ""); [reflexivity|reflexivity| |].
  { intros _. apply run_then_opt_desig; [exact Hd|reflexivity|reflexivity|].
    intros _. reflexivity. }
  rewrite ngroups_designator, rmatch_seq_eq.
  apply rmatch_designator; [reflexivity|exact Hd| |].
  { intros _. reflexivity. }
  rewrite ngroups_designator.
  apply rmatch_opt_inner.
  rewrite rmatch_group_eq, rmatch_seq_eq, rmatch_lit_eq, rmatch_seq_eq.
  apply rmatch_designator; [reflexivity|exact Hh| |].
  { intros _. apply run_then_opt_desig; [exact Hmi|reflexivity|reflexivity|].
    intros _. now apply run_then_opt_seconds. }
  rewrite ngroups_designator, rmatch_seq_eq.
  apply rmatch_designator; [reflexivity|exact Hmi| |].
  { intros _. now apply run_then_opt_seconds. }
  rewrite ngroups_designator.
  apply rmatch_designator; [reflexivity|exact Hs| |].
  { intros _. exact HrS. }
  f_equal.
  assert (E1 : String "T" (opt_desig h "H" ++ opt_desig mi "M" ++ opt_desig s "S" ++ rest)
               = String "T" (opt_desig h "H" ++ opt_desig mi "M" ++ opt_desig s "S")
                 ++ rest).
  { rewrite <- !append_assoc_str. reflexivity. }
  assert (E0 : String "P" (opt_desig y "Y" ++ opt_desig d "D"
                 ++ String "T" (opt_desig h "H" ++ opt_desig mi "M"
                                ++ opt_desig s "S" ++ rest))
               = String "P" (opt_desig y "Y" ++ opt_desig d "D"
                   ++ String "T" (opt_desig h "H" ++ opt_desig mi "M"
                                  ++ opt_desig s "S")) ++ rest).
  { rewrite E1. rewrite <- !append_assoc_str. reflexivity. }
  rewrite E0, E1, !consumed_app.
  unfold timed_match.
  destruct y, d, h, mi, s; reflexivity.
Qed.

(** *** No error on a formatted text *)

(** An error of the loop comes from a named submatch that is not empty
    and that [ParseFloat] refuses. *)
Lemma parse_loop_error_source (names parts : list string) (i : nat) (d : Z)
      (e : Error) :
  forallb (fun n => String.eqb n "" || handled n) names = true ->
  parse_loop i names parts d = inr e ->
  exists k name part,
    e = ErrParseFloat k part /\ In (name, part) (combine names parts)
    /\ name <> "" /\ part <> "" /\ ParseFloat part = inr k.
Proof.
  revert parts i d. induction names as [|name names IH]; intros parts i d Hn.
  - discriminate.
  - destruct parts as [|part parts]; [discriminate|].
    cbn [forallb] in Hn. apply andb_true_iff in Hn as [Hname Hn].
    cbn [parse_loop combine].
    destruct (Nat.eqb i 0 || String.eqb name "" || String.eqb part "") eqn:Hskip.
    + intros H. destruct (IH _ _ _ Hn H) as (k & n & p & -> & Hin & Hrest).
      exists k, n, p. split; [reflexivity|]. split; [now right|exact Hrest].
    + apply orb_false_iff in Hskip as [Hskip Hpart].
      apply orb_false_iff in Hskip as [_ Hnm].
      destruct (ParseFloat part) as [v|k] eqn:Hp.
      * assert (Hh : handled name = true) by (rewrite Hnm in Hname; exact Hname).
        destruct (accumulate_handled name v d Hh) as (d' & ->).
        intros H. destruct (IH _ _ _ Hn H) as (k & n & p & -> & Hin & Hrest).
        exists k, n, p. split; [reflexivity|]. split; [now right|exact Hrest].
      * intros H. injection H as <-. exists k, name, part.
        split; [reflexivity|]. split; [now left|].
        apply String.eqb_neq in Hnm, Hpart. auto.
Qed.

Lemma in_class_weaken (cl : cclass) (a : ascii) :
  in_class cl a = true -> in_class DigitOrDot a = true.
Proof. destruct cl; cbn [in_class]; [intros ->; reflexivity|auto]. Qed.

(** A printed number that is not made of digits and points only starts
    no designator. *)
Lemma run_then_junk (cl : cclass) (c : ascii) (seen : bool) (j rest : string) :
  chars_in float_chars j = true -> all_in DigitOrDot j = false ->
  has_char c float_chars = false ->
  run_then cl c seen (j ++ rest) = false.
Proof.
  intros Hj Hn Hc. revert seen. induction j as [|a j IH]; intros seen.
  - discriminate.
  - cbn [chars_in] in Hj. apply andb_true_iff in Hj as [Ha Hj].
    cbn [append run_then].
    destruct (in_class cl a) eqn:Ecl.
    + apply IH; [exact Hj|].
      cbn [all_in] in Hn. rewrite (in_class_weaken _ _ Ecl) in Hn. exact Hn.
    + destruct (Ascii.eqb c a) eqn:E; [|apply andb_false_r].
      apply Ascii.eqb_eq in E. subst a. congruence.
Qed.

Lemma stops_junk (j : string) :
  chars_in float_chars j = true -> all_in DigitOrDot j = false ->
  stops (j ++ "S") = true.
Proof.
  intros Hj Hn. unfold stops.
  now rewrite !run_then_junk by (assumption || reflexivity).
Qed.

Lemma has_char_opt_text (c x : ascii) (s : string) :
  has_char c s = false -> Ascii.eqb c x = false ->
  has_char c (opt_desig s x) = false.
Proof.
  intros Hs Hx. destruct s as [|a s]; [reflexivity|].
  cbn [opt_desig]. rewrite has_char_app, Hs. cbn [has_char orb]. now rewrite Hx.
Qed.

Lemma timed_form_no_W (y d h mi s rest : string) :
  all_digits y = true -> all_digits d = true ->
  all_digits h = true -> all_digits mi = true ->
  has_char "W" s = false -> has_char "W" rest = false ->
  has_char "W" (timed_form y d h mi s rest) = false.
Proof.
  intros Hy Hd Hh Hmi Hs Hr. unfold timed_form.
  cbn [has_char Ascii.eqb Bool.eqb orb].
  rewrite !has_char_app. cbn [has_char Ascii.eqb Bool.eqb orb].
  rewrite !has_char_app.
  rewrite !has_char_opt_desig by (reflexivity || assumption).
  rewrite has_char_opt_text by (reflexivity || assumption).
  now rewrite Hr.
Qed.

Lemma ParseFloat_field (k : Z) :
  0 <= k < 1000 -> fld k <> "" -> exists v, ParseFloat (fld k) = inl v.
Proof.
  intros Hk Hne. destruct (fld_facts Hk) as [Hd Hv].
  eexists. apply ParseFloat_digits; [exact Hne|exact Hd|].
  rewrite Hv. unfold prec. lia.
Qed.

(** The parser accepts a text with a time part whose fields are small
    integers and whose seconds are a number printed with digits and
    points only, whatever rest follows that starts no designator. *)
Lemma ParseString_timed (y d h mi : Z) (s rest : string) :
  0 <= y < 1000 -> 0 <= d < 1000 -> 0 <= h < 1000 -> 0 <= mi < 1000 ->
  all_in DigitOrDot s = true ->
  (s <> "" -> exists v, ParseFloat s = inl v) ->
  has_char "W" s = false -> has_char "W" rest = false ->
  stops rest = true ->
  exists t, ParseString (timed_form (fld y) (fld d) (fld h) (fld mi) s rest)
            = inl t.
Proof.
  intros Hy Hd Hh Hmi Hs Hps HWs HWr Hst.
  destruct (fld_facts Hy) as [Ay _]. destruct (fld_facts Hd) as [Ad _].
  destruct (fld_facts Hh) as [Ah _]. destruct (fld_facts Hmi) as [Ami _].
  unfold ParseString.
  destruct (MatchString week _) eqn:Ew.
  { apply MatchString_week_W in Ew.
    rewrite timed_form_no_W in Ew by assumption. discriminate. }
  rewrite MatchString_full.
  unfold timed_form at 1. cbn [has_char Ascii.eqb Bool.eqb orb].
  rewrite (FindStringSubmatch_here _ _
             (@match_here_timed _ _ _ _ _ _ Ay Ad Ah Ami Hs Hst)).
  destruct (parse_loop 0 (SubexpNames full) _ 0) as [r|e] eqn:E; [eauto|].
  exfalso.
  apply parse_loop_error_source in E; [|reflexivity].
  destruct E as (k & name & part & _ & Hin & Hname & Hpart & Hpf).
  unfold timed_match in Hin.
  cbn [SubexpNames group_names full designator app combine In] in Hin.
  repeat (destruct Hin as [Hin|Hin];
          [injection Hin as <- <-; try (now apply Hname); try (now apply Hpart)|]);
    try contradiction.
  - destruct (ParseFloat_field Hy Hpart) as (v & Hv). congruence.
  - destruct (ParseFloat_field Hd Hpart) as (v & Hv). congruence.
  - destruct (ParseFloat_field Hh Hpart) as (v & Hv). congruence.
  - destruct (ParseFloat_field Hmi Hpart) as (v & Hv). congruence.
  - destruct (Hps Hpart) as (v & Hv). congruence.
Qed.

Lemma FormatFloat_no_W (x : float64) : has_char "W" (FormatFloat x) = false.
Proof.
  apply chars_in_absent with float_chars; [reflexivity|apply FormatFloat_chars].
Qed.

Lemma stops_nil : stops "" = true.
Proof. reflexivity. Qed.

Lemma stops_S : stops "S" = true.
Proof. reflexivity. Qed.

(** The seconds as the template writes them are the seconds of a timed
    text, or a rest that is not read. *)
Lemma seconds_part (x : float64) :
  exists s rest,
    (if nonzero x then FormatFloat x ++ "S" else "") = opt_desig s "S" ++ rest
    /\ all_in DigitOrDot s = true
    /\ (s <> "" -> exists v, ParseFloat s = inl v)
    /\ has_char "W" s = false /\ has_char "W" rest = false
    /\ stops rest = true.
Proof.
  destruct (nonzero x).
  - destruct (all_in DigitOrDot (FormatFloat x)) eqn:Ed.
    + destruct (string_dec (FormatFloat x) "") as [E|E].
      * exists "", "S". rewrite E. repeat split; auto. intros H. now contradiction H.
      * exists (FormatFloat x), "".
        rewrite (opt_desig_nonempty "S" E), app_nil_r_str.
        repeat split; auto.
        -- intros _. now apply ParseFloat_FormatFloat.
        -- apply FormatFloat_no_W.
    + exists "", (FormatFloat x ++ "S"). repeat split; auto.
      * intros H. now contradiction H.
      * rewrite has_char_app, FormatFloat_no_W. reflexivity.
      * apply stops_junk; [apply FormatFloat_chars|exact Ed].
  - exists "", "". repeat split; auto. intros H. now contradiction H.
Qed.

Lemma parse_format_positive (d : Duration) :
  0 < nsec d <= max_int64 -> exists t, ParseString (DurationString d) = inl t.
Proof.
  intros Hd.
  assert (Hd' : 0 <= nsec d <= max_int64) by lia.
  assert (Hz : nsec d <> 0) by lia.
  destruct (nonzero (Weeks d) && IsWeeksOnly d) eqn:Hw.
  { destruct (DurationString_weeks d Hd' Hz Hw) as (w & Hb & Hwd & ->).
    destruct (@small_table w) as (_ & Hdig & Hdec & Hne & _); [lia|].
    change ("P" ++ string_of_nat_Z w ++ "W")
      with ("P" ++ string_of_nat_Z w ++ "W" ++ "").
    eexists. apply parse_week_value; auto.
    rewrite Hdec, Hwd. lia. }
  destruct (accessors_values d Hd') as (Ey & Ed & Eh & Em).
  assert (Hy : 0 <= nsec d / Year < 1000).
  { assert (HY : Year = 31536000000000000) by reflexivity.
    assert (Hmax : max_int64 = 9223372036854775807) by reflexivity.
    rewrite HY, Hmax in *. split; [apply Z.div_pos; lia|].
    apply Z.div_lt_upper_bound; lia. }
  assert (Hdd : 0 <= (nsec d / Day) mod 365 < 1000)
    by (pose proof (Z.mod_pos_bound (nsec d / Day) 365); lia).
  assert (Hh : 0 <= (nsec d / Hour) mod 24 < 1000)
    by (pose proof (Z.mod_pos_bound (nsec d / Hour) 24); lia).
  assert (Hmi : 0 <= (nsec d / Minute) mod 60 < 1000)
    by (pose proof (Z.mod_pos_bound (nsec d / Minute) 60); lia).
  unfold DurationString, IsZero.
  apply Z.eqb_neq in Hz. rewrite Hz, Hw, Ey, Ed, Eh, Em.
  rewrite <- !opt_desig_fld by assumption.
  change ("P" ++ ?x) with (String "P" x).
  destruct (HasTimePart d).
  - destruct (seconds_part (Seconds d))
      as (s & rest & -> & Hs & Hps & HWs & HWr & Hst).
    apply (@ParseString_timed _ _ _ _ s rest Hy Hdd Hh Hmi Hs Hps HWs HWr Hst).
  - destruct (fld_facts Hy) as [Ay Vy]. destruct (fld_facts Hdd) as [Ad Vd].
    eexists.
    apply (@ParseString_full_wrap (fld (nsec d / Year)) ""
             (fld ((nsec d / Day) mod 365)) "" "" "");
      try reflexivity; try assumption;
      rewrite ?Vy, ?Vd; unfold prec; lia.
Qed.

Lemma parse_format_any (d : Duration) :
  int64_range (nsec d) -> exists t, ParseString (DurationString d) = inl t.
Proof.
  intros [Hlo Hhi].
  destruct (Z.lt_trichotomy (nsec d) 0) as [Hn|[Hn|Hn]].
  - eexists. apply parse_format_negative. lia.
  - destruct d as [z]. cbn [nsec] in Hn. subst z. eexists. vm_compute. reflexivity.
  - apply parse_format_positive. lia.
Qed.

(** X26.  The parser accepts every text the formatter writes: whatever
    the magnitude in the range of an [int64], parsing the formatted text
    returns a duration and no error.  The duration need not be the one
    that was formatted. *)
Theorem String_always_parses (d : Duration) :
  int64_range (nsec d) -> exists t, ParseString (DurationString d) = inl t.
Proof. exact (@parse_format_any d). Qed.

Lemma String_always_parses_witness :
  int64_range (nsec (mkDuration 31457339999999997)) /\
  DurationString (mkDuration 31457339999999997) = "P364DT2H8M-4e-09S" /\
  exists t, ParseString (DurationString (mkDuration 31457339999999997)) = inl t.
Proof.
  split; [vm_compute; split; discriminate|].
  split; [vm_compute; reflexivity|].
  apply (@String_always_parses (mkDuration 31457339999999997)).
  vm_compute. split; discriminate.
Defined.

(** X27.  Unmarshalling what was marshalled never fails: whatever the
    magnitude in the range of an [int64] and whatever the receiver,
    [UnmarshalJSON] on the bytes [MarshalJSON] returned sets the
    receiver to a duration and returns no error. *)
Theorem JSON_always_unmarshals (d d0 : Duration) :
  int64_range (nsec d) ->
  exists t, UnmarshalJSON Json.Decode d0 (MarshalJSON Json.Encode d) = (t, None).
Proof.
  intros Hd. unfold UnmarshalJSON, MarshalJSON.
  rewrite Decode_Encode_chars by apply DurationString_chars.
  destruct (parse_format_any d Hd) as (t & ->). eauto.
Qed.

Lemma JSON_always_unmarshals_witness :
  int64_range (nsec (mkDuration 10000)) /\
  MarshalJSON Json.Encode (mkDuration 10000)
  = String Json.quote ("PT1e-05S" ++ String Json.quote (String Json.newline "")) /\
  exists t, UnmarshalJSON Json.Decode (mkDuration 7)
                          (MarshalJSON Json.Encode (mkDuration 10000))
            = (t, None).
Proof.
  split; [vm_compute; split; discriminate|].
  split; [vm_compute; reflexivity|].
  apply (@JSON_always_unmarshals (mkDuration 10000) (mkDuration 7)).
  vm_compute. split; discriminate.
Defined.
